(** * G-DICE: the controller distribution, the rollouts and the optimisation loop

    A shallow embedding of [generalGDICE.py] and [GDICE_Python/Algorithms.py].

    Conventions of the embedding:
    - a numpy float is an exact rational ([Qc]); the loop's [np.NINF] is a
      separate constructor of [fval];
    - an integer ndarray is a nested list of [Z] that carries the sizes of its
      trailing axes, so that an array with an empty leading axis keeps its
      shape;
    - a Python exception is a value of [exn]; a method that mutates [self] is a
      function from the object to an outcome and the object as the call left
      it, also when the call raised. *)

From Stdlib Require Import ZArith QArith Qcanon Lia.
From stdpp Require Import base tactics option list numbers.

Set Default Proof Using "Type".

(** ** Exceptions and the state-and-exception monad *)

Inductive exn : Type :=
| ZeroDivisionError
| IndexError
| AssertionError
| TypeError
| ValueError
| AttributeError.

Inductive outcome (A : Type) : Type :=
| Returned (a : A)
| Raised (e : exn).
Arguments Returned {A} a.
Arguments Raised {A} e.

Definition M (S A : Type) : Type := S -> outcome A * S.

Definition ret {S A} (a : A) : M S A := fun s => (Returned a, s).
Definition raise {S A} (e : exn) : M S A := fun s => (Raised e, s).
Definition bind {S A B} (m : M S A) (k : A -> M S B) : M S B :=
  fun s => match m s with
           | (Returned a, s') => k a s'
           | (Raised e, s') => (Raised e, s')
           end.
Definition get {S} : M S S := fun s => (Returned s, s).
Definition put {S} (s : S) : M S unit := fun _ => (Returned tt, s).
Definition modify {S} (f : S -> S) : M S unit := fun s => (Returned tt, f s).

(** An [option] read inside the monad: [None] raises [e]. *)
Definition orRaise {S A} (e : exn) (o : option A) : M S A :=
  match o with Some a => ret a | None => raise e end.

Global Instance M_ret {S} : MRet (M S) := fun A a => ret a.
Global Instance M_bind {S} : MBind (M S) := fun A B k m => bind m k.

(** [[f x for x in xs]] *)
Fixpoint forM {S A B} (xs : list A) (f : A -> M S B) : M S (list B) :=
  match xs with
  | [] => ret []
  | x :: xs' => y ← f x; ys ← forM xs' f; ret (y :: ys)
  end.

(** A loop that carries local variables [B] through its iterations. *)
Fixpoint foldM {S A B} (xs : list A) (body : A -> B -> M S B) (b : B) : M S B :=
  match xs with
  | [] => ret b
  | x :: xs' => b' ← body x b; foldM xs' body b'
  end.

(** A [for] loop whose body may [break]: the body returns the flag and the
    locals. *)
Fixpoint forBreak {S A B} (xs : list A) (body : A -> B -> M S (bool * B)) (b : B)
    : M S B :=
  match xs with
  | [] => ret b
  | x :: xs' =>
      r ← body x b;
      if (r.1 : bool) then ret r.2 else forBreak xs' body r.2
  end.

(** [iter(n)] for an [int]: an [int] is not iterable. *)
Definition iter_int {S} (n : nat) : M S (list nat) := raise TypeError.

(** [for x in xs: body x] *)
Fixpoint forEach {S A} (xs : list A) (body : A -> M S unit) : M S unit :=
  match xs with
  | [] => ret tt
  | x :: xs' => body x;; forEach xs' body
  end.

(** ** numpy indexing *)

(** One index into an axis of size [n]: a negative index counts from the end,
    anything outside [-n, n) is an [IndexError]. *)
Definition py_index (n : nat) (i : Z) : option nat :=
  if bool_decide (0 ≤ i < Z.of_nat n)%Z then Some (Z.to_nat i)
  else if bool_decide (- Z.of_nat n ≤ i < 0)%Z then Some (Z.to_nat (i + Z.of_nat n))
  else None.

(** [l[i]] *)
Definition nth_py {A} (l : list A) (i : Z) : option A :=
  n ← py_index (length l) i; l !! n.

(** Broadcasting of two one-dimensional index arrays against each other. *)
Definition broadcast2 {A B} (I : list A) (J : list B) : option (list (A * B)) :=
  if decide (length I = length J) then Some (zip I J)
  else match I, J with
       | [i], _ => Some ((fun j => (i, j)) <$> J)
       | _, [j] => Some ((fun i => (i, j)) <$> I)
       | _, _ => None
       end.

(** Integer arrays of rank 2 and 3.  [cols2] and [dim3_1], [dim3_2] are the
    sizes of the trailing axes. *)
Record IntArray2 : Type := mkArray2 { cols2 : nat; rows2 : list (list Z) }.
Record IntArray3 : Type :=
  mkArray3 { dim3_1 : nat; dim3_2 : nat; planes3 : list (list (list Z)) }.

(** [np.expand_dims(v, axis=1)] and [np.expand_dims(m, axis=2)] *)
Definition expand_dims_1 (v : list Z) : IntArray2 :=
  mkArray2 1 (map (fun x : Z => [x]) v).
Definition expand_dims_2 (m : IntArray2) : IntArray3 :=
  mkArray3 (cols2 m) 1 (map (map (fun x : Z => [x])) (rows2 m)).

(** [a[:, j]]; a row too short for [j] cannot occur in an array and reads as
    an index error. *)
Definition column (rows : list (list Z)) (j : nat) : option (list Z) :=
  mapM (fun r : list Z => r !! j) rows.

(** [a[o, s, j]] for indices produced by [range]. *)
Definition at3 (a : IntArray3) (o s j : nat) : option Z :=
  p ← planes3 a !! o; r ← p !! s; r !! j.

(** ** [FiniteStateController] *)

Local Open Scope Qc_scope.

Record FiniteStateController : Type := mkFSC {
  numNodes : nat;
  numActions : nat;
  numObservations : nat;
  currentNode : option Z;
  (** [numNodes * numActions] *)
  actionProbabilities : list (list Qc);
  (** [numNodes * numNodes * numObservations], read as [start, destination, observation] *)
  nodeTransitionProbabilities : list (list (list Qc))
}.

Definition with_currentNode (n : option Z) (c : FiniteStateController) :=
  mkFSC (numNodes c) (numActions c) (numObservations c) n
        (actionProbabilities c) (nodeTransitionProbabilities c).
Definition with_actionProbabilities (A : list (list Qc)) (c : FiniteStateController) :=
  mkFSC (numNodes c) (numActions c) (numObservations c) (currentNode c)
        A (nodeTransitionProbabilities c).
Definition with_nodeTransitionProbabilities (T : list (list (list Qc)))
    (c : FiniteStateController) :=
  mkFSC (numNodes c) (numActions c) (numObservations c) (currentNode c)
        (actionProbabilities c) T.

Definition Qc_of_nat (n : nat) : Qc := Qc_of_Z (Z.of_nat n).

(** [1 / n] on a Python [int] *)
Definition int_recip (n : nat) : option Qc :=
  if decide (n = 0%nat) then None else Some (1 / Qc_of_nat n).

(** [np.full] *)
Definition full2 (r c : nat) (x : Qc) : list (list Qc) :=
  replicate r (replicate c x).
Definition full3 (a b c : nat) (x : Qc) : list (list (list Qc)) :=
  replicate a (replicate b (replicate c x)).

Definition initActionNodeProbabilityTable : M FiniteStateController unit :=
  self ← get;
  initialProbability ← orRaise ZeroDivisionError (int_recip (numActions self));
  put (with_actionProbabilities
         (full2 (numNodes self) (numActions self) initialProbability) self).

Definition initObservationNodeTransitionProbabilityTable : M FiniteStateController unit :=
  self ← get;
  initialProbability ← orRaise ZeroDivisionError (int_recip (numNodes self));
  put (with_nodeTransitionProbabilities
         (full3 (numNodes self) (numNodes self) (numObservations self) initialProbability)
         self).

Definition setNode (nodeIndex : option Z) : M FiniteStateController unit :=
  modify (with_currentNode nodeIndex).

Definition reset : M FiniteStateController unit :=
  setNode None;;
  initActionNodeProbabilityTable;;
  initObservationNodeTransitionProbabilityTable.

(** The two shapes of arguments [updateProbabilitiesFromSamples] is written
    for: one sample (actions of rank 1, transitions of rank 2), or a batch
    whose last axis runs over the samples. *)
Inductive samples : Type :=
| OneSample (actions : list Z) (nodeObs : IntArray2)
| Batch (actions : IntArray2) (nodeObs : IntArray3).

Definition scale2 (f : Qc) (A : list (list Qc)) : list (list Qc) :=
  map (map (fun x => x * f)) A.
Definition scale3 (f : Qc) (T : list (list (list Qc))) : list (list (list Qc)) :=
  map (scale2 f) T.

Definition get2 (A : list (list Qc)) (i j : nat) : option Qc :=
  r ← A !! i; r !! j.
Definition set2 (A : list (list Qc)) (i j : nat) (v : Qc) : list (list Qc) :=
  alter (fun r => <[j := v]> r) i A.

(** The read half of [A[I, J] += c] for one pair of indices: the resolved
    position and the entry found there. *)
Definition read2 (A : list (list Qc)) (ij : Z * Z) : option (nat * nat * Qc) :=
  i ← py_index (length A) ij.1;
  r ← A !! i;
  j ← py_index (length r) ij.2;
  x ← r !! j;
  Some (i, j, x).

(** [A[I, J] += c] with index arrays [I] and [J]: the indexed entries are read
    and checked first, the sums are then written back one by one, so that an
    entry named twice is incremented once. *)
Definition fancy_iadd2 (A : list (list Qc)) (I J : list Z) (c : Qc)
    : option (list (list Qc)) :=
  pairs ← broadcast2 I J;
  reads ← mapM (read2 A) pairs;
  Some (foldl (fun acc (w : nat * nat * Qc) => set2 acc w.1.1 w.1.2 (w.2 + c)) A reads).

(** [T[s, d, o] += c] with [s] and [o] from [range] and [d] read from a sample. *)
Definition iadd3 (T : list (list (list Qc))) (s : nat) (d : Z) (o : nat) (c : Qc)
    : option (list (list (list Qc))) :=
  m ← T !! s;
  dn ← py_index (length m) d;
  r ← m !! dn;
  x ← r !! o;
  Some (<[s := <[dn := <[o := x + c]> r]> m]> T).

Definition updateProbabilitiesFromSamples (s : samples) (learningRate : Qc)
    : M FiniteStateController unit :=
  let len_actions :=
    match s with OneSample a _ => length a | Batch a _ => length (rows2 a) end in
  if decide (len_actions = 0%nat) then ret tt (* No samples, no update *)
  else
  let last_axes :=
    match s with
    | OneSample a n => (length a, cols2 n)
    | Batch a n => (cols2 a, dim3_2 n)
    end in
  if decide (last_axes.1 = last_axes.2) then
    prep ← match s with
           | OneSample a n => ret (1, 1%nat, expand_dims_1 a, expand_dims_2 n)
           | Batch a n =>
               w ← orRaise ZeroDivisionError (int_recip (cols2 a));
               ret (w, cols2 a, a, n)
           end;
    let '(weightPerSample, numSamples, actions, nodeObs) := prep in
    (* Reduce *)
    modify (fun self =>
      with_actionProbabilities (scale2 (1 - learningRate) (actionProbabilities self)) self);;
    modify (fun self =>
      with_nodeTransitionProbabilities
        (scale3 (1 - learningRate) (nodeTransitionProbabilities self)) self);;
    (* Add samples factored by weight *)
    forEach (seq 0 numSamples) (fun sample =>
      self ← get;
      col ← orRaise IndexError (column (rows2 actions) sample);
      A' ← orRaise IndexError
             (fancy_iadd2 (actionProbabilities self)
                (Z.of_nat <$> seq 0 (numNodes self)) col
                (learningRate * weightPerSample));
      put (with_actionProbabilities A' self);;
      forEach (seq 0 (length (planes3 nodeObs))) (fun observation =>
        forEach (seq 0 (dim3_1 nodeObs)) (fun startNode =>
          self ← get;
          d ← orRaise IndexError (at3 nodeObs observation startNode sample);
          T' ← orRaise IndexError
                 (iadd3 (nodeTransitionProbabilities self) startNode d observation
                    (learningRate * weightPerSample));
          put (with_nodeTransitionProbabilities T' self))))
  else raise AssertionError.

(** ** [GDICEParams] of [generalGDICE.py] *)

Record GDICEParams : Type := mkParams {
  numIterations : nat;
  numSamples : nat;
  numBestSamples : nat;
  learningRate : Qc;
  valueThreshold : option Qc
}.

(** The attributes [GDICEParams.__init__] assigns.  The counts are Python
    integers, of either sign; [GDICEParams] above is the object as the loops
    read it, with counts they can use as sizes and ranges. *)
Record GDICEParamsAttributes : Type := mkAttributes {
  attr_numIterations : Z;
  attr_numSamples : Z;
  attr_numBestSamples : Z;
  attr_learningRate : Qc;
  attr_valueThreshold : option Qc
}.

(** [GDICEParams.__init__]: the five arguments are stored as they come. *)
Definition GDICEParams_init (numIterations numSamples numBestSamples : Z)
    (learningRate : Qc) (valueThreshold : option Qc) : outcome GDICEParamsAttributes :=
  Returned (mkAttributes numIterations numSamples numBestSamples learningRate
              valueThreshold).

(** ** The environment and its batched wrapper [MultiActionPOMDP] *)

(** What the wrapper and the loop read of a [gym_pomdps.POMDP]: the sizes of
    its spaces, its tables and its random generator, whose state is a [G]. *)
Record POMDP (G : Type) : Type := mkPOMDP {
  action_space_n : nat;
  observation_space_n : nat;
  state_space_n : nat;
  start : option (list Qc);
  (** [T[s, a]]: distribution of the next state *)
  env_T : list (list (list Qc));
  (** [O[s, a, s']]: distribution of the observation *)
  env_O : list (list (list (list Qc)));
  (** [R[s, a, s', o]] *)
  env_R : list (list (list (list Qc)));
  (** [D[s, a]] *)
  env_D : list (list bool);
  episodic : bool;
  discount : option Qc;
  np_random : G
}.
Arguments mkPOMDP {G}.
Arguments action_space_n {G}.
Arguments observation_space_n {G}.
Arguments state_space_n {G}.
Arguments start {G}.
Arguments env_T {G}.
Arguments env_O {G}.
Arguments env_R {G}.
Arguments env_D {G}.
Arguments episodic {G}.
Arguments discount {G}.
Arguments np_random {G}.

Definition with_np_random {G} (g : G) (e : POMDP G) : POMDP G :=
  mkPOMDP (action_space_n e) (observation_space_n e) (state_space_n e) (start e)
          (env_T e) (env_O e) (env_R e) (env_D e) (episodic e) (discount e) g.

(** The wrapper object.  [state] is the attribute [reset] assigns; [states]
    is the attribute the batched [step] assigns ([None] while it has not been
    assigned).  [state] has [numTrajectories] entries: [reset] makes it so
    and nothing changes its length. *)
Record MultiActionPOMDP (G : Type) : Type := mkMulti {
  env : POMDP G;
  numTrajectories : nat;
  state : list Z;
  states : option (list Z)
}.
Arguments mkMulti {G}.
Arguments env {G}.
Arguments numTrajectories {G}.
Arguments state {G}.
Arguments states {G}.

(** The argument of [step]: a scalar, a pair [(action, index)] or an array. *)
Inductive step_arg : Type :=
| Scalar (a : Z)
| Pair (a index : Z)
| Actions (a : list Z).

Inductive step_result : Type :=
| Batched (obs : list Z) (rewards : list Qc) (done : list bool)
| Single (obs : Z) (reward : Qc) (done : bool).

(** [base[idxs] = vals] for index and value arrays of one length, and
    [base[idxs] = v]. *)
Definition scatter {A} (base : list A) (idxs : list nat) (vals : list A) : list A :=
  foldl (fun acc (iv : nat * A) => <[iv.1 := iv.2]> acc) base (zip idxs vals).
Definition scatter_const {A} (base : list A) (idxs : list nat) (v : A) : list A :=
  foldl (fun acc i => <[i := v]> acc) base idxs.

(** [np.nonzero(p(a))[0]] *)
Definition nonzero {A} (p : A -> bool) (a : list A) : list nat :=
  (fun iv : nat * A => iv.1) <$> filter (fun iv : nat * A => p iv.2 = true) (imap pair a).

Section Wrapper.
Context {G : Type}.
  (** [np_random.multinomial(1, p).argmax()] and one draw of
      [np_random.randint(n)] *)
Variable multinomial_argmax : list Qc -> G -> nat * G.
Variable randint : nat -> G -> nat * G.

Definition with_env (e : POMDP G) (w : MultiActionPOMDP G) : MultiActionPOMDP G :=
    mkMulti e (numTrajectories w) (state w) (states w).
Definition with_state (s : list Z) (w : MultiActionPOMDP G) : MultiActionPOMDP G :=
    mkMulti (env w) (numTrajectories w) s (states w).
Definition with_states (s : list Z) (w : MultiActionPOMDP G) : MultiActionPOMDP G :=
    mkMulti (env w) (numTrajectories w) (state w) (Some s).

Definition draw (p : list Qc) : M (MultiActionPOMDP G) Z :=
    fun self =>
      let '(n, g) := multinomial_argmax p (np_random (env self)) in
      (Returned (Z.of_nat n), with_env (with_np_random g (env self)) self).

Definition draw_randint (n : nat) : M (MultiActionPOMDP G) Z :=
    fun self =>
      let '(k, g) := randint n (np_random (env self)) in
      (Returned (Z.of_nat k), with_env (with_np_random g (env self)) self).

Definition MultiActionPOMDP_reset : M (MultiActionPOMDP G) unit :=
    self ← get;
    s ← match start (env self) with
        | None =>
            forM (seq 0 (numTrajectories self))
                 (fun _ => draw_randint (state_space_n (env self)))
        | Some p => forM (seq 0 (numTrajectories self)) (fun _ => draw p)
        end;
    modify (with_state s).

  (** [MultiActionPOMDP(env, numTrajectories)] *)
Definition MultiActionPOMDP_init (e : POMDP G) (numTrajectories : nat)
      : outcome unit * MultiActionPOMDP G :=
    MultiActionPOMDP_reset (mkMulti e numTrajectories [] None).

Definition T_at (e : POMDP G) (s a : Z) : option (list Qc) :=
    x ← nth_py (env_T e) s; nth_py x a.
Definition O_at (e : POMDP G) (s a s' : Z) : option (list Qc) :=
    x ← nth_py (env_O e) s; y ← nth_py x a; nth_py y s'.
Definition R_at (e : POMDP G) (s a s' o : Z) : option Qc :=
    x ← nth_py (env_R e) s; y ← nth_py x a; z ← nth_py y s'; nth_py z o.
Definition D_at (e : POMDP G) (s a : Z) : option bool :=
    x ← nth_py (env_D e) s; nth_py x a.

  (** [_stepForSingleWorker] *)
Definition stepForSingleWorker (action index : Z)
      : M (MultiActionPOMDP G) (Z * Qc * bool) :=
    self ← get;
    currState ← orRaise IndexError (nth_py (state self) index);
    p ← orRaise IndexError (T_at (env self) currState action);
    newState ← draw p;
    q ← orRaise IndexError (O_at (env self) currState action newState);
    obs ← draw q;
    reward ← orRaise IndexError (R_at (env self) currState action newState obs);
    done ← (if episodic (env self)
            then orRaise IndexError (D_at (env self) currState action)
            else ret false);
    i ← orRaise IndexError (py_index (length (state self)) index);
    modify (fun self : MultiActionPOMDP G =>
      with_state (<[i := if (done : bool) then (-1)%Z else newState]> (state self)) self);;
    ret (obs, reward, done).

  (** The body of [step] for an array of actions. *)
Definition stepActions (actions : list Z)
      : M (MultiActionPOMDP G) (list Z * list Qc * list bool) :=
    self ← get;
    (* For each agent that is done, return nothing *)
    let doneIndices := nonzero (fun s => bool_decide (s = (-1)%Z)) (state self) in
    let notDoneIndices := nonzero (fun s => bool_decide (s ≠ (-1)%Z)) (state self) in
    (* Blank init *)
    let newStates := replicate (numTrajectories self) 0%Z in
    let obs := replicate (numTrajectories self) 0%Z in
    let rewards := replicate (numTrajectories self) (0 : Qc) in
    let done := replicate (numTrajectories self) true in
    (* Reduced list based on which workers are done *)
    validStates ← orRaise IndexError (mapM (fun i => state self !! i) notDoneIndices);
    validActions ← orRaise IndexError (mapM (fun i => actions !! i) notDoneIndices);
    ps ← orRaise IndexError
           (mapM (fun sa : Z * Z => T_at (env self) sa.1 sa.2) (zip validStates validActions));
    validNewStates ← forM ps draw;
    (* an empty [np.array([])] is an array of floats and is refused as an index *)
    (if decide (validNewStates = []) then raise IndexError else ret tt);;
    qs ← orRaise IndexError
           (mapM (fun x : Z * Z * Z => O_at (env self) x.1.1 x.1.2 x.2)
                 (zip (zip validStates validActions) validNewStates));
    validObs ← forM qs draw;
    validRewards ← orRaise IndexError
           (mapM (fun x : Z * Z * Z * Z => R_at (env self) x.1.1.1 x.1.1.2 x.1.2 x.2)
                 (zip (zip (zip validStates validActions) validNewStates) validObs));
    done ← (if episodic (env self) then
              sa ← orRaise IndexError (broadcast2 (state self) actions);
              ds ← orRaise IndexError (mapM (fun x : Z * Z => D_at (env self) x.1 x.2) sa);
              if decide (length ds = length notDoneIndices)
              then ret (scatter done notDoneIndices ds)
              else match ds with
                   | [d] => ret (scatter_const done notDoneIndices d)
                   | _ => raise ValueError
                   end
            else ret ((fun _ => false) <$> done));
    let newStates :=
      scatter_const (scatter newStates notDoneIndices validNewStates) doneIndices (-1)%Z in
    let obs := scatter_const (scatter obs notDoneIndices validObs) doneIndices (-1)%Z in
    let rewards :=
      scatter_const (scatter rewards notDoneIndices validRewards) doneIndices 0 in
    modify (with_states newStates);;
    ret (obs, rewards, done).

Definition step (actions : step_arg) : M (MultiActionPOMDP G) step_result :=
    match actions with
    | Pair a index =>
        r ← stepForSingleWorker a index; ret (Single r.1.1 r.1.2 r.2)
    | Scalar a =>
        (* Scalar action given, apply to all *)
        self ← get;
        r ← stepActions (replicate (numTrajectories self) a);
        ret (Batched r.1.1 r.1.2 r.2)
    | Actions a =>
        r ← stepActions a; ret (Batched r.1.1 r.1.2 r.2)
    end.
End Wrapper.

(** ** The evaluators of [Algorithms.py] *)

(** [values += r] on arrays: [r] has the length of [values] or length 1. *)
Definition iadd_array (values r : list Qc) : option (list Qc) :=
  if decide (length r = length values) then Some (zip_with Qcplus values r)
  else match r with
       | [x] => Some ((fun v => v + x) <$> values)
       | _ => None
       end.

(** [a[I, J]] and [a[I, J, K]] for index arrays *)
Definition fancy_get2 (a : list (list Z)) (I J : list Z) : option (list Z) :=
  ij ← broadcast2 I J;
  mapM (fun x : Z * Z => r ← nth_py a x.1; nth_py r x.2) ij.
Definition fancy_get3 (a : list (list (list Z))) (I J K : list Z) : option (list Z) :=
  ij ← broadcast2 I J;
  ijk ← broadcast2 ij K;
  mapM (fun x : Z * Z * Z => p ← nth_py a x.1.1; r ← nth_py p x.1.2; nth_py r x.2) ijk.

Section SingleEnvironment.
  (** The single-trajectory environment: [discount], [reset] and [step],
      which answers an action with [(obs, reward, isDone)]. *)
Context {Env : Type}.
Variable env_discount : Env -> option Qc.
Variable env_reset : M Env unit.
Variable env_step : Z -> M Env (Z * Qc * bool).
  (** [ndarray.mean] and [ndarray.std] *)
Variables np_mean np_std : list Qc -> Qc.

  (** [while not isDone and currentTimestep < timeHorizon]; [remaining] is
      [timeHorizon - currentTimestep]. *)
Fixpoint sampleLoop (remaining : nat) (gamma : Qc)
      (actionTransitions : list Z) (nodeObservationTransitions : list (list Z))
      (currentNodeIndex : Z) (currentTimestep : nat) (isDone : bool) (value : Qc)
      : M Env Qc :=
    if isDone then ret value
    else match remaining with
         | O => ret value
         | S remaining' =>
             a ← orRaise IndexError (nth_py actionTransitions currentNodeIndex);
             r ← env_step a;
             let '(obs, reward, isDone') := r in
             node' ← orRaise IndexError
                       (row ← nth_py nodeObservationTransitions obs;
                        nth_py row currentNodeIndex);
             sampleLoop remaining' gamma actionTransitions nodeObservationTransitions
               node' (S currentTimestep) isDone'
               (value + reward * gamma ^ currentTimestep)
         end.

Definition evaluateSample (timeHorizon numSimulations : nat)
      (actionTransitions : list Z) (nodeObservationTransitions : list (list Z))
      : M Env (Qc * Qc) :=
    env ← get;
    let gamma := default 1 (env_discount env) in
    let values := replicate numSimulations (0 : Qc) in
    sims ← iter_int numSimulations;
    values ← foldM sims (fun sim values =>
      env_reset;;
      value ← sampleLoop timeHorizon gamma actionTransitions
                nodeObservationTransitions 0%Z 0%nat false 0;
      i ← orRaise IndexError (py_index (length values) (Z.of_nat sim));
      ret (<[i := value]> values)) values;
    ret (np_mean values, np_std values).
End SingleEnvironment.

Section BatchedEnvironment.
Context {G : Type}.
Variable multinomial_argmax : list Qc -> G -> nat * G.
Variable randint : nat -> G -> nat * G.
Variables np_mean np_std : list Qc -> Qc.

  (** [while not all(isDones) and currentTimestep < timeHorizon] *)
Fixpoint batchLoop (remaining : nat) (gamma : Qc)
      (actionTransitions : IntArray2) (nodeObservationTransitions : IntArray3)
      (sampleIndices currentNodes : list Z) (currentTimestep : nat)
      (values : list Qc) (isDones : list bool)
      : M (MultiActionPOMDP G) (list Qc) :=
    if forallb id isDones then ret values
    else match remaining with
         | O => ret values
         | S remaining' =>
             acts ← orRaise IndexError
                      (fancy_get2 (rows2 actionTransitions) currentNodes sampleIndices);
             r ← stepActions multinomial_argmax acts;
             let '(obs, rewards, isDones') := r in
             currentNodes' ← orRaise IndexError
                      (fancy_get3 (planes3 nodeObservationTransitions)
                         obs currentNodes sampleIndices);
             values' ← orRaise ValueError
                      (iadd_array values
                         ((fun x => x * gamma ^ currentTimestep) <$> rewards));
             batchLoop remaining' gamma actionTransitions nodeObservationTransitions
               sampleIndices currentNodes' (S currentTimestep) values' isDones'
         end.

  (** One repeat: the body of [for sim in range(numSimulations)] up to the
      row it stores. *)
Definition batchRollout (timeHorizon : nat) (gamma : Qc)
      (actionTransitions : IntArray2) (nodeObservationTransitions : IntArray3)
      : M (MultiActionPOMDP G) (list Qc) :=
    let numSamples := cols2 actionTransitions in
    let sampleIndices := Z.of_nat <$> seq 0 numSamples in
    MultiActionPOMDP_reset multinomial_argmax randint;;
    batchLoop timeHorizon gamma actionTransitions nodeObservationTransitions
      sampleIndices (replicate numSamples 0%Z) 0
      (replicate numSamples (0 : Qc)) (replicate numSamples false).

  (** [evaluateSamplesMultiEnv]; the rows of [allSampleValues] are all
      assigned by the loop, in order. *)
Definition evaluateSamplesMultiEnv (timeHorizon numSimulations : nat)
      (actionTransitions : IntArray2) (nodeObservationTransitions : IntArray3)
      : M (MultiActionPOMDP G) (list Qc * list Qc) :=
    self ← get;
    let gamma := default 1 (discount (env self)) in
    let numSamples := cols2 actionTransitions in
    allSampleValues ← forM (seq 0 numSimulations) (fun sim =>
      batchRollout timeHorizon gamma actionTransitions nodeObservationTransitions);
    let axis0 (f : list Qc -> Qc) :=
      (fun j => f ((fun row : list Qc => default 0 (row !! j)) <$> allSampleValues))
        <$> seq 0 numSamples in
    ret (axis0 np_mean, axis0 np_std).
End BatchedEnvironment.

(** ** [runGDICEOnEnvironment] *)

(** A float of the loop: a number or [np.NINF]. *)
Inductive fval : Type :=
| NInf
| Fin (q : Qc).

Definition Qc_ltb (x y : Qc) : bool :=
  match x ?= y with Lt => true | _ => false end.
Definition fval_ltb (a b : fval) : bool :=
  match a, b with
  | _, NInf => false
  | NInf, Fin _ => true
  | Fin x, Fin y => Qc_ltb x y
  end.
Definition fval_geb (a b : fval) : bool := negb (fval_ltb a b).
Definition fval_add (a : fval) (t : Qc) : fval :=
  match a with NInf => NInf | Fin x => Fin (x + t) end.

(** What the caller may pass as [parallel], and the classes the test of the
    loop tells apart.  The name [Pool] that [Algorithms.py] imports from
    [multiprocessing] is a bound method of the default context, so
    [type(Pool)] is the class of bound methods; a pool object is an instance
    of [multiprocessing.pool.Pool]. *)
Inductive parallel_arg : Type :=
| ParNone
| ParPool
| ParMethod
| ParOther.
Inductive pyclass : Type :=
| ClassNoneType
| ClassPool
| ClassMethod
| ClassOther.
Global Instance pyclass_eq_dec : EqDecision pyclass.
Proof. solve_decision. Defined.

Definition class_of (p : parallel_arg) : pyclass :=
  match p with
  | ParNone => ClassNoneType
  | ParPool => ClassPool
  | ParMethod => ClassMethod
  | ParOther => ClassOther
  end.
Definition type_of_Pool : pyclass := ClassMethod.
Definition isinstance (p : parallel_arg) (c : pyclass) : bool :=
  bool_decide (class_of p = c).
Definition is_not_None (p : parallel_arg) : bool :=
  match p with ParNone => false | _ => true end.

(** The two evaluation strategies *)
Inductive strategy : Type :=
| PerSampleProcesses
| VectorizedBatch.

(** The test of line 48 *)
Definition chooseStrategy (parallel : parallel_arg) : strategy :=
  if is_not_None parallel && isinstance parallel type_of_Pool
  then PerSampleProcesses else VectorizedBatch.

(** Modelled from the spec: the parameter record the loop reads is the one of
    [GDICE_Python.Parameters], which is not among the sources; it is taken as
    the record of [generalGDICE.py] with the two further fields of the spec's
    data model that the loop reads. *)
Record RunParams : Type := mkRunParams {
  gdice : GDICEParams;
  numSimulationsPerSample : nat;
  timeHorizon : nat
}.

(** The local variables of the loop that outlive an iteration. *)
Record RunState : Type := mkRun {
  bestActionProbs : option (list Z);
  bestNodeTransitionProbs : option (list (list Z));
  bestValue : fval;
  (** [None] is the [nan] the two histories are filled with *)
  bestValueAtEachIteration : list (option fval);
  bestStdDevAtEachIteration : list (option Qc);
  bestValueVariance : Qc;
  worstValueOfPreviousIteration : fval;
  allValues : list (list Qc);
  allStdDev : list (list Qc);
  estimatedConvergenceIteration : nat
}.

(** [values.argsort()[-n:]] takes the slice; [-0] is [0]. *)
Definition slice_last {A} (n : nat) (l : list A) : list A :=
  if decide (n = 0%nat) then l else drop (length l - n) l.

(** [a[idx]] for an array of indices that are not negative *)
Definition select {A} (a : list A) (idx : list nat) : option (list A) :=
  mapM (fun i => a !! i) idx.

(** [a[:, idx]] and [a[:, :, idx]] *)
Definition select_columns2 (a : IntArray2) (idx : list nat) : option IntArray2 :=
  rows ← mapM (fun r => select r idx) (rows2 a);
  Some (mkArray2 (length idx) rows).
Definition select_columns3 (a : IntArray3) (idx : list nat) : option IntArray3 :=
  planes ← mapM (mapM (fun r => select r idx)) (planes3 a);
  Some (mkArray3 (dim3_1 a) (length idx) planes).

(** [A[i, :] = v] *)
Definition assign_row (A : list (list Qc)) (i : nat) (v : list Qc)
    : option (outcome (list (list Qc))) :=
  row ← A !! i;
  Some (if decide (length v = length row) then Returned (<[i := v]> A)
        else match v with
             | [x] => Returned (<[i := replicate (length row) x]> A)
             | _ => Raised ValueError
             end).

(** Lines 89 to 96: the flag says whether the loop breaks, the number is the
    new [estimatedConvergenceIteration]. *)
Definition convergenceCheck (convergenceThreshold : Qc) (controllerChange : bool)
    (iterBestValue bestValue : fval) (iteration marker : nat) : bool * nat :=
  if fval_ltb iterBestValue (fval_add bestValue convergenceThreshold)
  then (false, marker)
  else (bool_decide (convergenceThreshold ≠ 0) && controllerChange, iteration).

(** A computation on a part of the state *)
Definition zoom {S T A} (proj : S -> T) (inj : T -> S -> S) (m : M T A) : M S A :=
  fun s => let '(r, t) := m (proj s) in (r, inj t s).

Section Loop.
Context {G Gn : Type}.
Variable multinomial_argmax : list Qc -> G -> nat * G.
Variable randint : nat -> G -> nat * G.
Variables np_mean np_std : list Qc -> Qc.
  (** [npr.choice(np.arange(a), size=n, p=p)] on the global generator *)
Variable npr_choice : nat -> nat -> list Qc -> M Gn (list Z).
  (** [ndarray.argsort] *)
Variable argsort : list Qc -> list nat.

  (** What the run works on: the controller, the environment, the global
      generator of [numpy.random] and what the checkpoint hook was given. *)
Record World : Type := mkWorld {
    controller : FiniteStateController;
    environment : POMDP G;
    npr : Gn;
    saved : list (nat * RunState)
  }.
Definition with_controller (c : FiniteStateController) (w : World) : World :=
    mkWorld c (environment w) (npr w) (saved w).
Definition with_environment (e : POMDP G) (w : World) : World :=
    mkWorld (controller w) e (npr w) (saved w).
Definition with_npr (g : Gn) (w : World) : World :=
    mkWorld (controller w) (environment w) g (saved w).
Definition with_saved (l : list (nat * RunState)) (w : World) : World :=
    mkWorld (controller w) (environment w) (npr w) l.

Definition sampleActionFromAllNodes (self : FiniteStateController) (numSamples : nat)
      : M Gn IntArray2 :=
    rows ← forM (seq 0 (numNodes self)) (fun nodeIndex =>
      p ← orRaise IndexError (actionProbabilities self !! nodeIndex);
      npr_choice (numActions self) numSamples p);
    ret (mkArray2 numSamples rows).

Definition sampleObservationTransitionFromAllNodes (self : FiniteStateController)
      (observationIndex numSamples : nat) : M Gn (list (list Z)) :=
    forM (seq 0 (numNodes self)) (fun nodeIndex =>
      p ← orRaise IndexError
            (m ← nodeTransitionProbabilities self !! nodeIndex;
             mapM (fun r : list Qc => r !! observationIndex) m);
      npr_choice (numNodes self) numSamples p).

Definition sampleAllObservationTransitionsFromAllNodes (self : FiniteStateController)
      (numSamples : nat) : M Gn IntArray3 :=
    planes ← forM (seq 0 (numObservations self)) (fun obsIndex =>
      sampleObservationTransitionFromAllNodes self obsIndex numSamples);
    ret (mkArray3 (numNodes self) numSamples planes).

  (** Line 52: the wrapper is built on the environment of the run, whose
      generator it advances. *)
Definition evaluateVectorized (params : RunParams)
      (sampledActions : IntArray2) (sampledNodes : IntArray3)
      : M World (list Qc * list Qc) :=
    zoom (fun w => mkMulti (environment w) (numSamples (gdice params)) [] None)
         (fun m w => with_environment (env m) w)
         (MultiActionPOMDP_reset multinomial_argmax randint;;
          evaluateSamplesMultiEnv multinomial_argmax randint np_mean np_std
            (timeHorizon params) (numSimulationsPerSample params)
            sampledActions sampledNodes).

  (** Lines 49 and 50.  Only a bound method reaches them, and a bound method
      has no attribute [starmap]. *)
Definition evaluatePerSample (params : RunParams)
      (sampledActions : IntArray2) (sampledNodes : IntArray3)
      : M World (list Qc * list Qc) :=
    raise AttributeError.

Definition iterationBody (params : RunParams) (parallel : parallel_arg)
      (convergenceThreshold : Qc) (saveFrequency : nat)
      (iteration : nat) (st : RunState) : M World (bool * RunState) :=
    let p := gdice params in
    let controllerChange := false in
    let iterBestValue := NInf in
    w ← get;
    sampledActions ← zoom npr with_npr
                       (sampleActionFromAllNodes (controller w) (numSamples p));
    sampledNodes ← zoom npr with_npr
                     (sampleAllObservationTransitionsFromAllNodes (controller w) (numSamples p));
    vs ← match chooseStrategy parallel with
         | PerSampleProcesses => evaluatePerSample params sampledActions sampledNodes
         | VectorizedBatch => evaluateVectorized params sampledActions sampledNodes
         end;
    let '(values, stdDev) := vs in
    (* Save values *)
    allValues' ← (r ← orRaise IndexError (assign_row (allValues st) iteration values);
                  match r with Returned a => ret a | Raised e => raise e end);
    allStdDev' ← (r ← orRaise IndexError (assign_row (allStdDev st) iteration stdDev);
                  match r with Returned a => ret a | Raised e => raise e end);
    (* Find N_b best policies *)
    let bestSampleIndices := slice_last (numBestSamples p) (argsort values) in
    bestValues ← orRaise IndexError (select values bestSampleIndices);
    sortedStdDev ← orRaise IndexError (select stdDev bestSampleIndices);
    (* Save best policy (if better than overall previous) *)
    top ← orRaise IndexError (nth_py bestValues (-1));
    best ← (if fval_ltb (bestValue st) (Fin top) then
              sd ← orRaise IndexError (nth_py sortedStdDev (-1));
              j ← orRaise IndexError (nth_py bestSampleIndices (-1));
              a ← orRaise IndexError (column (rows2 sampledActions) j);
              n ← orRaise IndexError
                    (mapM (fun pl => column pl j) (planes3 sampledNodes));
              ret (true, Fin top, sd, Some a, Some n)
            else
              ret (controllerChange, bestValue st, bestValueVariance st,
                   bestActionProbs st, bestNodeTransitionProbs st));
    let '(controllerChange, bestValue', bestValueVariance', bestActionProbs',
          bestNodeTransitionProbs') := best in
    (* Throw away policies below value threshold (worst best value of previous iteration) *)
    let keepIndices :=
      nonzero (fun v => fval_geb (Fin v) (worstValueOfPreviousIteration st)) bestValues in
    bestValues ← orRaise IndexError (select bestValues keepIndices);
    bestSampleIndices ← orRaise IndexError (select bestSampleIndices keepIndices);
    (* If we're using a value threshold, also throw away iterations below that *)
    kept ← match valueThreshold p with
           | Some t =>
               let keepIndices := nonzero (fun v => negb (Qc_ltb v t)) bestValues in
               bestValues ← orRaise IndexError (select bestValues keepIndices);
               bestSampleIndices ← orRaise IndexError (select bestSampleIndices keepIndices);
               ret (bestValues, bestSampleIndices)
           | None => ret (bestValues, bestSampleIndices)
           end;
    let '(bestValues, bestSampleIndices) := kept in
    (* For each node, update using best samples *)
    eliteActions ← orRaise IndexError (select_columns2 sampledActions bestSampleIndices);
    eliteNodes ← orRaise IndexError (select_columns3 sampledNodes bestSampleIndices);
    zoom controller with_controller
      (updateProbabilitiesFromSamples (Batch eliteActions eliteNodes) (learningRate p));;
    hv ← orRaise IndexError
           (_ ← bestValueAtEachIteration st !! iteration;
            Some (<[iteration := Some bestValue']> (bestValueAtEachIteration st)));
    hs ← orRaise IndexError
           (_ ← bestStdDevAtEachIteration st !! iteration;
            Some (<[iteration := Some bestValueVariance']> (bestStdDevAtEachIteration st)));
    (* If the value stops improving, maybe we've converged? *)
    let '(break, marker) :=
      convergenceCheck convergenceThreshold controllerChange iterBestValue bestValue'
        iteration (estimatedConvergenceIteration st) in
    let st' := mkRun bestActionProbs' bestNodeTransitionProbs' bestValue' hv hs
                 bestValueVariance' (worstValueOfPreviousIteration st)
                 allValues' allStdDev' marker in
    if break then ret (true, st')
    else
      (* Save occasionally so we don't lose everything in a crash *)
      (if bool_decide (saveFrequency ≠ 0%nat)
          && bool_decide (iteration `mod` saveFrequency = 0)%nat
       then modify (fun w => with_saved (saved w ++ [(iteration, st')]) w)
       else ret tt);;
      ret (false, st').

Definition initialRunState (p : GDICEParams) : RunState :=
    mkRun None None NInf
          (replicate (numIterations p) None) (replicate (numIterations p) None)
          0 NInf
          (replicate (numIterations p) (replicate (numSamples p) 0))
          (replicate (numIterations p) (replicate (numSamples p) 0))
          0.

Definition runGDICEOnEnvironment (params : RunParams) (parallel : parallel_arg)
      (convergenceThreshold : Qc) (saveFrequency : nat) : M World RunState :=
    w ← get;
    (* Ensure controller matches environment *)
    if decide (action_space_n (environment w) = numActions (controller w)) then
      if decide (observation_space_n (environment w) = numObservations (controller w)) then
        (* Reset controller *)
        zoom controller with_controller reset;;
        forBreak (seq 0 (numIterations (gdice params)))
          (iterationBody params parallel convergenceThreshold saveFrequency)
          (initialRunState (gdice params))
      else raise AssertionError
    else raise AssertionError.
End Loop.

(** ** Instances of the library functions for closed runs *)

Fixpoint qsum (l : list Qc) : Qc :=
  match l with
  | [] => 0
  | x :: l' => x + qsum l'
  end.

(** The mean of an array that is not empty *)
Definition mean (l : list Qc) : Qc := qsum l / Qc_of_nat (length l).

(** The standard deviation of an array with one element *)
Definition std_of_one (l : list Qc) : Qc := 0.

(** A generator that answers its draws from a script *)
Definition scripted_draw (p : list Qc) (g : list nat) : nat * list nat :=
  (hd 0%nat g, tl g).
Definition scripted_randint (n : nat) (g : list nat) : nat * list nat :=
  (hd 0%nat g, tl g).
Definition scripted_choice (a n : nat) (p : list Qc) : M (list (list Z)) (list Z) :=
  fun g => (Returned (hd (replicate n 0%Z) g), tl g).

(** A stable argsort by insertion *)
Fixpoint insert_sorted (values : list Qc) (i : nat) (sorted : list nat) : list nat :=
  match sorted with
  | [] => [i]
  | j :: rest =>
      if Qc_ltb (default 0 (values !! i)) (default 0 (values !! j))
      then i :: j :: rest
      else j :: insert_sorted values i rest
  end.
Definition stable_argsort (values : list Qc) : list nat :=
  foldl (fun sorted i => insert_sorted values i sorted) [] (seq 0 (length values)).

(** ** Closed inputs *)

Definition q (a : Z) (b : positive) : Qc := Q2Qc (a # b).

(** A controller with one node, two actions and one observation, and two
    samples of it that survive no filter. *)
Definition c_one_node : FiniteStateController :=
  mkFSC 1 2 1 None [[q 1 2; q 1 2]] [[[1]]].
Definition no_elite_actions : IntArray2 := mkArray2 0 [[]].
Definition no_elite_nodes : IntArray3 := mkArray3 1 0 [[[]]].

(** ** The tables entry by entry *)

Definition get3 (T : list (list (list Qc))) (s d o : nat) : option Qc :=
  m ← T !! s; r ← m !! d; r !! o.

Definition shape2 (A : list (list Qc)) : list nat := length <$> A.
Definition shape3 (T : list (list (list Qc))) : list (list nat) := shape2 <$> T.

(** The mass the samples of [row] put on the value [a], [c] for each sample
    that took it. *)
Fixpoint tally (c : Qc) (a : Z) (row : list Z) : Qc :=
  match row with
  | [] => 0
  | x :: row' => (if decide (x = a) then c else 0) + tally c a row'
  end.

(** The tables have the sizes the controller states. *)
Record wf_controller (c : FiniteStateController) : Prop := {
  wf_action_rows : length (actionProbabilities c) = numNodes c;
  wf_action_cols :
    Forall (fun r => length r = numActions c) (actionProbabilities c);
  wf_transition_starts : length (nodeTransitionProbabilities c) = numNodes c;
  wf_transition_rest :
    Forall (fun m => length m = numNodes c /\
                     Forall (fun r => length r = numObservations c) m)
           (nodeTransitionProbabilities c)
}.

(** A batch of [k] samples of the controller [c]: [actions] is
    [numNodes * k] with entries that are actions, [nodeObs] is
    [numObservations * numNodes * k] with entries that are nodes. *)
Record wf_batch (c : FiniteStateController) (k : nat)
    (actions : IntArray2) (nodeObs : IntArray3) : Prop := {
  batch_cols : cols2 actions = k;
  batch_rows : length (rows2 actions) = numNodes c;
  batch_actions :
    Forall (fun r => length r = k /\
                     Forall (fun a => (0 ≤ a < Z.of_nat (numActions c))%Z) r)
           (rows2 actions);
  batch_dim1 : dim3_1 nodeObs = numNodes c;
  batch_dim2 : dim3_2 nodeObs = k;
  batch_planes : length (planes3 nodeObs) = numObservations c;
  batch_nodes :
    Forall (fun p => length p = numNodes c /\
              Forall (fun r => length r = k /\
                        Forall (fun d => (0 ≤ d < Z.of_nat (numNodes c))%Z) r) p)
           (planes3 nodeObs)
}.

(** The innermost statement of [updateProbabilitiesFromSamples], line 100,
    for the sample [sample] and the increment [w]. *)
Definition bump (nodeObs : IntArray3) (sample : nat) (w : Qc)
    (observation startNode : nat) : M FiniteStateController unit :=
  self ← get;
  d ← orRaise IndexError (at3 nodeObs observation startNode sample);
  T' ← orRaise IndexError
         (iadd3 (nodeTransitionProbabilities self) startNode d observation w);
  put (with_nodeTransitionProbabilities T' self).

(** The samples of a pass name nodes that the table [T] has, and there are
    no samples beyond the start nodes of the batch. *)
Definition pass_ready (nodeObs : IntArray3) (sample : nat)
    (T : list (list (list Qc))) : Prop :=
  (forall o s, (o < length (planes3 nodeObs))%nat -> (s < dim3_1 nodeObs)%nat ->
     exists v, at3 nodeObs o s sample = Some v /\ (0 ≤ v)%Z /\
               is_Some (get3 T s (Z.to_nat v) o)) /\
  (forall o s, (dim3_1 nodeObs ≤ s)%nat -> at3 nodeObs o s sample = None).

(** What a pass has added at [(s, d, o)] once the pairs [visited] are done. *)
Definition added (nodeObs : IntArray3) (sample : nat) (w : Qc)
    (visited : nat -> nat -> bool) (s d o : nat) : Qc :=
  if visited o s && bool_decide (at3 nodeObs o s sample = Some (Z.of_nat d))
  then w else 0.

Definition pass_state (nodeObs : IntArray3) (sample : nat) (w : Qc)
    (T0 T : list (list (list Qc))) (visited : nat -> nat -> bool) : Prop :=
  shape3 T = shape3 T0 /\
  forall s d o,
    get3 T s d o = (fun y => y + added nodeObs sample w visited s d o) <$> get3 T0 s d o.

(** ** Probability tables *)

Definition is_distribution (p : list Qc) : Prop :=
  qsum p = 1 /\ Forall (fun x => 0 ≤ x) p.

(** [T[s, :, o]] *)
Definition slice (T : list (list (list Qc))) (s o : nat) : option (list Qc) :=
  m ← T !! s; mapM (fun r : list Qc => r !! o) m.

(** Every row of the action table and every slice of the transition table
    over the destinations is a distribution. *)
Record stochastic (c : FiniteStateController) : Prop := {
  action_rows_stochastic : Forall is_distribution (actionProbabilities c);
  transition_slices_stochastic :
    forall s o, (s < numNodes c)%nat -> (o < numObservations c)%nat ->
      exists p, slice (nodeTransitionProbabilities c) s o = Some p /\ is_distribution p
}.

(** A controller with two nodes, two actions and one observation, uniform,
    and a batch of two elite samples of it. *)
Definition c_two_nodes : FiniteStateController :=
  mkFSC 2 2 1 None [[q 1 2; q 1 2]; [q 1 2; q 1 2]]
        [[[q 1 2]; [q 1 2]]; [[q 1 2]; [q 1 2]]].
Definition two_elite_actions : IntArray2 := mkArray2 2 [[0; 1]; [1; 1]]%Z.
Definition two_elite_nodes : IntArray3 := mkArray3 2 2 [[[0; 0]; [1; 0]]]%Z.

(** A computation on the wrapper that leaves the attribute [state] as it
    finds it, whatever it returns or raises. *)
Definition keeps_state {G A} (m : M (MultiActionPOMDP G) A) : Prop :=
  forall w, state (m w).2 = state w.

(** A computation on the wrapper that, when it returns, has assigned the
    attribute [states]. *)
Definition assigns_states {G A} (m : M (MultiActionPOMDP G) A) : Prop :=
  forall w, match m w with
            | (Returned _, w') => is_Some (states w')
            | (Raised _, _) => True
            end.

(** An episodic environment with two states, one action and one observation:
    the state never changes, every step pays 1, and the episode is over
    after a step taken in state 0.  Its generator is a script of draws. *)
Definition env_two_states (script : list nat) : POMDP (list nat) :=
  mkPOMDP 1 1 2 (Some [q 1 2; q 1 2])
    [[[1; 0]]; [[0; 1]]]
    [[[[1]; [1]]]; [[[1]; [1]]]]
    [[[[1]; [1]]]; [[[1]; [1]]]]
    [[true]; [false]]
    true None script.

(** Two samples of a controller with one node: both take action 0 and stay
    in node 0. *)
Definition two_policies_actions : IntArray2 := mkArray2 2 [[0; 0]]%Z.
Definition two_policies_nodes : IntArray3 := mkArray3 1 2 [[[0; 0]]]%Z.

(** The wrapper for two trajectories, after [reset] has drawn the states 0
    and 1, and with the draws of two steps to come: next states 0 and 1 and
    observations 0 and 0, twice. *)
Definition wrapper_two_trajectories : MultiActionPOMDP (list nat) :=
  mkMulti (env_two_states [0; 1; 0; 0; 0; 1; 0; 0]%nat) 2 [0; 1]%Z None.

(** The wrapper before [reset], with the draws of [reset] in front. *)
Definition wrapper_before_reset : MultiActionPOMDP (list nat) :=
  mkMulti (env_two_states [0; 1; 0; 1; 0; 0; 0; 1; 0; 0]%nat) 2 [] None.

(** An environment with one state, two actions and one observation that
    never ends and pays the number of the action taken. *)
Definition env_pays_action : POMDP (list nat) :=
  mkPOMDP 2 1 1 (Some [1])
    [[[1]; [1]]]
    [[[[1]]; [[1]]]]
    [[[[0]]; [[1]]]]
    [] false None [].

(** A controller with one node for it, before [reset] fills its tables. *)
Definition controller_one_node : FiniteStateController := mkFSC 1 2 1 None [] [].

(** The world of a run: the script of [numpy.random] gives, iteration by
    iteration, the actions of the samples and then their transitions. *)
Definition world (script : list (list Z)) : World :=
  mkWorld controller_one_node env_pays_action script [].

Definition run_closed (params : RunParams) (convergenceThreshold : Qc)
    (script : list (list Z)) : outcome RunState * World :=
  runGDICEOnEnvironment scripted_draw scripted_randint mean std_of_one
    scripted_choice stable_argsort params ParNone convergenceThreshold 0
    (world script).

(** Two iterations of two samples, both elite: returns 1 and 1, then 0 and 1. *)
Definition params_floor : RunParams :=
  mkRunParams (mkParams 2 2 2 (q 1 2) None) 1 1.
Definition script_floor : list (list Z) := [[1; 1]; [0; 0]; [0; 1]; [0; 0]]%Z.

(** Four iterations whose best return is 0, then 1, and 1 from then on. *)
Definition params_converging : RunParams :=
  mkRunParams (mkParams 4 2 1 (q 1 2) None) 1 1.
Definition script_converging : list (list Z) :=
  [[0; 0]; [0; 0]; [0; 1]; [0; 0]; [0; 1]; [0; 0]; [1; 1]; [0; 0]]%Z.

(** Parameters out of range: a learning rate of 2 and more elite samples
    than samples. *)
Definition params_out_of_range : RunParams :=
  mkRunParams (mkParams 1 2 3 (q 2 1) None) 1 1.

(** A value threshold no sample reaches *)
Definition params_unreachable : RunParams :=
  mkRunParams (mkParams 1 2 2 (q 1 2) (Some (q 10 1))) 1 1.

(** A controller with three actions for the environment with two *)
Definition world_mismatched : World :=
  mkWorld (mkFSC 1 3 1 None [] []) env_pays_action script_floor [].

(** The environment that pays the number of the action, with a discount
    of 1, and the world of a run on it. *)
Definition env_pays_action_discounted : POMDP (list nat) :=
  mkPOMDP 2 1 1 (Some [1])
    [[[1]; [1]]]
    [[[[1]]; [[1]]]]
    [[[[0]]; [[1]]]]
    [] false (Some 1) [].
Definition world_discounted (script : list (list Z)) : World :=
  mkWorld controller_one_node env_pays_action_discounted script [].

(** ** Frames *)

(** A computation that leaves the view [f] of the state as it finds it,
    whatever it returns or raises. *)
Definition preserves {S X A} (f : S -> X) (m : M S A) : Prop :=
  forall s, f (m s).2 = f s.

(** What [updateProbabilitiesFromSamples] has no business changing: the
    three sizes, the current node and the sizes of the two tables. *)
Definition frame_of (c : FiniteStateController)
    : nat * nat * nat * option Z * list nat * list (list nat) :=
  (numNodes c, numActions c, numObservations c, currentNode c,
   shape2 (actionProbabilities c), shape3 (nodeTransitionProbabilities c)).

(** Two samples for the controller with two nodes, of which the first takes
    an action numbered 5 at the second node. *)
Definition batch_with_unknown_action : IntArray2 := mkArray2 2 [[0; 1]; [5; 1]]%Z.

(** The wrapper [w] with its generator in the state [g]. *)
Definition reseeded {G} (g : G) (w : MultiActionPOMDP G) : MultiActionPOMDP G :=
  with_env (with_np_random g (env w)) w.

(** The wrapper for two trajectories that are both marked done *)
Definition wrapper_all_done : MultiActionPOMDP (list nat) :=
  mkMulti (env_two_states []) 2 [-1; -1]%Z None.

(** The wrapper for two live trajectories, in the states 0 and 1, with an
    empty script: every draw answers 0. *)
Definition wrapper_two_workers : MultiActionPOMDP (list nat) :=
  mkMulti (env_two_states []) 2 [0; 1]%Z None.

(** The wrapper for two trajectories of which the first is marked done *)
Definition wrapper_one_done : MultiActionPOMDP (list nat) :=
  mkMulti (env_two_states []) 2 [-1; 1]%Z None.

(** ** The other methods of the controller *)

(** [FiniteStateController(numNodes, numActions, numObservations)] *)
Definition FiniteStateController_init (numNodes numActions numObservations : nat)
    : outcome unit * FiniteStateController :=
  (initActionNodeProbabilityTable;; initObservationNodeTransitionProbabilityTable)
    (mkFSC numNodes numActions numObservations None [] []).

(** [updateActionProbability] for one node and one action, given as
    integers: [self.actionProbabilities[nodeIndex, actionIndex] = newProbability]
    writes into the table in place. *)
Definition updateActionProbability (nodeIndex actionIndex : Z) (newProbability : Qc)
    : M FiniteStateController unit :=
  self ← get;
  i ← orRaise IndexError (py_index (length (actionProbabilities self)) nodeIndex);
  row ← orRaise IndexError (actionProbabilities self !! i);
  j ← orRaise IndexError (py_index (length row) actionIndex);
  put (with_actionProbabilities (set2 (actionProbabilities self) i j newProbability) self).

Section CurrentNode.
Context {Gn : Type}.
Variable npr_choice : nat -> nat -> list Qc -> M Gn (list Z).

(** [sampleAction]: the distribution is [actionProbabilities[currentNode, :]].
    With no current node the index [None] adds an axis instead of choosing a
    row, and [npr.choice] refuses a [p] that is not one-dimensional. *)
Definition sampleAction (self : FiniteStateController) (numSamples : nat)
    : M Gn (list Z) :=
  match currentNode self with
  | None => raise ValueError
  | Some nodeIndex =>
      p ← orRaise IndexError (nth_py (actionProbabilities self) nodeIndex);
      npr_choice (numActions self) numSamples p
  end.
End CurrentNode.

(** ** [evaluateFSCOnEnvironment], the loop of [generalGDICE.py] *)

(** The local variables of that loop that outlive an iteration.  The two
    last ones are the attributes [state] and [states] of [multiEnv], the
    wrapper built before the loop around the environment of the run. *)
Record FSCState : Type := mkFSCState {
  fsc_bestActionProbs : option (list Z);
  fsc_bestNodeTransitionProbs : option (list (list Z));
  fsc_bestValue : fval;
  fsc_worstValueOfPreviousIteration : fval;
  fsc_allValues : list (list Qc);
  fsc_multiEnv_state : list Z;
  fsc_multiEnv_states : option (list Z)
}.

Section OlderLoop.
Context {G Gn : Type}.
Variable multinomial_argmax : list Qc -> G -> nat * G.
Variable randint : nat -> G -> nat * G.
Variable npr_choice : nat -> nat -> list Qc -> M Gn (list Z).
Variable argsort : list Qc -> list nat.
  (** [env.reset()] of the environment that is wrapped *)
Variable env_reset : M (POMDP G) unit.

(** A computation on the wrapper [multiEnv], whose environment is the one of
    the run; it answers with the attributes of the wrapper as it leaves
    them. *)
Definition onMultiEnv {A} (n : nat) (s : list Z) (ss : option (list Z))
    (m : M (MultiActionPOMDP G) A)
    : M (@World G Gn) (A * list Z * option (list Z)) :=
  fun w =>
    let '(r, multiEnv) := m (mkMulti (environment w) n s ss) in
    (match r with
     | Returned a => Returned (a, state multiEnv, states multiEnv)
     | Raised x => Raised x
     end,
     with_environment (env multiEnv) w).

(** Lines 170 to 174: [gamma] is [env.discount] as it is, and
    [gamma ** currentTimestep] is a [TypeError] when it is [None]. *)
Fixpoint rolloutLoop (remaining : nat) (gamma : option Qc)
    (sampledActions : IntArray2) (sampledNodes : IntArray3)
    (sampleIndices currentNodes : list Z) (currentTimestep : nat)
    (values : list Qc) (isDones : list bool)
    : M (MultiActionPOMDP G) (list Qc) :=
  if forallb id isDones then ret values
  else match remaining with
       | O => ret values
       | S remaining' =>
           acts ← orRaise IndexError
                    (fancy_get2 (rows2 sampledActions) currentNodes sampleIndices);
           r ← stepActions multinomial_argmax acts;
           let '(obs, rewards, isDones') := r in
           currentNodes' ← orRaise IndexError
                    (fancy_get3 (planes3 sampledNodes) obs currentNodes sampleIndices);
           g ← orRaise TypeError gamma;
           values' ← orRaise ValueError
                    (iadd_array values ((fun x => x * g ^ currentTimestep) <$> rewards));
           rolloutLoop remaining' gamma sampledActions sampledNodes
             sampleIndices currentNodes' (S currentTimestep) values' isDones'
       end.

(** The body of the loop of line 153 *)
Definition evaluateFSCIteration (params : GDICEParams) (timeHorizon : nat)
    (parallel : parallel_arg) (gamma : option Qc)
    (iteration : nat) (st : FSCState) : M (@World G Gn) FSCState :=
  let numSamples := numSamples params in
  w ← get;
  sampledActions ← zoom npr with_npr
                     (sampleActionFromAllNodes npr_choice (controller w) numSamples);
  sampledNodes ← zoom npr with_npr
                   (sampleAllObservationTransitionsFromAllNodes npr_choice
                      (controller w) numSamples);
  vs ← match chooseStrategy parallel with
       | PerSampleProcesses =>
           zoom environment with_environment env_reset;;
           (* a bound method has no attribute [starmap] *)
           raise AttributeError
       | VectorizedBatch =>
           onMultiEnv numSamples (fsc_multiEnv_state st) (fsc_multiEnv_states st)
             (MultiActionPOMDP_reset multinomial_argmax randint;;
              rolloutLoop timeHorizon gamma sampledActions sampledNodes
                (Z.of_nat <$> seq 0 numSamples) (replicate numSamples 0%Z) 0
                (replicate numSamples (0 : Qc)) (replicate numSamples false))
       end;
  let '(values, multiEnv_state, multiEnv_states) := vs in
  (* Save values *)
  allValues' ← (r ← orRaise IndexError (assign_row (fsc_allValues st) iteration values);
                match r with Returned a => ret a | Raised e => raise e end);
  (* Find N_b best policies *)
  let bestSampleIndices := slice_last (numBestSamples params) (argsort values) in
  bestValues ← orRaise IndexError (select values bestSampleIndices);
  (* Save best policy (if better than overall previous) *)
  top ← orRaise IndexError (nth_py bestValues (-1));
  best ← (if fval_ltb (fsc_bestValue st) (Fin top) then
            j ← orRaise IndexError (nth_py bestSampleIndices (-1));
            a ← orRaise IndexError (column (rows2 sampledActions) j);
            n ← orRaise IndexError
                  (mapM (fun pl => column pl j) (planes3 sampledNodes));
            ret (Fin top, Some a, Some n)
          else
            ret (fsc_bestValue st, fsc_bestActionProbs st,
                 fsc_bestNodeTransitionProbs st));
  let '(bestValue', bestActionProbs', bestNodeTransitionProbs') := best in
  (* Throw away policies below value threshold (worst best value of previous iteration) *)
  let keepIndices :=
    nonzero (fun v => fval_geb (Fin v) (fsc_worstValueOfPreviousIteration st)) bestValues in
  bestValues ← orRaise IndexError (select bestValues keepIndices);
  bestSampleIndices ← orRaise IndexError (select bestSampleIndices keepIndices);
  (* For each node, update using best samples *)
  eliteActions ← orRaise IndexError (select_columns2 sampledActions bestSampleIndices);
  eliteNodes ← orRaise IndexError (select_columns3 sampledNodes bestSampleIndices);
  zoom controller with_controller
    (updateProbabilitiesFromSamples (Batch eliteActions eliteNodes) (learningRate params));;
  ret (mkFSCState bestActionProbs' bestNodeTransitionProbs' bestValue'
         (fsc_worstValueOfPreviousIteration st) allValues'
         multiEnv_state multiEnv_states).

(** [evaluateFSCOnEnvironment(env, controller, params, timeHorizon, parallel)];
    the controller it returns is the one of the world. *)
Definition evaluateFSCOnEnvironment (params : GDICEParams) (timeHorizon : nat)
    (parallel : parallel_arg)
    : M (@World G Gn) (fval * option (list Z) * option (list (list Z))) :=
  w ← get;
  (* Ensure controller matches environment *)
  if decide (action_space_n (environment w) = numActions (controller w)) then
    if decide (observation_space_n (environment w) = numObservations (controller w)) then
      (* Reset controller *)
      zoom controller with_controller reset;;
      (* Get environment gamma *)
      let gamma := discount (environment w) in
      (* Wrap the environment to sample multiple trajectories simultaneously *)
      multiEnv ← onMultiEnv (numSamples params) [] None
                   (MultiActionPOMDP_reset multinomial_argmax randint);
      st ← foldM (seq 0 (numIterations params))
             (evaluateFSCIteration params timeHorizon parallel gamma)
             (mkFSCState None None NInf NInf
                (replicate (numIterations params) (replicate (numSamples params) 0))
                multiEnv.1.2 multiEnv.2);
      ret (fsc_bestValue st, fsc_bestActionProbs st, fsc_bestNodeTransitionProbs st)
    else raise AssertionError
  else raise AssertionError.
End OlderLoop.

(** * Properties *)

(** ** The state-and-exception monad *)

Lemma bind_unfold {S A B} (m : M S A) (k : A -> M S B) (s : S) :
  (m ≫= k) s = match m s with
               | (Returned a, s') => k a s'
               | (Raised e, s') => (Raised e, s')
               end.
Proof. reflexivity. Qed.

Lemma bind_Returned {S A B} (m : M S A) (k : A -> M S B) (s s' : S) (b : B) :
  (m ≫= k) s = (Returned b, s') ->
  exists a s1, m s = (Returned a, s1) /\ k a s1 = (Returned b, s').
Proof.
  rewrite bind_unfold. destruct (m s) as [[a|e] s1]; [eauto | discriminate].
Qed.

Lemma bind_run {S A B} (m : M S A) (k : A -> M S B) (s s1 : S) (a : A) :
  m s = (Returned a, s1) -> (m ≫= k) s = k a s1.
Proof. intros H. rewrite bind_unfold, H. reflexivity. Qed.

Lemma bind_raise {S A B} (m : M S A) (k : A -> M S B) (s s1 : S) (e : exn) :
  m s = (Raised e, s1) -> (m ≫= k) s = (Raised e, s1).
Proof. intros H. rewrite bind_unfold, H. reflexivity. Qed.

(** ** C3: an empty elite set *)

(** C3 (the code departs from it).  With a batch that holds no sample and a
    controller that has nodes, [updateProbabilitiesFromSamples] does not take
    its early return, which tests the number of nodes: it raises
    [ZeroDivisionError] when it computes the weight of a sample.  Both tables
    are as before the call, but the call does not return. *)
Theorem update_empty_elite_set_raises (c : FiniteStateController)
    (rows : list (list Z)) (nodeObs : IntArray3) (lr : Qc) :
  rows ≠ [] ->
  dim3_2 nodeObs = 0%nat ->
  updateProbabilitiesFromSamples (Batch (mkArray2 0 rows) nodeObs) lr c
  = (Raised ZeroDivisionError, c).
Proof.
  intros Hrows Hdim. unfold updateProbabilitiesFromSamples. simpl.
  destruct (decide (length rows = 0%nat)) as [Hl|Hl].
  { destruct rows; [done | discriminate]. }
  rewrite Hdim. reflexivity.
Qed.

Lemma update_empty_elite_set_raises_witness :
  [([] : list Z)] ≠ [] /\ dim3_2 no_elite_nodes = 0%nat /\
  updateProbabilitiesFromSamples (Batch no_elite_actions no_elite_nodes) (q 1 10) c_one_node
  = (Raised ZeroDivisionError, c_one_node).
Proof.
  split; [discriminate|]. split; [reflexivity|].
  apply (update_empty_elite_set_raises c_one_node [[]] no_elite_nodes (q 1 10));
    [discriminate | reflexivity].
Defined.

(** ** Loops *)

Lemma forEach_inv {S A} (I : nat -> S -> Prop) (xs : list A)
    (body : A -> M S unit) (s : S) :
  I 0%nat s ->
  (forall i x s1, xs !! i = Some x -> I i s1 ->
     exists s2, body x s1 = (Returned tt, s2) /\ I (Datatypes.S i) s2) ->
  exists s', forEach xs body s = (Returned tt, s') /\ I (length xs) s'.
Proof.
  revert I s. induction xs as [|x xs IH]; intros I s H0 Hstep.
  - exists s. split; [reflexivity | exact H0].
  - destruct (Hstep 0%nat x s eq_refl H0) as (s2 & Hb & H1).
    destruct (IH (fun i => I (Datatypes.S i)) s2 H1) as (s' & Hrun & Hfin).
    { intros i y s1 Hy Hi. apply (Hstep (Datatypes.S i) y s1 Hy Hi). }
    exists s'. split; [|exact Hfin].
    simpl. erewrite bind_run by exact Hb. exact Hrun.
Qed.

(** ** Indexing *)

Lemma py_index_in_range (n : nat) (i : Z) :
  (0 ≤ i < Z.of_nat n)%Z -> py_index n i = Some (Z.to_nat i).
Proof. intros H. unfold py_index. rewrite bool_decide_eq_true_2; done. Qed.

Lemma py_index_of_nat (n i : nat) :
  (i < n)%nat -> py_index n (Z.of_nat i) = Some i.
Proof.
  intros H. rewrite py_index_in_range by lia. by rewrite Nat2Z.id.
Qed.

Lemma foldl_set2_lookup (c : Qc) (reads : list (nat * nat * Qc)) :
  forall (off : nat) (acc : list (list Qc)) (n : nat),
  (forall i r, reads !! i = Some r -> r.1.1 = (off + i)%nat) ->
  foldl (fun acc (w : nat * nat * Qc) => set2 acc w.1.1 w.1.2 (w.2 + c)) acc reads !! n
  = match (if decide (off ≤ n)%nat then reads !! (n - off)%nat else None) with
    | Some w => (fun row => <[w.1.2 := w.2 + c]> row) <$> acc !! n
    | None => acc !! n
    end.
Proof.
  induction reads as [|w reads IH]; intros off acc n Hrows; simpl.
  - by destruct (decide _).
  - rewrite (IH (Datatypes.S off)).
    2:{ intros i r Hi. rewrite (Hrows (Datatypes.S i) r Hi). lia. }
    pose proof (Hrows 0%nat w eq_refl) as Hw. rewrite Nat.add_0_r in Hw.
    unfold set2. rewrite Hw.
    destruct (decide (Datatypes.S off ≤ n)%nat) as [Hle|Hle].
    + destruct (decide (off ≤ n)%nat); [|lia].
      replace (n - off)%nat with (Datatypes.S (n - Datatypes.S off)) by lia. simpl.
      rewrite list_lookup_alter_ne by lia. reflexivity.
    + destruct (decide (off ≤ n)%nat) as [Hle'|Hle'].
      * assert (n = off) as -> by lia. rewrite Nat.sub_diag. simpl.
        by rewrite list_lookup_alter_eq.
      * rewrite list_lookup_alter_ne by lia. reflexivity.
Qed.

Lemma insert_as_alter {A} (f : A -> A) (l : list A) (j : nat) (x : A) :
  l !! j = Some x -> <[j := f x]> l = alter f j l.
Proof.
  intros Hj. apply list_eq. intros i.
  destruct (decide (j = i)) as [->|Hne].
  - rewrite list_lookup_alter_eq, Hj.
    apply list_lookup_insert_eq. by eapply lookup_lt_Some.
  - by rewrite list_lookup_insert_ne, list_lookup_alter_ne.
Qed.

Lemma read2_in_range (A : list (list Qc)) (n : nat) (a : Z) (row : list Qc) :
  A !! n = Some row ->
  (0 ≤ a < Z.of_nat (length row))%Z ->
  exists x, row !! Z.to_nat a = Some x /\
    read2 A (Z.of_nat n, a) = Some (n, Z.to_nat a, x).
Proof.
  intros Hrow Ha.
  destruct (lookup_lt_is_Some_2 row (Z.to_nat a)) as [x Hx]; [lia|].
  exists x. split; [exact Hx|].
  unfold read2. simpl.
  rewrite py_index_of_nat by (by eapply lookup_lt_Some). simpl.
  rewrite Hrow. simpl. rewrite py_index_in_range by exact Ha. simpl.
  rewrite Hx. reflexivity.
Qed.

(** [A[arange(N), col] += c] on a table with [N] rows: every row gets [c]
    at the column its entry of [col] names. *)
Lemma fancy_iadd2_arange (A : list (list Qc)) (col : list Z) (c : Qc) :
  length col = length A ->
  (forall n row a, A !! n = Some row -> col !! n = Some a ->
     (0 ≤ a < Z.of_nat (length row))%Z) ->
  exists A',
    fancy_iadd2 A (Z.of_nat <$> seq 0 (length A)) col c = Some A' /\
    forall n, A' !! n = match A !! n, col !! n with
                        | Some row, Some a =>
                            Some (alter (fun x => x + c) (Z.to_nat a) row)
                        | _, _ => None
                        end.
Proof.
  intros Hlen Hrange. unfold fancy_iadd2, broadcast2.
  rewrite decide_True by (by rewrite length_fmap, length_seq).
  simpl.
  set (pairs := zip (Z.of_nat <$> seq 0 (length A)) col).
  assert (Hpairs : forall i p, pairs !! i = Some p ->
            exists row a, A !! i = Some row /\ col !! i = Some a /\ p = (Z.of_nat i, a)).
  { intros i p Hp. unfold pairs in Hp.
    apply lookup_zip_with_Some in Hp as (x & a & -> & Hx & Ha).
    rewrite list_lookup_fmap in Hx.
    destruct (seq 0 (length A) !! i) as [k|] eqn:Hk; [|discriminate].
    apply lookup_seq in Hk as [-> Hlt]. simpl in Hx. injection Hx as <-.
    destruct (lookup_lt_is_Some_2 A i Hlt) as [row Hrow]. eauto. }
  destruct (mapM (read2 A) pairs) as [reads|] eqn:Hreads.
  2:{ exfalso. apply mapM_None_1 in Hreads. apply list.Exists_exists in Hreads as (p & Hin & Hnone).
      apply list_elem_of_lookup in Hin as [i Hi].
      destruct (Hpairs i p Hi) as (row & a & Hrow & Ha & ->).
      destruct (read2_in_range A i a row Hrow (Hrange i row a Hrow Ha)) as (x & _ & Hr).
      congruence. }
  simpl. eexists. split; [reflexivity|].
  apply mapM_Some_1 in Hreads.
  intros n.
  rewrite (foldl_set2_lookup c reads 0%nat).
  2:{ intros i r Hi.
      destruct (Forall2_lookup_r _ _ _ _ _ Hreads Hi) as (p & Hp & Hread).
      destruct (Hpairs i p Hp) as (row & a & Hrow & Ha & ->).
      destruct (read2_in_range A i a row Hrow (Hrange i row a Hrow Ha)) as (x & _ & Hr).
      rewrite Hr in Hread. injection Hread as <-. reflexivity. }
  rewrite decide_True by lia. rewrite Nat.sub_0_r.
  destruct (reads !! n) as [w|] eqn:Hw.
  - destruct (Forall2_lookup_r _ _ _ _ _ Hreads Hw) as (p & Hp & Hread).
    destruct (Hpairs n p Hp) as (row & a & Hrow & Ha & ->).
    destruct (read2_in_range A n a row Hrow (Hrange n row a Hrow Ha)) as (x & Hx & Hr).
    rewrite Hr in Hread. injection Hread as <-. simpl.
    rewrite Hrow, Ha. simpl. f_equal.
    apply (insert_as_alter (fun x => x + c)). exact Hx.
  - assert (Hn : (length A ≤ n)%nat).
    { apply Forall2_length in Hreads. apply lookup_ge_None in Hw.
      unfold pairs in Hreads. rewrite length_zip_with, length_fmap, length_seq in Hreads.
      lia. }
    rewrite (lookup_ge_None_2 A n Hn). reflexivity.
Qed.

Lemma iadd3_lookup (T : list (list (list Qc))) (s : nat) (v : Z) (o : nat) (c : Qc) :
  (0 ≤ v)%Z ->
  is_Some (get3 T s (Z.to_nat v) o) ->
  exists T', iadd3 T s v o c = Some T' /\
    shape3 T' = shape3 T /\
    forall s' d' o',
      get3 T' s' d' o'
      = (fun y => y + (if bool_decide (s' = s /\ d' = Z.to_nat v /\ o' = o)
                       then c else 0))
        <$> get3 T s' d' o'.
Proof.
  intros Hv [x Hx]. unfold get3 in Hx.
  destruct (T !! s) as [m|] eqn:Hm; [|discriminate]. simpl in Hx.
  destruct (m !! Z.to_nat v) as [r|] eqn:Hr; [|discriminate]. simpl in Hx.
  unfold iadd3. rewrite Hm. simpl.
  rewrite py_index_in_range.
  2:{ apply lookup_lt_Some in Hr. lia. }
  simpl. rewrite Hr. simpl. rewrite Hx. simpl.
  eexists. split; [reflexivity|]. split.
  { unfold shape3, shape2. rewrite list_fmap_insert. apply list_insert_id.
    rewrite list_lookup_fmap, Hm. simpl. f_equal. symmetry.
    rewrite list_fmap_insert. apply list_insert_id.
    rewrite list_lookup_fmap, Hr. simpl. f_equal. symmetry. apply length_insert. }
  intros s' d' o'. unfold get3.
  destruct (decide (s' = s)) as [->|Hs].
  - rewrite list_lookup_insert_eq by (by eapply lookup_lt_Some).
    rewrite Hm. simpl.
    destruct (decide (d' = Z.to_nat v)) as [->|Hd].
    + rewrite list_lookup_insert_eq by (by eapply lookup_lt_Some).
      rewrite Hr. simpl.
      destruct (decide (o' = o)) as [->|Ho].
      * rewrite list_lookup_insert_eq by (by eapply lookup_lt_Some).
        rewrite Hx. simpl. by rewrite bool_decide_eq_true_2.
      * rewrite list_lookup_insert_ne by done.
        rewrite bool_decide_eq_false_2 by tauto.
        destruct (r !! o'); simpl; [|done]. f_equal. ring.
    + rewrite list_lookup_insert_ne by done.
      rewrite bool_decide_eq_false_2 by tauto.
      destruct (m !! d') as [r'|]; simpl; [|done].
      destruct (r' !! o'); simpl; [|done]. f_equal. ring.
  - rewrite list_lookup_insert_ne by done.
    rewrite bool_decide_eq_false_2 by tauto.
    destruct (T !! s') as [m'|]; simpl; [|done].
    destruct (m' !! d') as [r'|]; simpl; [|done].
    destruct (r' !! o'); simpl; [|done]. f_equal. ring.
Qed.

Lemma tally_app (c : Qc) (a : Z) (l1 l2 : list Z) :
  tally c a (l1 ++ l2) = tally c a l1 + tally c a l2.
Proof.
  induction l1 as [|x l1 IH]; simpl; [ring|]. rewrite IH. ring.
Qed.

Lemma tally_take_S (c : Qc) (a : Z) (row : list Z) (i : nat) (v : Z) :
  row !! i = Some v ->
  tally c a (take (S i) row)
  = tally c a (take i row) + (if decide (v = a) then c else 0).
Proof.
  intros Hv. rewrite (take_S_r _ _ _ Hv), tally_app. simpl. ring.
Qed.

Lemma column_lookup (rows : list (list Z)) (j : nat) (col : list Z) :
  column rows j = Some col ->
  length col = length rows /\
  forall n, col !! n = row ← rows !! n; row !! j.
Proof.
  unfold column. intros H. apply mapM_Some_1 in H.
  split; [symmetry; by eapply Forall2_length|].
  intros n. destruct (rows !! n) as [row|] eqn:Hrow; simpl.
  - destruct (Forall2_lookup_l _ _ _ _ _ H Hrow) as (a & Ha & Hj). congruence.
  - apply lookup_ge_None. apply lookup_ge_None in Hrow.
    apply Forall2_length in H. lia.
Qed.

Lemma column_is_Some (rows : list (list Z)) (j k : nat) :
  Forall (fun r => length r = k) rows -> (j < k)%nat ->
  is_Some (column rows j).
Proof.
  intros Hrows Hj. unfold column. apply mapM_is_Some_2.
  eapply list.Forall_impl; [exact Hrows|]. intros r Hr. simpl.
  apply lookup_lt_is_Some_2. rewrite Hr. exact Hj.
Qed.

(** ** The transition table in one pass of the two inner loops *)

Section TransitionPass.
Variable nodeObs : IntArray3.
Variable sample : nat.
Variable w : Qc.

Lemma pass_ready_state (T0 T : list (list (list Qc))) (visited : nat -> nat -> bool) :
  pass_ready nodeObs sample T0 ->
  pass_state nodeObs sample w T0 T visited ->
  pass_ready nodeObs sample T.
Proof.
  intros [Hready Hout] [_ Hstate]. split; [|exact Hout].
  intros o s Ho Hs.
  destruct (Hready o s Ho Hs) as (v & Hv & Hpos & Hsome).
  exists v. repeat split; try done.
  rewrite Hstate. by apply fmap_is_Some.
Qed.

Lemma bump_step (self : FiniteStateController) (T0 : list (list (list Qc)))
    (visited visited' : nat -> nat -> bool) (o s : nat) :
  pass_ready nodeObs sample T0 ->
  pass_state nodeObs sample w T0 (nodeTransitionProbabilities self) visited ->
  (o < length (planes3 nodeObs))%nat -> (s < dim3_1 nodeObs)%nat ->
  visited o s = false ->
  (forall o' s', visited' o' s' = visited o' s' || bool_decide (o' = o /\ s' = s)) ->
  exists T',
    bump nodeObs sample w o s self
    = (Returned tt, with_nodeTransitionProbabilities T' self) /\
    pass_state nodeObs sample w T0 T' visited'.
Proof.
  intros Hready Hstate Ho Hs Hfresh Hvis'.
  destruct (pass_ready_state _ _ _ Hready Hstate) as [Hr _].
  destruct (Hr o s Ho Hs) as (v & Hv & Hpos & Hsome).
  destruct (iadd3_lookup _ s v o w Hpos Hsome) as (T' & HT' & Hshape & Hget).
  destruct Hstate as [Hsh Hstate].
  exists T'. split.
  - unfold bump. rewrite bind_unfold. simpl. rewrite Hv. simpl.
    rewrite bind_unfold. simpl. rewrite HT'. reflexivity.
  - split; [congruence|].
    intros s' d' o'. rewrite Hget, Hstate.
    destruct (get3 T0 s' d' o') as [y|]; simpl; [|done].
    f_equal. unfold added. rewrite Hvis'.
    destruct (decide (o' = o /\ s' = s)) as [[-> ->]|Hne].
    + rewrite Hfresh, Hv. simpl.
      rewrite (bool_decide_eq_true_2 (o = o /\ s = s)) by done. simpl.
      destruct (decide (d' = Z.to_nat v)) as [->|Hd].
      * rewrite bool_decide_eq_true_2 by done.
        rewrite bool_decide_eq_true_2; [ring|]. by rewrite Z2Nat.id.
      * rewrite bool_decide_eq_false_2 by tauto.
        rewrite bool_decide_eq_false_2; [ring|].
        intros [= ->]. apply Hd. by rewrite Nat2Z.id.
    + rewrite (bool_decide_eq_false_2 (s' = s /\ _)) by tauto.
      rewrite (bool_decide_eq_false_2 (o' = o /\ _)) by tauto.
      rewrite orb_false_r. ring.
Qed.

(** The loop over the start nodes, for the observation [o] *)
Lemma start_loop (self : FiniteStateController) (T0 : list (list (list Qc)))
    (o : nat) :
  pass_ready nodeObs sample T0 ->
  pass_state nodeObs sample w T0 (nodeTransitionProbabilities self)
    (fun o' _ => bool_decide (o' < o)%nat) ->
  (o < length (planes3 nodeObs))%nat ->
  exists T',
    forEach (seq 0 (dim3_1 nodeObs)) (bump nodeObs sample w o) self
    = (Returned tt, with_nodeTransitionProbabilities T' self) /\
    pass_state nodeObs sample w T0 T'
      (fun o' _ => bool_decide (o' < Datatypes.S o)%nat).
Proof.
  intros Hready [Hsh Hstate] Ho.
  set (vis := fun (j : nat) (o' s' : nat) =>
                bool_decide (o' < o)%nat
                || bool_decide (o' = o /\ (s' < j)%nat)).
  destruct (forEach_inv
    (fun j self' => exists T', self' = with_nodeTransitionProbabilities T' self /\
                               pass_state nodeObs sample w T0 T' (vis j))
    (seq 0 (dim3_1 nodeObs)) (bump nodeObs sample w o) self)
    as (self' & Hrun & T' & -> & Hsh' & Hfin).
  - exists (nodeTransitionProbabilities self). split; [by destruct self|].
    split; [exact Hsh|].
    intros s d o'. rewrite (Hstate s d o'). unfold added, vis.
    rewrite (bool_decide_eq_false_2 (o' = o /\ _)) by lia.
    by rewrite orb_false_r.
  - intros j x s1 Hx (Tj & -> & Hj).
    apply lookup_seq in Hx as [-> Hlt]. simpl.
    destruct (bump_step (with_nodeTransitionProbabilities Tj self) T0
                (vis j) (vis (Datatypes.S j)) o j Hready Hj Ho Hlt)
      as (T' & Hb & HT').
    + unfold vis. rewrite !bool_decide_eq_false_2 by lia. done.
    + intros o' s'. unfold vis.
      repeat case_bool_decide; simpl; try done; exfalso; lia.
    + exists (with_nodeTransitionProbabilities T' self). split; [exact Hb|]. eauto.
  - exists T'. split; [exact Hrun|]. split; [exact Hsh'|].
    intros s d o'. rewrite (Hfin s d o').
    destruct (get3 T0 s d o') as [y|] eqn:Hy; simpl; [|done]. f_equal. f_equal.
    unfold added, vis. rewrite length_seq.
    destruct (decide (s < dim3_1 nodeObs)%nat) as [Hs|Hs].
    + repeat case_bool_decide; simpl; try done; exfalso; lia.
    + destruct Hready as [_ Hout]. rewrite Hout by lia.
      rewrite !(bool_decide_eq_false_2 (None = Some _)) by done.
      by rewrite !andb_false_r.
Qed.

(** The loop over the observations *)
Lemma observation_loop (self : FiniteStateController) :
  pass_ready nodeObs sample (nodeTransitionProbabilities self) ->
  exists T',
    forEach (seq 0 (length (planes3 nodeObs)))
      (fun observation =>
         forEach (seq 0 (dim3_1 nodeObs)) (bump nodeObs sample w observation))
      self
    = (Returned tt, with_nodeTransitionProbabilities T' self) /\
    shape3 T' = shape3 (nodeTransitionProbabilities self) /\
    forall s d o,
      get3 T' s d o
      = (fun y => y + (if bool_decide (at3 nodeObs o s sample = Some (Z.of_nat d))
                       then w else 0))
        <$> get3 (nodeTransitionProbabilities self) s d o.
Proof.
  intros Hready.
  set (T0 := nodeTransitionProbabilities self) in *.
  destruct (forEach_inv
    (fun j self' => exists T', self' = with_nodeTransitionProbabilities T' self /\
        pass_state nodeObs sample w T0 T' (fun o' _ => bool_decide (o' < j)%nat))
    (seq 0 (length (planes3 nodeObs)))
    (fun observation =>
       forEach (seq 0 (dim3_1 nodeObs)) (bump nodeObs sample w observation))
    self) as (self' & Hrun & T' & -> & Hsh' & Hfin).
  - exists T0. split; [by destruct self|]. split; [done|].
    intros s d o. unfold added.
    rewrite bool_decide_eq_false_2 by lia. simpl.
    destruct (get3 T0 s d o); simpl; [|done]. f_equal. ring.
  - intros j x s1 Hx (Tj & -> & Hj).
    apply lookup_seq in Hx as [-> Hlt]. simpl.
    destruct (start_loop (with_nodeTransitionProbabilities Tj self) T0 j Hready Hj Hlt)
      as (T' & Hb & HT').
    exists (with_nodeTransitionProbabilities T' self). split; [exact Hb|]. eauto.
  - exists T'. split; [exact Hrun|]. split; [exact Hsh'|].
    intros s d o. rewrite (Hfin s d o).
    destruct (get3 T0 s d o) as [y|] eqn:Hy; simpl; [|done]. f_equal. f_equal.
    unfold added. rewrite length_seq.
    destruct (decide (o < length (planes3 nodeObs))%nat) as [Ho|Ho].
    + by rewrite bool_decide_eq_true_2.
    + rewrite (bool_decide_eq_false_2 (o < _)%nat) by done. simpl.
      rewrite bool_decide_eq_false_2; [done|].
      unfold at3. rewrite (lookup_ge_None_2 (planes3 nodeObs) o) by lia. done.
Qed.
End TransitionPass.

(** ** The action table in one step of the loop over the samples *)

Lemma get2_alter_row (A A' : list (list Qc)) (f : nat -> list Qc -> list Qc) :
  (forall n, A' !! n = f n <$> A !! n) ->
  (forall n row, length (f n row) = length row) ->
  shape2 A' = shape2 A.
Proof.
  intros HA' Hlen. unfold shape2. apply list_eq. intros n.
  rewrite !list_lookup_fmap, HA'. destruct (A !! n) as [row|]; simpl; [|done].
  by rewrite Hlen.
Qed.

Lemma action_step (A : list (list Qc)) (rows : list (list Z)) (i k nA : nat) (w : Qc) :
  length rows = length A ->
  Forall (fun r => length r = nA) A ->
  Forall (fun r => length r = k /\ Forall (fun a => (0 ≤ a < Z.of_nat nA)%Z) r) rows ->
  (i < k)%nat ->
  exists col A',
    column rows i = Some col /\
    fancy_iadd2 A (Z.of_nat <$> seq 0 (length A)) col w = Some A' /\
    shape2 A' = shape2 A /\
    forall n a,
      get2 A' n a
      = (fun y => y + (if bool_decide ((row ← rows !! n; row !! i) = Some (Z.of_nat a))
                       then w else 0))
        <$> get2 A n a.
Proof.
  intros Hlen HA Hrows Hi.
  destruct (column_is_Some rows i k) as [col Hcol]; [|exact Hi|].
  { eapply list.Forall_impl; [exact Hrows|]. by intros r [? _]. }
  destruct (column_lookup _ _ _ Hcol) as [Hcl Hcn].
  destruct (fancy_iadd2_arange A col w) as (A' & HA' & Hlook).
  { congruence. }
  { intros n row a Hrow Ha. rewrite Hcn in Ha.
    destruct (rows !! n) as [r|] eqn:Hr; [|discriminate]. simpl in Ha.
    rewrite list.Forall_lookup in Hrows. destruct (Hrows n r Hr) as [_ Hr'].
    rewrite list.Forall_lookup in Hr'. specialize (Hr' i a Ha).
    rewrite list.Forall_lookup in HA. rewrite (HA n row Hrow). exact Hr'. }
  exists col, A'. split; [exact Hcol|]. split; [exact HA'|].
  set (g := fun (n : nat) (row : list Qc) =>
              match col !! n with
              | Some a => alter (fun x => x + w) (Z.to_nat a) row
              | None => row
              end).
  assert (Hrow' : forall n, A' !! n = g n <$> A !! n).
  { intros n. rewrite Hlook. unfold g.
    destruct (A !! n) as [row|] eqn:Hrow; [|done]. simpl.
    destruct (col !! n) as [a|] eqn:Ha; [done|].
    apply lookup_ge_None in Ha. apply lookup_lt_Some in Hrow. lia. }
  split.
  { eapply (get2_alter_row _ _ g); [exact Hrow'|].
    intros n row. unfold g. destruct (col !! n); [apply length_alter | done]. }
  intros n a. unfold get2. rewrite Hrow'. unfold g.
  destruct (A !! n) as [row|] eqn:Hrow; simpl; [|done].
  rewrite <- Hcn.
  destruct (col !! n) as [v|] eqn:Hv.
  - assert (Hvr : (0 ≤ v < Z.of_nat nA)%Z).
    { rewrite Hcn in Hv. destruct (rows !! n) as [r|] eqn:Hr; [|discriminate].
      simpl in Hv. rewrite list.Forall_lookup in Hrows.
      destruct (Hrows n r Hr) as [_ Hr']. rewrite list.Forall_lookup in Hr'.
      exact (Hr' i v Hv). }
    destruct (decide (a = Z.to_nat v)) as [->|Hne].
    + rewrite list_lookup_alter_eq.
      rewrite bool_decide_eq_true_2 by (by rewrite Z2Nat.id by lia). done.
    + rewrite list_lookup_alter_ne by done.
      rewrite bool_decide_eq_false_2.
      2:{ intros [= ->]. apply Hne. by rewrite Nat2Z.id. }
      destruct (row !! a); simpl; [|done]. f_equal. ring.
  - rewrite bool_decide_eq_false_2 by done.
    destruct (row !! a); simpl; [|done]. f_equal. ring.
Qed.

Lemma get2_scale2 (f : Qc) (A : list (list Qc)) (n a : nat) :
  get2 (scale2 f A) n a = (fun x => x * f) <$> get2 A n a.
Proof.
  unfold get2, scale2. change (map (map (fun x => x * f)) A)
    with (fmap (M:=list) (fmap (M:=list) (fun x => x * f)) A).
  rewrite list_lookup_fmap. destruct (A !! n) as [row|]; simpl; [|done].
  by rewrite list_lookup_fmap.
Qed.

Lemma get3_scale3 (f : Qc) (T : list (list (list Qc))) (s d o : nat) :
  get3 (scale3 f T) s d o = (fun x => x * f) <$> get3 T s d o.
Proof.
  unfold get3, scale3.
  change (map (scale2 f) T) with (fmap (M:=list) (scale2 f) T).
  rewrite list_lookup_fmap. destruct (T !! s) as [m|]; simpl; [|done].
  apply (get2_scale2 f m d o).
Qed.

Lemma shape2_scale2 (f : Qc) (A : list (list Qc)) : shape2 (scale2 f A) = shape2 A.
Proof.
  unfold shape2, scale2. rewrite <- list_fmap_compose. apply list_fmap_ext.
  intros _ row _. simpl. apply length_map.
Qed.

Lemma shape3_scale3 (f : Qc) (T : list (list (list Qc))) : shape3 (scale3 f T) = shape3 T.
Proof.
  unfold shape3, scale3. rewrite <- list_fmap_compose. apply list_fmap_ext.
  intros _ m _. simpl. apply shape2_scale2.
Qed.

(** ** The loop over the samples *)

Lemma bind_modify {S B} (f : S -> S) (k : unit -> M S B) (s : S) :
  (modify f ≫= k) s = k tt (f s).
Proof. reflexivity. Qed.

Lemma tally_step (old : option Qc) (row : option (list Z)) (f w : Qc) (a : Z)
    (i k : nat) :
  (forall r, row = Some r -> length r = k) -> (i < k)%nat ->
  (fun y => y + (if bool_decide ((r ← row; r !! i) = Some a) then w else 0))
    <$> (y ← old; r ← row; Some (y * f + tally w a (take i r)))
  = y ← old; r ← row; Some (y * f + tally w a (take (Datatypes.S i) r)).
Proof.
  intros Hlen Hi. destruct old as [y|]; [|done]. destruct row as [r|]; [|done].
  simpl. f_equal.
  destruct (lookup_lt_is_Some_2 r i) as [v Hv]; [rewrite (Hlen r eq_refl); lia|].
  rewrite (tally_take_S _ _ _ _ _ Hv), Hv.
  destruct (decide (v = a)) as [->|Hne].
  - rewrite bool_decide_eq_true_2 by done. ring.
  - rewrite bool_decide_eq_false_2 by congruence. ring.
Qed.

Lemma shape2_length (A B : list (list Qc)) :
  shape2 A = shape2 B -> length A = length B.
Proof.
  intros H. apply (f_equal length) in H. unfold shape2 in H.
  by rewrite !length_fmap in H.
Qed.

Lemma shape2_Forall (A B : list (list Qc)) (n : nat) :
  shape2 A = shape2 B ->
  Forall (fun r => length r = n) B -> Forall (fun r => length r = n) A.
Proof.
  intros H HB. rewrite list.Forall_lookup in HB. apply list.Forall_lookup.
  intros i r Hr.
  assert (shape2 A !! i = Some (length r)) as Hi
    by (unfold shape2; by rewrite list_lookup_fmap, Hr).
  rewrite H in Hi. unfold shape2 in Hi. rewrite list_lookup_fmap in Hi.
  destruct (B !! i) as [r'|] eqn:Hr'; [|discriminate].
  injection Hi as <-. by eapply HB.
Qed.

Lemma get3_wf_is_Some (c : FiniteStateController) (s d o : nat) :
  wf_controller c ->
  (s < numNodes c)%nat -> (d < numNodes c)%nat -> (o < numObservations c)%nat ->
  is_Some (get3 (nodeTransitionProbabilities c) s d o).
Proof.
  intros [_ _ HTs HTr] Hs Hd Ho. unfold get3.
  destruct (lookup_lt_is_Some_2 (nodeTransitionProbabilities c) s) as [m Hm]; [lia|].
  rewrite Hm. simpl.
  rewrite list.Forall_lookup in HTr. destruct (HTr s m Hm) as [Hlen Hrows].
  destruct (lookup_lt_is_Some_2 m d) as [r Hr]; [lia|].
  rewrite Hr. simpl.
  rewrite list.Forall_lookup in Hrows.
  apply lookup_lt_is_Some_2. rewrite (Hrows d r Hr). exact Ho.
Qed.

Lemma batch_at3 (c : FiniteStateController) (k : nat)
    (actions : IntArray2) (nodeObs : IntArray3) (o s i : nat) :
  wf_batch c k actions nodeObs ->
  (o < length (planes3 nodeObs))%nat -> (s < numNodes c)%nat -> (i < k)%nat ->
  exists p row v,
    planes3 nodeObs !! o = Some p /\ p !! s = Some row /\ row !! i = Some v /\
    length row = k /\ (0 ≤ v < Z.of_nat (numNodes c))%Z.
Proof.
  intros [_ _ _ _ _ _ Bn] Ho Hs Hi.
  destruct (lookup_lt_is_Some_2 (planes3 nodeObs) o Ho) as [p Hp].
  rewrite list.Forall_lookup in Bn. destruct (Bn o p Hp) as [Hlen Hrows].
  destruct (lookup_lt_is_Some_2 p s) as [row Hrow]; [lia|].
  rewrite list.Forall_lookup in Hrows. destruct (Hrows s row Hrow) as [Hk Hvals].
  destruct (lookup_lt_is_Some_2 row i) as [v Hv]; [lia|].
  rewrite list.Forall_lookup in Hvals.
  exists p, row, v. repeat split; try done; by apply (Hvals i v Hv).
Qed.

Lemma batch_at3_outside (c : FiniteStateController) (k : nat)
    (actions : IntArray2) (nodeObs : IntArray3) (o s i : nat) :
  wf_batch c k actions nodeObs -> (numNodes c ≤ s)%nat ->
  (p ← planes3 nodeObs !! o; p !! s) = None.
Proof.
  intros [_ _ _ _ _ _ Bn] Hs.
  destruct (planes3 nodeObs !! o) as [p|] eqn:Hp; [|done]. simpl.
  rewrite list.Forall_lookup in Bn. destruct (Bn o p Hp) as [Hlen _].
  apply lookup_ge_None. lia.
Qed.

Lemma update_batch_entries (c : FiniteStateController) (k : nat)
    (actions : IntArray2) (nodeObs : IntArray3) (lr : Qc) :
  wf_controller c -> wf_batch c k actions nodeObs -> k <> 0%nat ->
  exists A' T',
    updateProbabilitiesFromSamples (Batch actions nodeObs) lr c
    = (Returned tt,
       with_nodeTransitionProbabilities T' (with_actionProbabilities A' c)) /\
    shape2 A' = shape2 (actionProbabilities c) /\
    shape3 T' = shape3 (nodeTransitionProbabilities c) /\
    (forall n a,
       get2 A' n a
       = y ← get2 (actionProbabilities c) n a;
         row ← rows2 actions !! n;
         Some (y * (1 - lr) + tally (lr / Qc_of_nat k) (Z.of_nat a) row)) /\
    (forall s d o,
       get3 T' s d o
       = y ← get3 (nodeTransitionProbabilities c) s d o;
         row ← (p ← planes3 nodeObs !! o; p !! s);
         Some (y * (1 - lr) + tally (lr / Qc_of_nat k) (Z.of_nat d) row)).
Proof.
  intros Hc Hb Hk.
  pose proof Hc as [HAr HAc HTs HTr]. pose proof Hb as [Bc Br Ba Bd1 Bd2 Bp Bn].
  unfold updateProbabilitiesFromSamples.
  destruct (decide (length (rows2 actions) = 0%nat)) as [Hz|Hz].
  { exists (actionProbabilities c), (nodeTransitionProbabilities c).
    split; [by destruct c|]. split; [done|]. split; [done|].
    assert (actionProbabilities c = []) as HA by (apply length_zero_iff_nil; lia).
    assert (nodeTransitionProbabilities c = []) as HT
      by (apply length_zero_iff_nil; lia).
    rewrite HA, HT. split; intros; reflexivity. }
  simpl. rewrite Bc, Bd2. rewrite decide_True by done.
  unfold int_recip. rewrite decide_False by done. simpl.
  rewrite !bind_unfold. simpl. rewrite !bind_modify.
  replace (lr * (1 / Qc_of_nat k)) with (lr / Qc_of_nat k)
    by (unfold Qcdiv; ring).
  set (w := lr / Qc_of_nat k).
  set (A0 := actionProbabilities c). set (T0 := nodeTransitionProbabilities c).
  set (inv := fun (i : nat) (self : FiniteStateController) =>
    exists Ai Ti,
      self = with_nodeTransitionProbabilities Ti (with_actionProbabilities Ai c) /\
      shape2 Ai = shape2 A0 /\ shape3 Ti = shape3 T0 /\
      (forall n a, get2 Ai n a
         = y ← get2 A0 n a; row ← rows2 actions !! n;
           Some (y * (1 - lr) + tally w (Z.of_nat a) (take i row))) /\
      (forall s d o, get3 Ti s d o
         = y ← get3 T0 s d o; row ← (p ← planes3 nodeObs !! o; p !! s);
           Some (y * (1 - lr) + tally w (Z.of_nat d) (take i row)))).
  match goal with
  | |- exists A' T', forEach ?xs ?body ?s0 = _ /\ _ =>
      destruct (forEach_inv inv xs body s0)
        as (self' & Hrun & Ak & Tk & -> & HshA & HshT & HgA & HgT)
  end.
  - (* before the first sample *)
    exists (scale2 (1 - lr) A0), (scale3 (1 - lr) T0).
    split; [reflexivity|]. split; [apply shape2_scale2|].
    split; [apply shape3_scale3|]. split.
    + intros n a. rewrite get2_scale2.
      destruct (get2 A0 n a) as [y|] eqn:Hy; [|done]. simpl.
      destruct (rows2 actions !! n) as [row|] eqn:Hrow.
      * simpl. f_equal. ring.
      * exfalso. apply lookup_ge_None in Hrow. unfold get2 in Hy.
        destruct (A0 !! n) eqn:Hn; [|discriminate].
        apply lookup_lt_Some in Hn. unfold A0 in Hn. lia.
    + intros s d o. rewrite get3_scale3.
      destruct (get3 T0 s d o) as [y|] eqn:Hy; [|done]. simpl.
      destruct (planes3 nodeObs !! o ≫= λ p, p !! s) as [row|] eqn:Hrow.
      * simpl. f_equal. ring.
      * exfalso. unfold get3 in Hy.
        destruct (T0 !! s) as [m|] eqn:Hs; [|discriminate]. simpl in Hy.
        destruct (m !! d) as [r|] eqn:Hd; [|discriminate]. simpl in Hy.
        pose proof (lookup_lt_Some _ _ _ Hs) as Hs'.
        pose proof (lookup_lt_Some _ _ _ Hy) as Ho'.
        rewrite list.Forall_lookup in HTr. destruct (HTr s m Hs) as [_ Hr].
        rewrite list.Forall_lookup in Hr. rewrite (Hr d r Hd) in Ho'.
        unfold T0 in Hs'.
        destruct (batch_at3 c k actions nodeObs o s 0%nat Hb)
          as (p & row & v & Hp & Hrow' & _); [lia..|].
        rewrite Hp in Hrow. simpl in Hrow. congruence.
  - (* one more sample *)
    intros i x s1 Hx (Ai & Ti & -> & HshA & HshT & HgA & HgT).
    apply lookup_seq in Hx as [-> Hi]. simpl in Hi.
    destruct (action_step Ai (rows2 actions) i k (numActions c) w)
      as (col & A' & Hcol & HA' & HshA' & HgA'); [| | exact Ba | exact Hi |].
    { rewrite (shape2_length _ _ HshA). unfold A0. lia. }
    { eapply shape2_Forall; [exact HshA | exact HAc]. }
    assert (Hready : pass_ready nodeObs i Ti).
    { split.
      - intros o s Ho Hs.
        destruct (batch_at3 c k actions nodeObs o s i Hb)
          as (p & row & v & Hp & Hrow & Hv & Hlen & Hvr); [lia..|].
        exists v. split; [unfold at3; by rewrite Hp; simpl; rewrite Hrow|].
        split; [lia|]. rewrite HgT, Hp. simpl. rewrite Hrow. simpl.
        destruct (get3_wf_is_Some c s (Z.to_nat v) o Hc) as [y Hy]; [lia..|].
        fold T0 in Hy. rewrite Hy. done.
      - intros o s Hs. unfold at3.
        pose proof (batch_at3_outside c k actions nodeObs o s i Hb) as Hout.
        destruct (planes3 nodeObs !! o) as [p|]; [|done]. simpl in *.
        rewrite Hout by lia. done. }
    destruct (observation_loop nodeObs i w
                (with_actionProbabilities A'
                   (with_nodeTransitionProbabilities Ti (with_actionProbabilities Ai c))))
      as (T' & HT' & HshT' & HgT'); [exact Hready|].
    exists (with_nodeTransitionProbabilities T' (with_actionProbabilities A' c)).
    split.
    + rewrite bind_unfold. simpl. rewrite Hcol. simpl.
      rewrite (shape2_length _ _ HshA) in HA'. unfold A0 in HA'. rewrite HAr in HA'.
      rewrite bind_unfold. simpl. rewrite HA'. simpl.
      exact HT'.
    + exists A', T'. split; [reflexivity|].
      split; [congruence|]. split; [simpl in HshT'; congruence|]. split.
      * intros n a. rewrite HgA', HgA.
        apply (tally_step _ (rows2 actions !! n) (1 - lr) w (Z.of_nat a) i k); [|exact Hi].
        intros r Hr. rewrite list.Forall_lookup in Ba. by destruct (Ba n r Hr).
      * intros s d o. rewrite HgT'. simpl. rewrite HgT.
        unfold at3.
        rewrite <- (tally_step _ (planes3 nodeObs !! o ≫= λ p, p !! s)
                               (1 - lr) w (Z.of_nat d) i k); [| |exact Hi].
        { by rewrite option_bind_assoc. }
        intros r Hr.
        destruct (planes3 nodeObs !! o) as [p|] eqn:Hp; [|discriminate]. simpl in Hr.
        rewrite list.Forall_lookup in Bn. destruct (Bn o p Hp) as [_ Hrows].
        rewrite list.Forall_lookup in Hrows. by destruct (Hrows s r Hr).
  - (* after the last sample *)
    rewrite length_seq in HgA, HgT.
    exists Ak, Tk. split; [exact Hrun|]. split; [exact HshA|]. split; [exact HshT|].
    split.
    + intros n a. rewrite HgA.
      destruct (get2 A0 n a); [|done]. simpl.
      destruct (rows2 actions !! n) as [row|] eqn:Hrow; [|done]. simpl.
      rewrite list.Forall_lookup in Ba. destruct (Ba n row Hrow) as [Hl _].
      rewrite take_ge by lia. done.
    + intros s d o. rewrite HgT.
      destruct (get3 T0 s d o); [|done]. simpl.
      destruct (planes3 nodeObs !! o) as [p|] eqn:Hp; [|done]. simpl.
      destruct (p !! s) as [row|] eqn:Hrow; [|done]. simpl.
      rewrite list.Forall_lookup in Bn. destruct (Bn o p Hp) as [_ Hrows].
      rewrite list.Forall_lookup in Hrows. destruct (Hrows s row Hrow) as [Hl _].
      rewrite take_ge by lia. done.
Qed.

(** ** Sums of rows and slices *)

Lemma qsum_pointwise (f : Qc) (l : list Qc) :
  forall (l' : list Qc) (g : nat -> Qc),
  length l' = length l ->
  (forall i x, l !! i = Some x -> l' !! i = Some (x * f + g i)) ->
  qsum l' = qsum l * f + qsum (g <$> seq 0 (length l)).
Proof.
  induction l as [|x l IH]; intros l' g Hlen Hpt.
  - destruct l'; [simpl; ring | discriminate].
  - destruct l' as [|y l']; [discriminate|].
    pose proof (Hpt 0%nat x eq_refl) as H0. simpl in H0. injection H0 as ->.
    change (seq 0 (length (x :: l))) with (0%nat :: seq 1 (length l)).
    rewrite fmap_cons, <- fmap_S_seq, <- list_fmap_compose.
    change (qsum (x * f + g 0%nat :: l'))
      with (x * f + g 0%nat + qsum l').
    change (qsum (x :: l)) with (x + qsum l).
    change (qsum (g 0%nat :: (g ∘ Datatypes.S <$> seq 0 (length l))))
      with (g 0%nat + qsum ((fun i => g (Datatypes.S i)) <$> seq 0 (length l))).
    rewrite (IH l' (fun i => g (Datatypes.S i))); [ring| |].
    + simpl in Hlen. lia.
    + intros i z Hz. exact (Hpt (Datatypes.S i) z Hz).
Qed.

Lemma qsum_cons (x : Qc) (l : list Qc) : qsum (x :: l) = x + qsum l.
Proof. reflexivity. Qed.

Lemma qsum_fmap_plus {A} (g h : A -> Qc) (l : list A) :
  qsum ((fun a => g a + h a) <$> l) = qsum (g <$> l) + qsum (h <$> l).
Proof.
  induction l as [|a l IH]; [simpl; ring|].
  rewrite !fmap_cons, !qsum_cons, IH. ring.
Qed.

Lemma qsum_indicator (c : Qc) (v : Z) (start n : nat) :
  qsum ((fun a => if decide (v = Z.of_nat a) then c else 0) <$> seq start n)
  = if bool_decide (Z.of_nat start ≤ v < Z.of_nat (start + n))%Z then c else 0.
Proof.
  revert start. induction n as [|n IH]; intros start.
  - simpl. rewrite bool_decide_eq_false_2 by lia. done.
  - change (seq start (Datatypes.S n)) with (start :: seq (Datatypes.S start) n).
    rewrite fmap_cons, qsum_cons, IH.
    destruct (decide (v = Z.of_nat start)) as [->|Hne].
    + rewrite bool_decide_eq_false_2 by lia.
      rewrite bool_decide_eq_true_2 by lia. ring.
    + repeat case_bool_decide; try ring; lia.
Qed.

Lemma tally_total (c : Qc) (row : list Z) (n : nat) :
  Forall (fun v => (0 ≤ v < Z.of_nat n)%Z) row ->
  qsum ((fun a => tally c (Z.of_nat a) row) <$> seq 0 n)
  = c * Qc_of_nat (length row).
Proof.
  induction 1 as [|v row Hv Hrow IH].
  - change (Qc_of_nat (length [])) with (Qc_of_Z 0). rewrite Z2Qc_inj_0.
    change (fun a => tally c (Z.of_nat a) []) with (fun _ : nat => (0 : Qc)).
    induction (seq 0 n) as [|a l IHl]; [simpl; ring|].
    rewrite fmap_cons, qsum_cons, IHl. ring.
  - change (fun a => tally c (Z.of_nat a) (v :: row))
      with (fun a => (if decide (v = Z.of_nat a) then c else 0)
                     + tally c (Z.of_nat a) row).
    change (length (v :: row)) with (Datatypes.S (length row)).
    rewrite (qsum_fmap_plus (fun a => if decide (v = Z.of_nat a) then c else 0)
               (fun a => tally c (Z.of_nat a) row)).
    rewrite IH, qsum_indicator. rewrite bool_decide_eq_true_2 by lia.
    unfold Qc_of_nat. rewrite Nat2Z.inj_succ, <- Z.add_1_r, Z2Qc_inj_add, Z2Qc_inj_1.
    ring.
Qed.

Lemma tally_nonneg (c : Qc) (a : Z) (row : list Z) : 0 ≤ c -> 0 ≤ tally c a row.
Proof.
  intros Hc. induction row as [|v row IH]; simpl; [done|].
  apply Qcplus_nonneg_nonneg; [|exact IH]. by destruct (decide _).
Qed.

Lemma Qc_of_nat_pos (k : nat) : k <> 0%nat -> 0 < Qc_of_nat k.
Proof.
  intros Hk. unfold Qc_of_nat. rewrite <- Z2Qc_inj_0.
  apply (proj1 (Z2Qc_inj_lt 0 (Z.of_nat k))). lia.
Qed.

Lemma share_total (lr : Qc) (k : nat) :
  k <> 0%nat -> lr / Qc_of_nat k * Qc_of_nat k = lr.
Proof.
  intros Hk. unfold Qcdiv. rewrite <- Qcmult_assoc, Qcmult_inv_l; [ring|].
  apply not_symmetry, Qclt_not_eq, Qc_of_nat_pos, Hk.
Qed.

Lemma share_nonneg (lr : Qc) (k : nat) : k <> 0%nat -> 0 ≤ lr -> 0 ≤ lr / Qc_of_nat k.
Proof.
  intros Hk Hlr. unfold Qcdiv. apply Qcmult_nonneg_nonneg; [exact Hlr|].
  apply Qclt_le_weak, Qcinv_pos, Qc_of_nat_pos, Hk.
Qed.

(** A list that is entry by entry a decayed distribution plus the tally of
    [k] samples is a distribution. *)
Lemma blend_is_distribution (lr : Qc) (k n : nat) (samples : list Z)
    (p p' : list Qc) :
  k <> 0%nat -> 0 ≤ lr -> lr ≤ 1 ->
  length samples = k -> Forall (fun v => (0 ≤ v < Z.of_nat n)%Z) samples ->
  length p = n -> length p' = n ->
  (forall i x, p !! i = Some x ->
     p' !! i = Some (x * (1 - lr) + tally (lr / Qc_of_nat k) (Z.of_nat i) samples)) ->
  is_distribution p -> is_distribution p'.
Proof.
  intros Hk H0 H1 Hlen Hs Hp Hp' Hpt [Hsum Hpos]. split.
  - rewrite (qsum_pointwise (1 - lr) p p'
               (fun i => tally (lr / Qc_of_nat k) (Z.of_nat i) samples));
      [|congruence|exact Hpt].
    rewrite Hp, (tally_total _ _ _ Hs), Hlen, share_total by done.
    rewrite Hsum. ring.
  - apply list.Forall_lookup. intros i y Hy.
    destruct (lookup_lt_is_Some_2 p i) as [x Hx].
    { apply lookup_lt_Some in Hy. lia. }
    rewrite (Hpt i x Hx) in Hy. injection Hy as <-.
    apply Qcplus_nonneg_nonneg.
    + apply Qcmult_nonneg_nonneg.
      * rewrite list.Forall_lookup in Hpos. by eapply Hpos.
      * apply Qcle_minus_iff in H1. exact H1.
    + apply tally_nonneg, share_nonneg; done.
Qed.

Lemma slice_lookup (T : list (list (list Qc))) (s o : nat) (p : list Qc) :
  slice T s o = Some p -> forall d, p !! d = get3 T s d o.
Proof.
  unfold slice, get3. intros H d.
  destruct (T !! s) as [m|]; [|discriminate]. simpl in *.
  apply mapM_Some_1 in H.
  destruct (m !! d) as [r|] eqn:Hr; simpl.
  - destruct (Forall2_lookup_l _ _ _ _ _ H Hr) as (x & Hx & Hro). congruence.
  - apply lookup_ge_None. apply lookup_ge_None in Hr.
    apply Forall2_length in H. lia.
Qed.

Lemma slice_length (T : list (list (list Qc))) (s o : nat) (m : list (list Qc))
    (p : list Qc) :
  T !! s = Some m -> slice T s o = Some p -> length p = length m.
Proof.
  unfold slice. intros -> H. simpl in H. apply mapM_Some_1 in H.
  symmetry. by eapply Forall2_length.
Qed.

Lemma slice_is_Some (T : list (list (list Qc))) (s o n : nat) (m : list (list Qc)) :
  T !! s = Some m -> Forall (fun r => length r = n) m -> (o < n)%nat ->
  is_Some (slice T s o).
Proof.
  unfold slice. intros -> Hm Ho. simpl. apply mapM_is_Some_2.
  eapply list.Forall_impl; [exact Hm|]. intros r Hr. simpl.
  apply lookup_lt_is_Some_2. rewrite Hr. exact Ho.
Qed.

Lemma shape3_lookup (T T0 : list (list (list Qc))) (s : nat) (m : list (list Qc)) :
  shape3 T = shape3 T0 -> T0 !! s = Some m ->
  exists m', T !! s = Some m' /\ shape2 m' = shape2 m.
Proof.
  intros Hsh Hm.
  assert (shape3 T !! s = Some (shape2 m)) as H
    by (rewrite Hsh; unfold shape3; by rewrite list_lookup_fmap, Hm).
  unfold shape3 in H. rewrite list_lookup_fmap in H.
  destruct (T !! s) as [m'|]; [|discriminate]. injection H as H. eauto.
Qed.

Lemma shape2_lookup (A A0 : list (list Qc)) (n : nat) (row : list Qc) :
  shape2 A = shape2 A0 -> A !! n = Some row ->
  exists row0, A0 !! n = Some row0 /\ length row0 = length row.
Proof.
  intros Hsh Hrow.
  assert (shape2 A0 !! n = Some (length row)) as H
    by (rewrite <- Hsh; unfold shape2; by rewrite list_lookup_fmap, Hrow).
  unfold shape2 in H. rewrite list_lookup_fmap in H.
  destruct (A0 !! n) as [row0|]; [|discriminate]. injection H as H. eauto.
Qed.

(** ** C1 and C2: the update of the two tables *)

(** C1.  For a batch of [k >= 1] elite samples of a well-formed controller,
    [updateProbabilitiesFromSamples] returns, changes nothing but the two
    tables, and every entry of either table is its old value times
    [1 - learningRate] plus [learningRate / k] for each of the [k] samples
    that took this action at this node, respectively this destination for
    this observation and start node. *)
Theorem update_scales_and_adds_elite_mass (c : FiniteStateController) (k : nat)
    (actions : IntArray2) (nodeObs : IntArray3) (lr : Qc) :
  wf_controller c -> wf_batch c k actions nodeObs -> k <> 0%nat ->
  exists c',
    updateProbabilitiesFromSamples (Batch actions nodeObs) lr c = (Returned tt, c') /\
    numNodes c' = numNodes c /\ numActions c' = numActions c /\
    numObservations c' = numObservations c /\ currentNode c' = currentNode c /\
    (forall n a x row,
       get2 (actionProbabilities c) n a = Some x ->
       rows2 actions !! n = Some row ->
       get2 (actionProbabilities c') n a
       = Some (x * (1 - lr) + tally (lr / Qc_of_nat k) (Z.of_nat a) row)) /\
    (forall o s d x plane row,
       get3 (nodeTransitionProbabilities c) s d o = Some x ->
       planes3 nodeObs !! o = Some plane -> plane !! s = Some row ->
       get3 (nodeTransitionProbabilities c') s d o
       = Some (x * (1 - lr) + tally (lr / Qc_of_nat k) (Z.of_nat d) row)).
Proof.
  intros Hc Hb Hk.
  destruct (update_batch_entries c k actions nodeObs lr Hc Hb Hk)
    as (A' & T' & Hrun & _ & _ & HgA & HgT).
  eexists. split; [exact Hrun|]. simpl. repeat split.
  - intros n a x row Hx Hrow. rewrite HgA, Hx. simpl. rewrite Hrow. done.
  - intros o s d x plane row Hx Hp Hrow. rewrite HgT, Hx. simpl.
    rewrite Hp. simpl. rewrite Hrow. done.
Qed.

(** C2.  With exact arithmetic in the place of floats: if every row of the
    action table and every slice of the transition table over the
    destinations is a distribution, and [learningRate] lies in [0, 1], the
    same holds after [updateProbabilitiesFromSamples] with a batch of
    [k >= 1] elite samples, and the sums are exactly 1. *)
Theorem update_preserves_distributions (c : FiniteStateController) (k : nat)
    (actions : IntArray2) (nodeObs : IntArray3) (lr : Qc) :
  wf_controller c -> wf_batch c k actions nodeObs -> k <> 0%nat ->
  0 ≤ lr -> lr ≤ 1 ->
  stochastic c ->
  exists c',
    updateProbabilitiesFromSamples (Batch actions nodeObs) lr c = (Returned tt, c') /\
    stochastic c'.
Proof.
  intros Hc Hb Hk H0 H1 [HA HT].
  destruct (update_batch_entries c k actions nodeObs lr Hc Hb Hk)
    as (A' & T' & Hrun & HshA & HshT & HgA & HgT).
  pose proof Hc as [HAr HAc HTs HTr]. pose proof Hb as [Bc Br Ba Bd1 Bd2 Bp Bn].
  eexists. split; [exact Hrun|]. split; simpl.
  - apply list.Forall_lookup. intros n row' Hrow'.
    destruct (shape2_lookup _ _ _ _ HshA Hrow') as (row & Hrow & Hlen).
    destruct (lookup_lt_is_Some_2 (rows2 actions) n) as [samples Hs].
    { apply lookup_lt_Some in Hrow. lia. }
    rewrite list.Forall_lookup in Ba. destruct (Ba n samples Hs) as [Hsl Hsv].
    rewrite list.Forall_lookup in HAc. pose proof (HAc n row Hrow) as Hnr.
    apply (blend_is_distribution lr k (numActions c) samples row row');
      try done; [congruence| |].
    + intros i x Hx. specialize (HgA n i). unfold get2 in HgA.
      rewrite Hrow', Hrow in HgA. simpl in HgA. rewrite Hx, Hs in HgA. exact HgA.
    + rewrite list.Forall_lookup in HA. by eapply HA.
  - intros s o Hs Ho.
    destruct (HT s o Hs Ho) as (p & Hp & Hdist).
    destruct (lookup_lt_is_Some_2 (nodeTransitionProbabilities c) s) as [m Hm]; [lia|].
    destruct (shape3_lookup _ _ _ _ HshT Hm) as (m' & Hm' & Hsh').
    rewrite list.Forall_lookup in HTr. destruct (HTr s m Hm) as [Hml Hmr].
    destruct (slice_is_Some T' s o (numObservations c) m' Hm') as [p' Hp'];
      [by eapply shape2_Forall|exact Ho|].
    exists p'. split; [exact Hp'|].
    destruct (batch_at3 c k actions nodeObs o s 0%nat Hb)
      as (plane & samples & _ & Hplane & Hsamples & _ & Hsl & _); [lia..|].
    rewrite list.Forall_lookup in Bn. destruct (Bn o plane Hplane) as [_ Hrows].
    rewrite list.Forall_lookup in Hrows. destruct (Hrows s samples Hsamples) as [_ Hsv].
    apply (blend_is_distribution lr k (numNodes c) samples p p'); try done.
    + by rewrite (slice_length _ _ _ _ _ Hm Hp).
    + rewrite (slice_length _ _ _ _ _ Hm' Hp'), (shape2_length _ _ Hsh'). done.
    + intros i x Hx. rewrite (slice_lookup _ _ _ _ Hp) in Hx.
      rewrite (slice_lookup _ _ _ _ Hp'), HgT, Hx. simpl.
      rewrite Hplane. simpl. rewrite Hsamples. done.
Qed.

Lemma update_scales_and_adds_elite_mass_witness :
  wf_controller c_two_nodes /\
  wf_batch c_two_nodes 2 two_elite_actions two_elite_nodes /\
  exists c',
    updateProbabilitiesFromSamples (Batch two_elite_actions two_elite_nodes) (q 1 5)
      c_two_nodes = (Returned tt, c') /\
    numNodes c' = 2%nat /\
    get2 (actionProbabilities c') 1 1
    = Some (q 1 2 * (1 - q 1 5) + tally (q 1 5 / Qc_of_nat 2) 1 [1; 1]%Z).
Proof.
  assert (Hc : wf_controller c_two_nodes).
  { split; simpl; repeat constructor. }
  assert (Hb : wf_batch c_two_nodes 2 two_elite_actions two_elite_nodes).
  { split; simpl; repeat constructor; simpl; lia. }
  split; [exact Hc|]. split; [exact Hb|].
  destruct (update_scales_and_adds_elite_mass c_two_nodes 2 two_elite_actions
              two_elite_nodes (q 1 5) Hc Hb) as (c' & Hrun & Hn & _ & _ & _ & HA & _).
  { lia. }
  exists c'. split; [exact Hrun|]. split; [exact Hn|].
  apply (HA 1%nat 1%nat (q 1 2) [1; 1]%Z); reflexivity.
Defined.

Lemma update_preserves_distributions_witness :
  wf_controller c_two_nodes /\
  wf_batch c_two_nodes 2 two_elite_actions two_elite_nodes /\
  0 ≤ q 1 5 /\ q 1 5 ≤ 1 /\ stochastic c_two_nodes /\
  exists c',
    updateProbabilitiesFromSamples (Batch two_elite_actions two_elite_nodes) (q 1 5)
      c_two_nodes = (Returned tt, c') /\
    stochastic c'.
Proof.
  assert (Hc : wf_controller c_two_nodes).
  { split; simpl; repeat constructor. }
  assert (Hb : wf_batch c_two_nodes 2 two_elite_actions two_elite_nodes).
  { split; simpl; repeat constructor; simpl; lia. }
  assert (H0 : 0 ≤ q 1 5) by (vm_compute; discriminate).
  assert (H1 : q 1 5 ≤ 1) by (vm_compute; discriminate).
  assert (Hhalf : is_distribution [q 1 2; q 1 2]).
  { split; [apply Qc_is_canon; reflexivity|].
    repeat constructor; vm_compute; discriminate. }
  assert (Hs : stochastic c_two_nodes).
  { split; simpl.
    - constructor; [exact Hhalf|]. constructor; [exact Hhalf|]. constructor.
    - intros s o Hs Ho. exists [q 1 2; q 1 2].
      assert (o = 0%nat) as -> by lia.
      split; [|exact Hhalf].
      destruct s as [|[|s]]; [reflexivity | reflexivity | lia]. }
  repeat (split; [assumption|]).
  apply (update_preserves_distributions c_two_nodes 2 two_elite_actions
           two_elite_nodes (q 1 5)); try assumption. lia.
Defined.

(** ** C7: the single-trajectory evaluator *)

(** C7 (the code departs from it).  [evaluateSample] iterates over the
    number [numSimulations] itself, not over [range(numSimulations)]: for
    every environment, horizon, number of repeats and policy instance it
    raises [TypeError] before the environment is reset or stepped, and
    returns no mean and no standard deviation. *)
Theorem evaluateSample_raises_TypeError {Env : Type}
    (env_discount : Env -> option Qc) (env_reset : M Env unit)
    (env_step : Z -> M Env (Z * Qc * bool)) (np_mean np_std : list Qc -> Qc)
    (timeHorizon numSimulations : nat)
    (actionTransitions : list Z) (nodeObservationTransitions : list (list Z))
    (env : Env) :
  evaluateSample env_discount env_reset env_step np_mean np_std
    timeHorizon numSimulations actionTransitions nodeObservationTransitions env
  = (Raised TypeError, env).
Proof. reflexivity. Qed.

(** ** C6: the choice of the evaluation strategy *)

Section StrategyChoice.
Context {G Gn : Type}.
Variable multinomial_argmax : list Qc -> G -> nat * G.
Variable randint : nat -> G -> nat * G.
Variables np_mean np_std : list Qc -> Qc.
Variable npr_choice : nat -> nat -> list Qc -> M Gn (list Z).
Variable argsort : list Qc -> list nat.

(** C6 (the code departs from it).  A pool object does not pass the test of
    line 48, which asks for an instance of the class of bound methods: the
    strategy chosen for it is the vectorized one, and the whole run with a
    pool object is the run without a pool. *)
Theorem pool_object_is_evaluated_vectorized (params : RunParams)
    (convergenceThreshold : Qc) (saveFrequency : nat) (w : World) :
  chooseStrategy ParPool = VectorizedBatch /\
  runGDICEOnEnvironment multinomial_argmax randint np_mean np_std npr_choice argsort
    params ParPool convergenceThreshold saveFrequency w
  = runGDICEOnEnvironment multinomial_argmax randint np_mean np_std npr_choice argsort
      params ParNone convergenceThreshold saveFrequency w.
Proof. split; reflexivity. Qed.
End StrategyChoice.

(** ** C9: the batched step and the attribute [state] *)

Section StateFrame.
Context {G : Type}.
Variable multinomial_argmax : list Qc -> G -> nat * G.

Lemma keeps_ret {A} (a : A) : keeps_state (G:=G) (mret a).
Proof. intros w. reflexivity. Qed.

Lemma keeps_raise {A} (e : exn) : keeps_state (G:=G) (raise (A:=A) e).
Proof. intros w. reflexivity. Qed.

Lemma keeps_get : keeps_state (G:=G) get.
Proof. intros w. reflexivity. Qed.

Lemma keeps_orRaise {A} (e : exn) (o : option A) : keeps_state (G:=G) (orRaise e o).
Proof. intros w. by destruct o. Qed.

Lemma keeps_bind {A B} (m : M (MultiActionPOMDP G) A)
    (k : A -> M (MultiActionPOMDP G) B) :
  keeps_state m -> (forall a, keeps_state (k a)) -> keeps_state (m ≫= k).
Proof.
  intros Hm Hk w. rewrite bind_unfold. specialize (Hm w).
  destruct (m w) as [[a|e] w1]; simpl in *; [|exact Hm].
  rewrite (Hk a w1). exact Hm.
Qed.

Lemma keeps_draw (p : list Qc) : keeps_state (draw multinomial_argmax p).
Proof.
  intros w. unfold draw. by destruct (multinomial_argmax p (np_random (env w))).
Qed.

Lemma keeps_forM {A B} (xs : list A) (f : A -> M (MultiActionPOMDP G) B) :
  (forall x, keeps_state (f x)) -> keeps_state (forM xs f).
Proof.
  intros Hf. induction xs as [|x xs IH]; simpl.
  - apply (keeps_ret []).
  - apply keeps_bind; [apply Hf|]. intros y.
    apply keeps_bind; [exact IH|]. intros ys. apply (keeps_ret (y :: ys)).
Qed.

Lemma keeps_with_states (s : list Z) : keeps_state (G:=G) (modify (with_states s)).
Proof. intros w. reflexivity. Qed.

Lemma stepActions_keeps_state (actions : list Z) :
  keeps_state (stepActions multinomial_argmax actions).
Proof.
  unfold stepActions.
  apply keeps_bind; [apply keeps_get|]. intros self.
  repeat (apply keeps_bind;
          [first [apply keeps_orRaise | apply keeps_forM; intros; apply keeps_draw]|];
          intros ?).
  apply keeps_bind.
  { destruct (decide _); [apply keeps_raise | apply (keeps_ret tt)]. }
  intros _.
  repeat (apply keeps_bind;
          [first [apply keeps_orRaise | apply keeps_forM; intros; apply keeps_draw]|];
          intros ?).
  apply keeps_bind.
  { destruct (episodic (env self)); [|apply keeps_ret].
    apply keeps_bind; [apply keeps_orRaise|]. intros sa.
    apply keeps_bind; [apply keeps_orRaise|]. intros ds.
    destruct (decide _); [apply keeps_ret|].
    destruct ds as [|d [|? ?]]; [apply keeps_raise | apply keeps_ret | apply keeps_raise]. }
  intros done.
  apply keeps_bind; [apply keeps_with_states|]. intros _. apply keeps_ret.
Qed.
End StateFrame.

Section StatesAssigned.
Context {G : Type}.
Variable multinomial_argmax : list Qc -> G -> nat * G.

Lemma assigns_bind {A B} (m : M (MultiActionPOMDP G) A)
    (k : A -> M (MultiActionPOMDP G) B) :
  (forall a, assigns_states (k a)) -> assigns_states (m ≫= k).
Proof.
  intros Hk w. rewrite bind_unfold.
  destruct (m w) as [[a|e] w1]; [apply Hk | exact I].
Qed.

Lemma stepActions_assigns_states (actions : list Z) :
  assigns_states (stepActions multinomial_argmax actions).
Proof.
  unfold stepActions.
  repeat match goal with
         | |- assigns_states (?m ≫= _) =>
             lazymatch m with
             | modify _ => fail
             | _ => apply assigns_bind; intros ?
             end
         end.
  intros w. simpl. by eexists.
Qed.

Lemma batchLoop_keeps_state (remaining : nat) (gamma : Qc)
    (actionTransitions : IntArray2) (nodeObservationTransitions : IntArray3)
    (sampleIndices : list Z) :
  forall (currentNodes : list Z) (currentTimestep : nat) (values : list Qc)
         (isDones : list bool),
  keeps_state (batchLoop multinomial_argmax remaining gamma actionTransitions
                 nodeObservationTransitions sampleIndices currentNodes
                 currentTimestep values isDones).
Proof.
  induction remaining as [|remaining IH]; intros cn t v ds; simpl.
  - destruct (forallb id ds); apply keeps_ret.
  - destruct (forallb id ds); [apply keeps_ret|].
    apply keeps_bind; [apply keeps_orRaise|]. intros acts.
    apply keeps_bind; [apply stepActions_keeps_state|]. intros [[obs rewards] ds'].
    apply keeps_bind; [apply keeps_orRaise|]. intros cn'.
    apply keeps_bind; [apply keeps_orRaise|]. intros v'.
    apply IH.
Qed.

(** C9.  A call of [step] with an array of actions leaves the attribute
    [state] of the wrapper as it was, whether it returns or raises; when it
    returns, the states it sampled are in the other attribute, [states].  So
    the stepping loop of the batched rollout, however many steps it takes,
    ends with the [state] it started with: every step samples from the
    states that [reset] drew. *)
Theorem batched_step_leaves_state_unchanged (actions : list Z)
    (w : MultiActionPOMDP G) :
  state (step multinomial_argmax (Actions actions) w).2 = state w /\
  match step multinomial_argmax (Actions actions) w with
  | (Returned _, w') => is_Some (states w')
  | (Raised _, _) => True
  end /\
  forall (remaining : nat) (gamma : Qc) (actionTransitions : IntArray2)
         (nodeObservationTransitions : IntArray3) (sampleIndices currentNodes : list Z)
         (currentTimestep : nat) (values : list Qc) (isDones : list bool),
    state (batchLoop multinomial_argmax remaining gamma actionTransitions
             nodeObservationTransitions sampleIndices currentNodes
             currentTimestep values isDones w).2 = state w.
Proof.
  split; [|split].
  - apply (keeps_bind (stepActions multinomial_argmax actions));
      [apply stepActions_keeps_state | intros r; apply keeps_ret].
  - unfold step. rewrite bind_unfold.
    pose proof (stepActions_assigns_states actions w) as H.
    by destruct (stepActions multinomial_argmax actions w) as [[r|e] w1].
  - intros. apply batchLoop_keeps_state.
Qed.
End StatesAssigned.

(** ** C8: trajectories that are done *)

(** C8 (the code departs from it).  Two trajectories, of which [reset] puts
    the first in state 0 and the second in state 1; a horizon of two steps.
    The first step reports the first trajectory done and the second not.
    As the batched [step] tells a finished trajectory by [state == -1] and
    never writes [state], the second step samples the first trajectory
    again and pays it again: its return is 2 and not 1. *)
Theorem done_trajectory_is_stepped_and_paid_again :
  (MultiActionPOMDP_reset scripted_draw scripted_randint wrapper_before_reset).2
  = wrapper_two_trajectories /\
  (stepActions scripted_draw [0; 0]%Z wrapper_two_trajectories).1
  = Returned ([0; 0]%Z, [q 1 1; q 1 1], [true; false]) /\
  (evaluateSamplesMultiEnv scripted_draw scripted_randint mean std_of_one 2 1
     two_policies_actions two_policies_nodes wrapper_before_reset).1
  = Returned ([q 2 1; q 2 1], [q 0 1; q 0 1]).
Proof. repeat split; vm_compute; reflexivity. Qed.

(** ** The iterations of [runGDICEOnEnvironment] *)

Ltac inv_bind H :=
  let a := fresh "a" in
  let s := fresh "s" in
  let E := fresh "E" in
  apply bind_Returned in H as (a & s & E & H).

Ltac open_pair H :=
  match type of H with
  | context [match ?x with pair _ _ => _ end] => is_var x; destruct x
  end.

Lemma convergenceCheck_zero (controllerChange : bool) (iterBestValue bestValue : fval)
    (iteration marker : nat) :
  (convergenceCheck 0 controllerChange iterBestValue bestValue iteration marker).1
  = false.
Proof.
  unfold convergenceCheck. destruct (fval_ltb _ _); [reflexivity|].
  rewrite bool_decide_eq_false_2 by (intros H; by apply H). reflexivity.
Qed.

Section Iterations.
Context {G Gn : Type}.
Variable multinomial_argmax : list Qc -> G -> nat * G.
Variable randint : nat -> G -> nat * G.
Variables np_mean np_std : list Qc -> Qc.
Variable npr_choice : nat -> nat -> list Qc -> M Gn (list Z).
Variable argsort : list Qc -> list nat.

Lemma iterationBody_returns (params : RunParams) (parallel : parallel_arg)
    (convergenceThreshold : Qc) (saveFrequency iteration : nat)
    (st st' : RunState) (w w' : World) (b : bool) :
  iterationBody multinomial_argmax randint np_mean np_std npr_choice argsort
    params parallel convergenceThreshold saveFrequency iteration st w
  = (Returned (b, st'), w') ->
  worstValueOfPreviousIteration st' = worstValueOfPreviousIteration st /\
  is_Some (bestValueAtEachIteration st !! iteration) /\
  bestValueAtEachIteration st'
  = <[iteration := Some (bestValue st')]> (bestValueAtEachIteration st) /\
  (convergenceThreshold = 0 -> b = false).
Proof.
  intros H. unfold iterationBody in H.
  repeat first [inv_bind H | open_pair H].
  match goal with
  | E : orRaise IndexError (bestValueAtEachIteration st !! iteration ≫= _) _ = _ |- _ =>
      destruct (bestValueAtEachIteration st !! iteration) as [old|] eqn:Hold;
        [simpl in E; injection E as <- <- | discriminate E]
  end.
  destruct (convergenceCheck _ _ _ _ _ _) as [[|] marker] eqn:Hcc.
  - injection H as <- <- <-. simpl.
    repeat split; try done.
    intros ->. pose proof (convergenceCheck_zero b0 NInf f iteration
                             (estimatedConvergenceIteration st)) as Hz.
    rewrite Hcc in Hz. discriminate Hz.
  - rewrite bind_unfold in H.
    destruct (bool_decide _ && bool_decide _); simpl in H;
      injection H as <- <- <-; simpl; repeat split; done.
Qed.

Lemma forBreak_preserves {S A B} (P : B -> Prop) (xs : list A)
    (body : A -> B -> M S (bool * B)) :
  (forall x b1 s1 r s2, P b1 -> body x b1 s1 = (Returned r, s2) -> P r.2) ->
  forall b s b' s', P b -> forBreak xs body b s = (Returned b', s') -> P b'.
Proof.
  intros Hbody. induction xs as [|x xs IH]; intros b s b' s' Hb H.
  - injection H as <- <-. exact Hb.
  - simpl in H. apply bind_Returned in H as (r & s1 & Hr & H).
    pose proof (Hbody x b s r s1 Hb Hr) as Hr'.
    destruct r as [[|] b1]; simpl in *.
    + injection H as <- <-. exact Hr'.
    + exact (IH b1 s1 b' s' Hr' H).
Qed.

Lemma forBreak_no_break {S A B} (I : nat -> B -> Prop) (xs : list A)
    (body : A -> B -> M S (bool * B)) :
  (forall i x b1 s1 r s2, xs !! i = Some x -> I i b1 ->
     body x b1 s1 = (Returned r, s2) -> r.1 = false /\ I (Datatypes.S i) r.2) ->
  forall b s b' s', I 0%nat b -> forBreak xs body b s = (Returned b', s') ->
    I (length xs) b'.
Proof.
  revert I. induction xs as [|x xs IH]; intros I Hbody b s b' s' Hb H.
  - injection H as <- <-. exact Hb.
  - simpl in H. apply bind_Returned in H as (r & s1 & Hr & H).
    destruct (Hbody 0%nat x b s r s1 eq_refl Hb Hr) as [Hflag Hr'].
    rewrite Hflag in H.
    apply (IH (fun i => I (Datatypes.S i))) in H; [exact H | | exact Hr'].
    intros i y b1 s2 r' s3 Hy. apply (Hbody (Datatypes.S i) y b1 s2 r' s3 Hy).
Qed.

Lemma run_is_the_loop (params : RunParams) (parallel : parallel_arg)
    (convergenceThreshold : Qc) (saveFrequency : nat)
    (w w' : World) (st : RunState) :
  runGDICEOnEnvironment multinomial_argmax randint np_mean np_std npr_choice argsort
    params parallel convergenceThreshold saveFrequency w = (Returned st, w') ->
  exists w1,
    forBreak (seq 0 (numIterations (gdice params)))
      (iterationBody multinomial_argmax randint np_mean np_std npr_choice argsort
         params parallel convergenceThreshold saveFrequency)
      (initialRunState (gdice params)) w1 = (Returned st, w').
Proof.
  unfold runGDICEOnEnvironment. intros H.
  rewrite bind_unfold in H. simpl in H.
  destruct (decide _); [|discriminate H].
  destruct (decide _); [|discriminate H].
  apply bind_Returned in H as (? & w1 & _ & H). eauto.
Qed.

(** The floor of the quality gate is the same in every iteration. *)
Lemma floor_is_never_assigned (params : RunParams) (parallel : parallel_arg)
    (convergenceThreshold : Qc) (saveFrequency : nat)
    (w w' : World) (st : RunState) :
  runGDICEOnEnvironment multinomial_argmax randint np_mean np_std npr_choice argsort
    params parallel convergenceThreshold saveFrequency w = (Returned st, w') ->
  worstValueOfPreviousIteration st = NInf.
Proof.
  intros H. apply run_is_the_loop in H as (w1 & H).
  refine (forBreak_preserves (fun st => worstValueOfPreviousIteration st = NInf)
            _ _ _ (initialRunState (gdice params)) w1 st w' eq_refl H).
  intros x b1 s1 [b st'] s2 Hb Hbody. simpl.
  apply iterationBody_returns in Hbody as (Hfloor & _). congruence.
Qed.

(** ** C5: the convergence test *)

(** C5, as amended.  With [convergenceThreshold = 0] the loop never stops
    early: no iteration takes the [break], so that a run that returns has
    gone through all [numIterations] iterations, each of which has assigned
    its entry of [bestValueAtEachIteration]. *)
Theorem zero_threshold_runs_every_iteration (params : RunParams)
    (parallel : parallel_arg) (saveFrequency : nat)
    (w w' : World) (st : RunState) :
  runGDICEOnEnvironment multinomial_argmax randint np_mean np_std npr_choice argsort
    params parallel 0 saveFrequency w = (Returned st, w') ->
  length (bestValueAtEachIteration st) = numIterations (gdice params) /\
  Forall is_Some (bestValueAtEachIteration st).
Proof.
  intros H. apply run_is_the_loop in H as (w1 & H).
  set (n := numIterations (gdice params)) in *.
  pose (I := fun (i : nat) (st : RunState) =>
    length (bestValueAtEachIteration st) = n /\
    forall j, (j < i)%nat -> (j < n)%nat ->
      exists v, bestValueAtEachIteration st !! j = Some (Some v)).
  assert (Hfin : I (length (seq 0 n)) st).
  { refine (forBreak_no_break I _ _ _ (initialRunState (gdice params)) w1 st w' _ H).
    - intros i x b1 s1 [b st'] s2 Hx [Hlen Hdone] Hbody. simpl.
      apply lookup_seq in Hx as [-> Hi]. simpl in Hi.
      apply iterationBody_returns in Hbody as (_ & _ & Hhist & Hflag).
      split; [by apply Hflag|]. split.
      + by rewrite Hhist, length_insert.
      + intros j Hj Hjn. rewrite Hhist.
        destruct (decide (j = i)) as [->|Hne].
        * eexists. apply list_lookup_insert_eq. lia.
        * rewrite list_lookup_insert_ne by done. apply Hdone; lia.
    - split; [apply length_replicate|]. intros j Hj. lia. }
  rewrite length_seq in Hfin. destruct Hfin as [Hlen Hall].
  split; [exact Hlen|]. apply list.Forall_lookup. intros j e He.
  destruct (Hall j) as [v Hv].
  - apply lookup_lt_Some in He. lia.
  - apply lookup_lt_Some in He. lia.
  - rewrite Hv in He. injection He as <-. by eexists.
Qed.
End Iterations.

Ltac qc_eq :=
  vm_compute;
  repeat match goal with
         | |- @eq Qc _ _ => apply Qc_is_canon; reflexivity
         | |- _ = _ => reflexivity
         | |- _ = _ => f_equal
         end.

Lemma zero_threshold_runs_every_iteration_witness :
  exists st w',
    run_closed params_converging 0 script_converging = (Returned st, w') /\
    length (bestValueAtEachIteration st) = 4%nat /\
    Forall is_Some (bestValueAtEachIteration st).
Proof.
  unfold run_closed.
  assert (Hrun : exists st w',
            runGDICEOnEnvironment scripted_draw scripted_randint mean std_of_one
              scripted_choice stable_argsort params_converging ParNone 0 0
              (world script_converging) = (Returned st, w')).
  { vm_compute. do 2 eexists. reflexivity. }
  destruct Hrun as (st & w' & Hrun). exists st, w'. split; [exact Hrun|].
  apply (zero_threshold_runs_every_iteration _ _ _ _ _ _ _ _ _ _ _ _ Hrun).
Defined.

(** C5, as stated, fails on the code.  The best return of the closed run is
    0 in iteration 0 and 1 from iteration 1 on, and the threshold is 0: the
    run goes through all four iterations and leaves the marker at 0, where
    the claim has it stop after the value has stopped improving, with the
    marker at 1. *)
Lemma convergence_is_not_detected :
  exists st w',
    run_closed params_converging 0 script_converging = (Returned st, w') /\
    bestValueAtEachIteration st
    = [Some (Fin (q 0 1)); Some (Fin (q 1 1)); Some (Fin (q 1 1)); Some (Fin (q 1 1))] /\
    estimatedConvergenceIteration st = 0%nat /\
    estimatedConvergenceIteration st <> 1%nat.
Proof.
  do 2 eexists. split; [vm_compute; reflexivity|].
  split; [qc_eq|]. split; [reflexivity | discriminate].
Qed.

(** The same run with a threshold of 1/10: the comparison of line 89 has
    [np.NINF] on its left in every iteration, and the run is the same. *)
Lemma stalled_value_is_not_detected :
  exists st w',
    run_closed params_converging (q 1 10) script_converging = (Returned st, w') /\
    Forall is_Some (bestValueAtEachIteration st) /\
    estimatedConvergenceIteration st = 0%nat.
Proof.
  do 2 eexists. split; [vm_compute; reflexivity|].
  split; [|reflexivity]. repeat constructor; by eexists.
Qed.

(** ** C4: the floor of the quality gate *)

(** C4 (the code departs from it).  In the closed run both samples of
    iteration 0 are elite with return 1, so that the floor of iteration 1
    should be 1; the samples of iteration 1 return 0 and 1.  The floor is
    still [np.NINF] at the end, and the sample that returned 0 took part in
    the update of iteration 1: the action table ends as [3/8, 5/8], where
    the update with the one sample above the floor gives [1/8, 7/8]. *)
Theorem floor_is_not_recomputed :
  exists st w',
    run_closed params_floor 0 script_floor = (Returned st, w') /\
    allValues st = [[q 1 1; q 1 1]; [q 0 1; q 1 1]] /\
    worstValueOfPreviousIteration st = NInf /\
    actionProbabilities (controller w') = [[q 3 8; q 5 8]].
Proof.
  do 2 eexists. split; [vm_compute; reflexivity|].
  split; [qc_eq|]. split; [reflexivity | qc_eq].
Qed.

(** The run of C3's empty elite set: a value threshold that no sample
    reaches ends the run with [ZeroDivisionError] in its first iteration. *)
Lemma unreachable_threshold_ends_the_run :
  (run_closed params_unreachable 0 script_floor).1 = Raised ZeroDivisionError.
Proof. vm_compute. reflexivity. Qed.

(** ** C10: what is checked before the loop *)

(** C10, as stated, fails on the code.  [GDICEParams.__init__] accepts a
    learning rate of 2 with three elite samples out of two, and negative
    values as well.  With the first of these objects both loops run: that
    of [Algorithms.py] samples (two rows of the script are consumed) and
    returns, and so does that of [generalGDICE.py], which takes the object
    of the constructor itself. *)
Lemma parameters_out_of_range_are_accepted :
  GDICEParams_init 1 2 3 (q 2 1) None
  = Returned (mkAttributes 1 2 3 (q 2 1) None) /\
  GDICEParams_init (-1) (-2) (-3) (q (-1) 1) None
  = Returned (mkAttributes (-1) (-2) (-3) (q (-1) 1) None) /\
  gdice params_out_of_range = mkParams 1 2 3 (q 2 1) None /\
  (exists st w',
     run_closed params_out_of_range 0 script_floor = (Returned st, w') /\
     npr w' = [[0; 1]; [0; 0]]%Z) /\
  (exists r w',
     evaluateFSCOnEnvironment scripted_draw scripted_randint scripted_choice
       stable_argsort (ret tt) (gdice params_out_of_range) 1 ParNone
       (world_discounted script_floor) = (Returned r, w') /\
     npr w' = [[0; 1]; [0; 0]]%Z).
Proof.
  split; [reflexivity|]. split; [reflexivity|]. split; [reflexivity|]. split.
  - do 2 eexists. split; [vm_compute; reflexivity | reflexivity].
  - do 2 eexists. split; [vm_compute; reflexivity | reflexivity].
Qed.

Section Checks.
Context {G Gn : Type}.
Variable multinomial_argmax : list Qc -> G -> nat * G.
Variable randint : nat -> G -> nat * G.
Variables np_mean np_std : list Qc -> Qc.
Variable npr_choice : nat -> nat -> list Qc -> M Gn (list Z).
Variable argsort : list Qc -> list nat.

(** C10, as amended.  No field of the parameters is validated.
    [GDICEParams.__init__] raises nothing and stores its five arguments as
    they come, whatever they are.  And for every parameter record (with
    counts that are not negative), every threshold and every world, all
    that the run does before its loop is this: when the number of actions
    or of observations of the environment differs from that of the
    controller it raises [AssertionError] and leaves the controller, the
    environment and the generators as they were (nothing has been reset or
    sampled); otherwise it resets the controller and, unless the reset
    itself raised, goes into the first iteration with the parameters as
    they are.  No value of [learningRate], [numBestSamples], [numSamples],
    [valueThreshold] or of any other field makes the run raise before the
    loop. *)
Theorem only_dimensions_are_checked
    (iterations samples bestSamples : Z) (rate : Qc) (threshold : option Qc)
    (params : RunParams) (parallel : parallel_arg)
    (convergenceThreshold : Qc) (saveFrequency : nat) (w : World) :
  (exists o,
     GDICEParams_init iterations samples bestSamples rate threshold = Returned o /\
     attr_numIterations o = iterations /\
     attr_numSamples o = samples /\
     attr_numBestSamples o = bestSamples /\
     attr_learningRate o = rate /\
     attr_valueThreshold o = threshold) /\
  runGDICEOnEnvironment multinomial_argmax randint np_mean np_std npr_choice argsort
    params parallel convergenceThreshold saveFrequency w
  = if decide (action_space_n (environment w) = numActions (controller w) /\
               observation_space_n (environment w) = numObservations (controller w))
    then match reset (controller w) with
         | (Returned _, c') =>
             forBreak (seq 0 (numIterations (gdice params)))
               (iterationBody multinomial_argmax randint np_mean np_std npr_choice
                  argsort params parallel convergenceThreshold saveFrequency)
               (initialRunState (gdice params)) (with_controller c' w)
         | (Raised e, c') => (Raised e, with_controller c' w)
         end
    else (Raised AssertionError, w).
Proof.
  split; [by eexists|].
  unfold runGDICEOnEnvironment. rewrite bind_unfold.
  change (get w) with (Returned w, w). cbv beta iota.
  destruct (decide (action_space_n (environment w) = numActions (controller w)))
    as [Ha|Ha].
  - destruct (decide (observation_space_n (environment w)
                      = numObservations (controller w))) as [Ho|Ho].
    + rewrite decide_True by done.
      rewrite bind_unfold. unfold zoom.
      by destruct (reset (controller w)) as [[[]|e] c'].
    + rewrite decide_False by tauto. reflexivity.
  - rewrite decide_False by tauto. reflexivity.
Qed.
End Checks.

(** A controller with three actions on the environment with two: the run
    ends in [AssertionError] with the world as it was. *)
Lemma mismatched_dimensions_end_the_run :
  runGDICEOnEnvironment scripted_draw scripted_randint mean std_of_one
    scripted_choice stable_argsort params_out_of_range ParNone 0 0 world_mismatched
  = (Raised AssertionError, world_mismatched).
Proof. reflexivity. Qed.

(** * Further properties of the code *)

(** ** [FiniteStateController.reset] *)

Lemma qsum_replicate (n : nat) (x : Qc) : qsum (replicate n x) = Qc_of_nat n * x.
Proof.
  induction n as [|n IH].
  - change (Qc_of_nat 0) with (Qc_of_Z 0). rewrite Z2Qc_inj_0. simpl. ring.
  - change (replicate (Datatypes.S n) x) with (x :: replicate n x).
    rewrite qsum_cons, IH. unfold Qc_of_nat.
    rewrite Nat2Z.inj_succ, <- Z.add_1_r, Z2Qc_inj_add, Z2Qc_inj_1. ring.
Qed.

Lemma uniform_is_distribution (n : nat) :
  n <> 0%nat -> is_distribution (replicate n (1 / Qc_of_nat n)).
Proof.
  intros Hn. split.
  - rewrite qsum_replicate, Qcmult_comm. apply share_total, Hn.
  - apply Forall_replicate. apply share_nonneg; [exact Hn | done].
Qed.

Lemma slice_full3 (a b c : nat) (x : Qc) (s o : nat) :
  (s < a)%nat -> (o < c)%nat -> slice (full3 a b c x) s o = Some (replicate b x).
Proof.
  intros Hs Ho. unfold slice, full3.
  rewrite lookup_replicate_2 by exact Hs. simpl.
  apply mapM_Some_2. apply Forall2_replicate.
  by apply lookup_replicate_2.
Qed.

Lemma reset_run (c : FiniteStateController) :
  reset c
  = if decide (numActions c = 0%nat)
    then (Raised ZeroDivisionError, with_currentNode None c)
    else if decide (numNodes c = 0%nat)
    then (Raised ZeroDivisionError,
          with_actionProbabilities [] (with_currentNode None c))
    else (Returned tt,
          with_nodeTransitionProbabilities
            (full3 (numNodes c) (numNodes c) (numObservations c)
               (1 / Qc_of_nat (numNodes c)))
            (with_actionProbabilities
               (full2 (numNodes c) (numActions c) (1 / Qc_of_nat (numActions c)))
               (with_currentNode None c))).
Proof.
  unfold reset, setNode, initActionNodeProbabilityTable,
    initObservationNodeTransitionProbabilityTable, mbind, M_bind, bind, modify,
    get, put, orRaise, int_recip, ret, raise.
  simpl.
  destruct (decide (numActions c = 0%nat)) as [HA|HA]; [reflexivity|]. simpl.
  destruct (decide (numNodes c = 0%nat)) as [HN|HN]; [|reflexivity]. simpl.
  rewrite HN. reflexivity.
Qed.

(** X1.  On a controller with at least one node and one action, [reset]
    returns, clears the current node, and leaves the two tables uniform
    ([1/numActions] and [1/numNodes] everywhere) with the sizes the
    controller states: every row and every slice over the destinations
    sums to exactly 1. *)
Theorem reset_gives_uniform_distributions (c : FiniteStateController) :
  numActions c <> 0%nat -> numNodes c <> 0%nat ->
  exists c',
    reset c = (Returned tt, c') /\
    numNodes c' = numNodes c /\ numActions c' = numActions c /\
    numObservations c' = numObservations c /\ currentNode c' = None /\
    actionProbabilities c'
    = full2 (numNodes c) (numActions c) (1 / Qc_of_nat (numActions c)) /\
    nodeTransitionProbabilities c'
    = full3 (numNodes c) (numNodes c) (numObservations c) (1 / Qc_of_nat (numNodes c)) /\
    wf_controller c' /\ stochastic c'.
Proof.
  intros HA HN. eexists. split.
  { rewrite reset_run, !decide_False by done. reflexivity. }
  simpl. repeat split; simpl.
  - apply length_replicate.
  - apply Forall_replicate, length_replicate.
  - apply length_replicate.
  - apply Forall_replicate. split; [apply length_replicate|].
    apply Forall_replicate, length_replicate.
  - apply Forall_replicate, uniform_is_distribution, HA.
  - intros s o Hs Ho. exists (replicate (numNodes c) (1 / Qc_of_nat (numNodes c))).
    split; [by apply slice_full3 | by apply uniform_is_distribution].
Qed.

Lemma reset_gives_uniform_distributions_witness :
  exists c',
    reset c_two_nodes = (Returned tt, c') /\
    actionProbabilities c' = full2 2 2 (1 / Qc_of_nat 2) /\
    stochastic c'.
Proof.
  destruct (reset_gives_uniform_distributions c_two_nodes)
    as (c' & Hrun & _ & _ & _ & _ & HA & _ & _ & Hs); [simpl; lia..|].
  exists c'. split; [exact Hrun|]. split; [exact HA | exact Hs].
Defined.

(** X2.  [reset] raises exactly when the controller has no action or no
    node; what it raises is [ZeroDivisionError], and the transition table is
    then as it was before the call. *)
Theorem reset_raises_on_empty_dimensions (c : FiniteStateController) :
  match reset c with
  | (Returned _, _) => numActions c <> 0%nat /\ numNodes c <> 0%nat
  | (Raised e, c') =>
      e = ZeroDivisionError /\
      (numActions c = 0%nat \/ numNodes c = 0%nat) /\
      nodeTransitionProbabilities c' = nodeTransitionProbabilities c
  end.
Proof.
  rewrite reset_run.
  destruct (decide (numActions c = 0%nat)) as [HA|HA]; [by auto|].
  destruct (decide (numNodes c = 0%nat)) as [HN|HN]; by auto.
Qed.

(** ** Frames *)

Section Preserves.
Context {S X : Type}.
Variable f : S -> X.

Lemma preserves_ret {A} (a : A) : preserves f (mret a).
Proof. intros s. reflexivity. Qed.

Lemma preserves_raise {A} (e : exn) : preserves f (raise (A:=A) e).
Proof. intros s. reflexivity. Qed.

Lemma preserves_get : preserves f get.
Proof. intros s. reflexivity. Qed.

Lemma preserves_orRaise {A} (e : exn) (o : option A) : preserves f (orRaise e o).
Proof. intros s. by destruct o. Qed.

Lemma preserves_bind {A B} (m : M S A) (k : A -> M S B) :
  preserves f m -> (forall a, preserves f (k a)) -> preserves f (m ≫= k).
Proof.
  intros Hm Hk s. rewrite bind_unfold. specialize (Hm s).
  destruct (m s) as [[a|e] s1]; simpl in *; [|exact Hm].
  rewrite (Hk a s1). exact Hm.
Qed.

Lemma preserves_modify (g : S -> S) :
  (forall s, f (g s) = f s) -> preserves f (modify g).
Proof. intros Hg s. apply Hg. Qed.

Lemma preserves_forEach {A} (xs : list A) (body : A -> M S unit) :
  (forall x, preserves f (body x)) -> preserves f (forEach xs body).
Proof.
  intros Hb. induction xs as [|x xs IH]; simpl.
  - apply (preserves_ret tt).
  - apply preserves_bind; [apply Hb | intros _; exact IH].
Qed.

Lemma preserves_forM {A B} (xs : list A) (g : A -> M S B) :
  (forall x, preserves f (g x)) -> preserves f (forM xs g).
Proof.
  intros Hg. induction xs as [|x xs IH]; simpl.
  - apply (preserves_ret []).
  - apply preserves_bind; [apply Hg|]. intros y.
    apply preserves_bind; [exact IH|]. intros ys. apply (preserves_ret (y :: ys)).
Qed.
End Preserves.

Lemma bind_get {S B} (k : S -> M S B) (s : S) : (get ≫= k) s = k s s.
Proof. reflexivity. Qed.

Lemma bind_put {S B} (x : S) (k : unit -> M S B) (s : S) : (put x ≫= k) s = k tt x.
Proof. reflexivity. Qed.

Lemma bind_orRaise {S A B} (e : exn) (o : option A) (k : A -> M S B) (s : S) :
  (orRaise e o ≫= k) s = match o with Some a => k a s | None => (Raised e, s) end.
Proof. by destruct o. Qed.

(** ** [updateProbabilitiesFromSamples], whatever its arguments *)

Lemma shape2_set2 (A : list (list Qc)) (i j : nat) (v : Qc) :
  shape2 (set2 A i j v) = shape2 A.
Proof.
  apply (get2_alter_row A (set2 A i j v)
           (fun n row => if decide (i = n) then <[j := v]> row else row)).
  - intros n. unfold set2. destruct (decide (i = n)) as [->|Hne].
    + by rewrite list_lookup_alter_eq.
    + rewrite list_lookup_alter_ne by done. by destruct (A !! n).
  - intros n row. destruct (decide (i = n)); [apply length_insert | done].
Qed.

Lemma shape2_fancy_iadd2 (A A' : list (list Qc)) (I J : list Z) (c : Qc) :
  fancy_iadd2 A I J c = Some A' -> shape2 A' = shape2 A.
Proof.
  unfold fancy_iadd2. intros H.
  destruct (broadcast2 I J) as [pairs|]; [|discriminate]. simpl in H.
  destruct (mapM (read2 A) pairs) as [reads|]; [|discriminate]. simpl in H.
  injection H as <-. clear pairs.
  revert A. induction reads as [|w reads IH]; intros A; simpl; [done|].
  rewrite IH. apply shape2_set2.
Qed.

Lemma shape3_iadd3 (T T' : list (list (list Qc))) (s : nat) (d : Z) (o : nat) (c : Qc) :
  iadd3 T s d o c = Some T' -> shape3 T' = shape3 T.
Proof.
  unfold iadd3. intros H.
  destruct (T !! s) as [m|] eqn:Hm; [|discriminate]. simpl in H.
  destruct (py_index (length m) d) as [dn|]; [|discriminate]. simpl in H.
  destruct (m !! dn) as [r|] eqn:Hr; [|discriminate]. simpl in H.
  destruct (r !! o) as [x|]; [|discriminate]. injection H as <-.
  unfold shape3, shape2. rewrite list_fmap_insert. apply list_insert_id.
  rewrite list_lookup_fmap, Hm. simpl. f_equal. symmetry.
  rewrite list_fmap_insert. apply list_insert_id.
  rewrite list_lookup_fmap, Hr. simpl. f_equal. symmetry. apply length_insert.
Qed.

(** X3.  Whatever its arguments, and whether it returns or raises,
    [updateProbabilitiesFromSamples] leaves the three sizes of the
    controller, its current node and the sizes of both tables as they were:
    it only ever changes entries of the tables. *)
Theorem update_changes_entries_only (s : samples) (lr : Qc)
    (c : FiniteStateController) :
  frame_of (updateProbabilitiesFromSamples s lr c).2 = frame_of c.
Proof.
  revert c. change (preserves frame_of (updateProbabilitiesFromSamples s lr)).
  unfold updateProbabilitiesFromSamples.
  destruct (decide _); [apply preserves_ret|].
  destruct (decide _); [|apply preserves_raise].
  apply preserves_bind.
  { destruct s; [apply preserves_ret|].
    apply preserves_bind; [apply preserves_orRaise | intros; apply preserves_ret]. }
  intros [[[w k] actions] nodeObs].
  apply preserves_bind.
  { apply preserves_modify. intros c. unfold frame_of. simpl.
    by rewrite shape2_scale2. }
  intros _. apply preserves_bind.
  { apply preserves_modify. intros c. unfold frame_of. simpl.
    by rewrite shape3_scale3. }
  intros _. apply preserves_forEach. intros sample.
  intros c. rewrite bind_get, bind_orRaise.
  destruct (column (rows2 actions) sample) as [col|]; [|reflexivity].
  rewrite bind_orRaise.
  destruct (fancy_iadd2 _ _ col _) as [A'|] eqn:HA'; [|reflexivity].
  rewrite bind_put.
  assert (Hc1 : frame_of (with_actionProbabilities A' c) = frame_of c).
  { unfold frame_of. simpl. by rewrite (shape2_fancy_iadd2 _ _ _ _ _ HA'). }
  rewrite <- Hc1. clear Hc1 HA'.
  generalize (with_actionProbabilities A' c). clear c.
  change (preserves frame_of
            (forEach (seq 0 (length (planes3 nodeObs)))
               (fun observation =>
                  forEach (seq 0 (dim3_1 nodeObs))
                    (bump nodeObs sample (lr * w) observation)))).
  apply preserves_forEach. intros o. apply preserves_forEach. intros st.
  intros c. unfold bump. rewrite bind_get, bind_orRaise.
  destruct (at3 nodeObs o st sample) as [d|]; [|reflexivity].
  rewrite bind_orRaise.
  destruct (iadd3 _ st d o _) as [T'|] eqn:HT'; [|reflexivity].
  unfold frame_of. simpl. by rewrite (shape3_iadd3 _ _ _ _ _ _ HT').
Qed.

Lemma Qc_one_over_one : 1 / Qc_of_nat 1 = 1.
Proof. apply Qc_is_canon. reflexivity. Qed.

(** X4.  The one-sample form of the arguments (actions of rank 1,
    transitions of rank 2 with as many columns) is treated as the batch of
    one sample that [np.expand_dims] makes of it. *)
Theorem one_sample_is_a_batch_of_one (a : list Z) (n : IntArray2) (lr : Qc)
    (c : FiniteStateController) :
  length a = cols2 n ->
  updateProbabilitiesFromSamples (OneSample a n) lr c
  = updateProbabilitiesFromSamples (Batch (expand_dims_1 a) (expand_dims_2 n)) lr c.
Proof.
  intros Hlen. unfold updateProbabilitiesFromSamples. simpl.
  rewrite length_map.
  destruct (decide (length a = 0%nat)); [reflexivity|].
  rewrite (decide_True (P := length a = cols2 n)) by done.
  change (int_recip 1) with (Some (1 / Qc_of_nat 1)).
  rewrite Qc_one_over_one. reflexivity.
Qed.

Lemma one_sample_is_a_batch_of_one_witness :
  updateProbabilitiesFromSamples (OneSample [0; 1]%Z (mkArray2 2 [[1; 0]]%Z)) (q 1 5)
    c_two_nodes
  = updateProbabilitiesFromSamples
      (Batch (expand_dims_1 [0; 1]%Z) (expand_dims_2 (mkArray2 2 [[1; 0]]%Z))) (q 1 5)
      c_two_nodes.
Proof.
  apply (one_sample_is_a_batch_of_one [0; 1]%Z (mkArray2 2 [[1; 0]]%Z)). reflexivity.
Defined.

Lemma py_index_out_of_range (n : nat) (i : Z) :
  ~ (- Z.of_nat n ≤ i < Z.of_nat n)%Z -> py_index n i = None.
Proof.
  intros H. unfold py_index. rewrite !bool_decide_eq_false_2 by lia. reflexivity.
Qed.

Lemma fancy_iadd2_out_of_range (A : list (list Qc)) (col : list Z) (c : Qc)
    (n : nat) (row : list Qc) (a : Z) :
  length col = length A ->
  A !! n = Some row -> col !! n = Some a ->
  ~ (- Z.of_nat (length row) ≤ a < Z.of_nat (length row))%Z ->
  fancy_iadd2 A (Z.of_nat <$> seq 0 (length A)) col c = None.
Proof.
  intros Hlen Hrow Ha Hout. unfold fancy_iadd2, broadcast2.
  rewrite decide_True by (by rewrite length_fmap, length_seq). simpl.
  assert (mapM (read2 A) (zip (Z.of_nat <$> seq 0 (length A)) col) = None) as ->;
    [|reflexivity].
  apply mapM_None_2, list.Exists_exists. exists (Z.of_nat n, a). split.
  - apply list_elem_of_lookup. exists n. apply lookup_zip_with_Some.
    exists (Z.of_nat n), a. split; [reflexivity|]. split; [|exact Ha].
    rewrite list_lookup_fmap, lookup_seq_lt by (by eapply lookup_lt_Some). reflexivity.
  - unfold read2. simpl.
    rewrite py_index_of_nat by (by eapply lookup_lt_Some). simpl.
    rewrite Hrow. simpl. by rewrite py_index_out_of_range.
Qed.

(** X5.  A sample that names an action the controller does not have (an
    index outside [-numActions, numActions)) makes the call raise
    [IndexError] when the first sample is added, after both tables have
    been multiplied by [1 - learningRate]: the controller is left decayed,
    its rows no longer summing to 1, and not as it was before the call. *)
Theorem unknown_action_raises_after_the_decay (c : FiniteStateController)
    (actions : IntArray2) (nodeObs : IntArray3) (lr : Qc)
    (n : nat) (row : list Z) (a : Z) :
  wf_controller c ->
  length (rows2 actions) = numNodes c ->
  Forall (fun r => length r = cols2 actions) (rows2 actions) ->
  cols2 actions = dim3_2 nodeObs ->
  rows2 actions !! n = Some row -> row !! 0%nat = Some a ->
  ~ (- Z.of_nat (numActions c) ≤ a < Z.of_nat (numActions c))%Z ->
  updateProbabilitiesFromSamples (Batch actions nodeObs) lr c
  = (Raised IndexError,
     with_nodeTransitionProbabilities
       (scale3 (1 - lr) (nodeTransitionProbabilities c))
       (with_actionProbabilities (scale2 (1 - lr) (actionProbabilities c)) c)).
Proof.
  intros [HAr HAc _ _] Hrows Hwf Hk Hrow Ha Hout.
  assert (Hk0 : cols2 actions <> 0%nat).
  { rewrite list.Forall_lookup in Hwf. rewrite <- (Hwf n row Hrow).
    apply lookup_lt_Some in Ha. lia. }
  unfold updateProbabilitiesFromSamples. simpl.
  rewrite decide_False by (apply lookup_lt_Some in Hrow; lia).
  rewrite decide_True by done.
  unfold int_recip. rewrite decide_False by done. simpl.
  rewrite !bind_unfold. simpl. rewrite !bind_modify.
  destruct (cols2 actions) as [|k] eqn:Hcols; [done|].
  change (seq 0 (Datatypes.S k)) with (0%nat :: seq 1 k).
  cbn [forEach]. apply bind_raise.
  rewrite bind_get.
  destruct (column_is_Some (rows2 actions) 0 (Datatypes.S k) Hwf) as [col Hcol]; [lia|].
  rewrite Hcol, bind_orRaise.
  destruct (column_lookup _ _ _ Hcol) as [Hcl Hcn].
  destruct (lookup_lt_is_Some_2 (actionProbabilities c) n) as [r Hr].
  { apply lookup_lt_Some in Hrow. lia. }
  simpl.
  rewrite <- HAr, <- (length_map (map (fun x => x * (1 - lr))) (actionProbabilities c)).
  rewrite (fancy_iadd2_out_of_range _ col _ n (map (fun x => x * (1 - lr)) r) a).
  - reflexivity.
  - unfold scale2. rewrite length_map. lia.
  - unfold scale2.
    change (map (map (fun x => x * (1 - lr))) (actionProbabilities c))
      with (fmap (M:=list) (map (fun x => x * (1 - lr))) (actionProbabilities c)).
    by rewrite list_lookup_fmap, Hr.
  - rewrite Hcn, Hrow. exact Ha.
  - rewrite length_map. rewrite list.Forall_lookup in HAc.
    by rewrite (HAc n r Hr).
Qed.

Lemma unknown_action_raises_after_the_decay_witness :
  updateProbabilitiesFromSamples (Batch batch_with_unknown_action two_elite_nodes)
    (q 1 5) c_two_nodes
  = (Raised IndexError,
     with_nodeTransitionProbabilities
       (scale3 (1 - q 1 5) (nodeTransitionProbabilities c_two_nodes))
       (with_actionProbabilities
          (scale2 (1 - q 1 5) (actionProbabilities c_two_nodes)) c_two_nodes)).
Proof.
  apply (unknown_action_raises_after_the_decay c_two_nodes batch_with_unknown_action
           two_elite_nodes (q 1 5) 1 [5; 1]%Z 5).
  - split; simpl; repeat constructor.
  - reflexivity.
  - repeat constructor.
  - reflexivity.
  - reflexivity.
  - reflexivity.
  - simpl. lia.
Defined.

(** ** [MultiActionPOMDP.reset] *)

Section WrapperReset.
Context {G : Type}.
Variable multinomial_argmax : list Qc -> G -> nat * G.
Variable randint : nat -> G -> nat * G.

Lemma reseeded_id (w : MultiActionPOMDP G) : reseeded (np_random (env w)) w = w.
Proof. by destruct w as [[] ? ? ?]. Qed.

Lemma draw_run (p : list Qc) (w : MultiActionPOMDP G) :
  exists v g, draw multinomial_argmax p w = (Returned v, reseeded g w) /\ (0 ≤ v)%Z.
Proof.
  unfold draw. destruct (multinomial_argmax p (np_random (env w))) as [n g].
  exists (Z.of_nat n), g. split; [reflexivity | lia].
Qed.

Lemma draw_randint_run (n : nat) (w : MultiActionPOMDP G) :
  exists v g, draw_randint randint n w = (Returned v, reseeded g w) /\ (0 ≤ v)%Z.
Proof.
  unfold draw_randint. destruct (randint n (np_random (env w))) as [k g].
  exists (Z.of_nat k), g. split; [reflexivity | lia].
Qed.

Lemma forM_draws {B} (ps : list B) (f : B -> M (MultiActionPOMDP G) Z) :
  (forall p w, exists v g, f p w = (Returned v, reseeded g w) /\ (0 ≤ v)%Z) ->
  forall w, exists l g,
    forM ps f w = (Returned l, reseeded g w) /\
    length l = length ps /\ Forall (fun v => (0 ≤ v)%Z) l.
Proof.
  intros Hf. induction ps as [|p ps IH]; intros w.
  - exists [], (np_random (env w)). rewrite reseeded_id. by repeat split.
  - destruct (Hf p w) as (v & g & Hv & Hpos).
    destruct (IH (reseeded g w)) as (l & g' & Hl & Hlen & Hall).
    exists (v :: l), g'. split; [|split; [simpl; lia | by constructor]].
    simpl. rewrite (bind_run _ _ _ _ _ Hv), (bind_run _ _ _ _ _ Hl). reflexivity.
Qed.

(** X6.  On an environment whose [start] is a distribution (or, when it
    has none, that has a state, so that the generator accepts the draw),
    [reset] of the wrapper returns.  It draws one state per trajectory from
    the generator of the environment and assigns them to [state]:
    afterwards [state] has [numTrajectories] entries, none of them negative
    (so no trajectory is marked done by [-1]); the attribute [states] and
    everything of the environment but its generator are as before. *)
Theorem wrapper_reset_draws_live_states (w : MultiActionPOMDP G) :
  match start (env w) with
  | Some p => is_distribution p
  | None => state_space_n (env w) <> 0%nat
  end ->
  exists s g,
    MultiActionPOMDP_reset multinomial_argmax randint w
    = (Returned tt,
       mkMulti (with_np_random g (env w)) (numTrajectories w) s (states w)) /\
    length s = numTrajectories w /\
    Forall (fun x => (0 ≤ x)%Z) s.
Proof.
  intros _. unfold MultiActionPOMDP_reset.
  assert (Hdraws : exists l g,
    match start (env w) with
    | Some p => forM (seq 0 (numTrajectories w)) (fun _ => draw multinomial_argmax p)
    | None => forM (seq 0 (numTrajectories w))
                (fun _ => draw_randint randint (state_space_n (env w)))
    end w = (Returned l, reseeded g w) /\
    length l = numTrajectories w /\ Forall (fun v => (0 ≤ v)%Z) l).
  { destruct (start (env w)) as [p|].
    - destruct (forM_draws (seq 0 (numTrajectories w))
                  (fun _ => draw multinomial_argmax p)) with (w := w)
        as (l & g & Hl & Hlen & Hall); [intros; apply draw_run|].
      exists l, g. rewrite length_seq in Hlen. done.
    - destruct (forM_draws (seq 0 (numTrajectories w))
                  (fun _ => draw_randint randint (state_space_n (env w)))) with (w := w)
        as (l & g & Hl & Hlen & Hall); [intros; apply draw_randint_run|].
      exists l, g. rewrite length_seq in Hlen. done. }
  destruct Hdraws as (l & g & Hl & Hlen & Hall).
  exists l, g. split; [|done].
  rewrite bind_get.
  rewrite (bind_run _ _ _ _ _ Hl). reflexivity.
Qed.
End WrapperReset.

Lemma wrapper_reset_draws_live_states_witness :
  is_distribution [q 1 2; q 1 2] /\
  exists s g,
    MultiActionPOMDP_reset scripted_draw scripted_randint wrapper_before_reset
    = (Returned tt,
       mkMulti (with_np_random g (env wrapper_before_reset))
         (numTrajectories wrapper_before_reset) s (states wrapper_before_reset)) /\
    length s = numTrajectories wrapper_before_reset /\
    Forall (fun x => (0 ≤ x)%Z) s.
Proof.
  assert (Hhalf : is_distribution [q 1 2; q 1 2]).
  { split; [apply Qc_is_canon; reflexivity|].
    repeat constructor; vm_compute; discriminate. }
  split; [exact Hhalf|].
  exact (wrapper_reset_draws_live_states scripted_draw scripted_randint
           wrapper_before_reset Hhalf).
Defined.

(** ** The batched [step] *)

Lemma length_scatter {A} (base : list A) (idxs : list nat) (vals : list A) :
  length (scatter base idxs vals) = length base.
Proof.
  unfold scatter. generalize (zip idxs vals). intros l. revert base.
  induction l as [|iv l IH]; intros base; simpl; [done|].
  by rewrite IH, length_insert.
Qed.

Lemma length_scatter_const {A} (base : list A) (idxs : list nat) (v : A) :
  length (scatter_const base idxs v) = length base.
Proof.
  unfold scatter_const. revert base.
  induction idxs as [|i idxs IH]; intros base; simpl; [done|].
  by rewrite IH, length_insert.
Qed.

Lemma Forall_scatter {A} (P : A -> Prop) (base : list A) (idxs : list nat)
    (vals : list A) :
  Forall P base -> Forall P vals -> Forall P (scatter base idxs vals).
Proof.
  unfold scatter. intros Hb Hv.
  assert (Hz : Forall (fun iv : nat * A => P iv.2) (zip idxs vals)).
  { apply list.Forall_forall. intros [i v] Hin. simpl.
    apply elem_of_zip_r in Hin. rewrite list.Forall_forall in Hv. by apply Hv. }
  revert base Hb. induction Hz as [|iv l Hiv Hl IH]; intros base Hb; simpl; [done|].
  apply IH. by apply Forall_insert.
Qed.

Lemma nonzero_none {A} (p : A -> bool) (l : list A) :
  Forall (fun x => p x = false) l -> nonzero p l = [].
Proof.
  unfold nonzero. intros Hl.
  assert (H : forall f : nat -> nat,
            filter (fun iv : nat * A => p iv.2 = true) (imap (fun i x => (f i, x)) l) = []).
  { induction Hl as [|x l Hx Hl IH]; intros f; [reflexivity|].
    simpl. rewrite filter_cons_False by (simpl; congruence).
    apply (IH (f ∘ Datatypes.S)). }
  change (imap pair l) with (imap (fun i x => (id i, x)) l). by rewrite H.
Qed.

Section BatchedStep.
Context {G : Type}.
Variable multinomial_argmax : list Qc -> G -> nat * G.

Lemma forM_draw_nonneg (ps : list (list Qc)) (w w' : MultiActionPOMDP G) (l : list Z) :
  forM ps (draw multinomial_argmax) w = (Returned l, w') ->
  Forall (fun v => (0 ≤ v)%Z) l.
Proof.
  intros H.
  destruct (forM_draws ps (draw multinomial_argmax)) with (w := w)
    as (l' & g & Hl & _ & Hall); [intros; apply draw_run|].
  rewrite Hl in H. by injection H as <- _.
Qed.

Lemma stepActions_returns (actions : list Z) (w w' : MultiActionPOMDP G)
    (obs : list Z) (rewards : list Qc) (done : list bool) :
  stepActions multinomial_argmax actions w = (Returned (obs, rewards, done), w') ->
  exists validNewStates validObs validRewards newStates,
    let doneIndices := nonzero (fun s => bool_decide (s = (-1)%Z)) (state w) in
    let notDoneIndices := nonzero (fun s => bool_decide (s ≠ (-1)%Z)) (state w) in
    Forall (fun v => (0 ≤ v)%Z) validNewStates /\
    Forall (fun v => (0 ≤ v)%Z) validObs /\
    validNewStates <> [] /\
    newStates
    = scatter_const
        (scatter (replicate (numTrajectories w) 0%Z) notDoneIndices validNewStates)
        doneIndices (-1)%Z /\
    obs
    = scatter_const
        (scatter (replicate (numTrajectories w) 0%Z) notDoneIndices validObs)
        doneIndices (-1)%Z /\
    rewards
    = scatter_const
        (scatter (replicate (numTrajectories w) 0) notDoneIndices validRewards)
        doneIndices 0 /\
    length done = numTrajectories w /\
    states w' = Some newStates /\ state w' = state w.
Proof.
  intros H. pose proof (stepActions_keeps_state multinomial_argmax actions w) as Hst.
  rewrite H in Hst. simpl in Hst.
  unfold stepActions in H.
  repeat first [inv_bind H | open_pair H].
  cbv beta delta [get] in E. injection E as <- <-.
  cbv beta delta [mret M_ret ret] in H. injection H as <- <- <- <-.
  cbv beta delta [modify] in E9. destruct a9. injection E9 as <-.
  destruct (decide (a3 = [])) as [|Hne]; [discriminate E4|].
  exists a3, a6, a7. eexists. simpl.
  split; [by eapply forM_draw_nonneg|]. split; [by eapply forM_draw_nonneg|].
  split; [exact Hne|]. split; [reflexivity|]. split; [reflexivity|].
  split; [reflexivity|]. split; [|split; [reflexivity | exact Hst]].
  destruct (episodic (env w)).
  - repeat inv_bind E8.
    destruct (decide _).
    + cbv beta delta [mret M_ret ret] in E8. injection E8 as <- _.
      by rewrite length_scatter, length_replicate.
    + match type of E8 with
      | context [match ?l with [] => _ | _ :: _ => _ end] =>
          destruct l as [|d [|? ?]]; try discriminate E8
      end.
      cbv beta delta [mret M_ret ret] in E8. injection E8 as <- _.
      by rewrite length_scatter_const, length_replicate.
  - cbv beta delta [mret M_ret ret] in E8. injection E8 as <- _.
    by rewrite length_fmap, length_replicate.
Qed.

(** X7.  When the batched [step] returns, the three arrays it returns and
    the array it stores in [states] have one entry per trajectory. *)
Theorem batched_step_returns_full_arrays (actions : list Z)
    (w w' : MultiActionPOMDP G) (obs : list Z) (rewards : list Qc)
    (done : list bool) :
  stepActions multinomial_argmax actions w = (Returned (obs, rewards, done), w') ->
  length obs = numTrajectories w /\
  length rewards = numTrajectories w /\
  length done = numTrajectories w /\
  exists newStates,
    states w' = Some newStates /\ length newStates = numTrajectories w.
Proof.
  intros H. apply stepActions_returns in H
    as (ns & vo & vr & newStates & _ & _ & _ & -> & -> & -> & Hd & Hs & _).
  rewrite !length_scatter_const, !length_scatter, !length_replicate.
  repeat split; try done.
  eexists. split; [exact Hs|].
  by rewrite length_scatter_const, length_scatter, length_replicate.
Qed.

(** X8.  On a wrapper of which no trajectory is marked done (no [-1] in
    [state], which is how [reset] leaves it and how every batched step
    keeps it), a batched [step] that returns has sampled every trajectory:
    no observation is [-1] and no stored state is [-1], whatever flags
    earlier steps returned. *)
Theorem live_trajectories_are_all_stepped (actions : list Z)
    (w w' : MultiActionPOMDP G) (obs : list Z) (rewards : list Qc)
    (done : list bool) :
  Forall (fun s => s <> (-1)%Z) (state w) ->
  stepActions multinomial_argmax actions w = (Returned (obs, rewards, done), w') ->
  Forall (fun o => (0 ≤ o)%Z) obs /\
  exists newStates,
    states w' = Some newStates /\ Forall (fun s => (0 ≤ s)%Z) newStates.
Proof.
  intros Hlive H. apply stepActions_returns in H
    as (ns & vo & vr & newStates & Hns & Hvo & _ & -> & -> & _ & _ & Hs & _).
  assert (Hnone : nonzero (fun s => bool_decide (s = (-1)%Z)) (state w) = []).
  { apply nonzero_none. eapply list.Forall_impl; [exact Hlive|]. intros s Hs'.
    by apply bool_decide_eq_false_2. }
  rewrite Hnone. simpl. split.
  - apply Forall_scatter; [apply Forall_replicate; lia | exact Hvo].
  - eexists. split; [exact Hs|]. rewrite Hnone. simpl.
    apply Forall_scatter; [apply Forall_replicate; lia | exact Hns].
Qed.

(** X9.  On a wrapper of which every trajectory is marked done, the
    batched [step] does not return an all-done answer: the empty list of new
    states becomes an array of floats, which numpy refuses as an index, and
    the call raises [IndexError] with the wrapper as it was. *)
Theorem batched_step_raises_when_all_are_done (actions : list Z)
    (w : MultiActionPOMDP G) :
  Forall (fun s => s = (-1)%Z) (state w) ->
  stepActions multinomial_argmax actions w = (Raised IndexError, w).
Proof.
  intros Hdone. unfold stepActions. rewrite bind_get.
  rewrite (nonzero_none (fun s => bool_decide (s ≠ (-1)%Z)) (state w)).
  2:{ eapply list.Forall_impl; [exact Hdone|]. intros s ->.
      apply bool_decide_eq_false_2. intros H. by apply H. }
  reflexivity.
Qed.
End BatchedStep.

Lemma closed_step_returns :
  exists obs rewards done w',
    stepActions scripted_draw [0; 0]%Z wrapper_two_trajectories
    = (Returned (obs, rewards, done), w').
Proof. vm_compute. do 4 eexists. reflexivity. Qed.

Lemma batched_step_returns_full_arrays_witness :
  exists obs rewards done w',
    stepActions scripted_draw [0; 0]%Z wrapper_two_trajectories
    = (Returned (obs, rewards, done), w') /\
    length obs = 2%nat /\ length rewards = 2%nat /\ length done = 2%nat.
Proof.
  destruct closed_step_returns as (obs & rewards & done & w' & H).
  exists obs, rewards, done, w'. split; [exact H|].
  destruct (batched_step_returns_full_arrays scripted_draw _ _ _ _ _ _ H)
    as (Ho & Hr & Hd & _).
  repeat split; assumption.
Defined.

Lemma live_trajectories_are_all_stepped_witness :
  Forall (fun s => s <> (-1)%Z) (state wrapper_two_trajectories) /\
  exists obs rewards done w',
    stepActions scripted_draw [0; 0]%Z wrapper_two_trajectories
    = (Returned (obs, rewards, done), w') /\
    Forall (fun o => (0 ≤ o)%Z) obs.
Proof.
  assert (Hlive : Forall (fun s => s <> (-1)%Z) (state wrapper_two_trajectories)).
  { repeat constructor; discriminate. }
  split; [exact Hlive|].
  destruct closed_step_returns as (obs & rewards & done & w' & H).
  exists obs, rewards, done, w'. split; [exact H|].
  exact (proj1 (live_trajectories_are_all_stepped scripted_draw _ _ _ _ _ _ Hlive H)).
Defined.

Lemma batched_step_raises_when_all_are_done_witness :
  Forall (fun s => s = (-1)%Z) (state wrapper_all_done) /\
  stepActions scripted_draw [0; 0]%Z wrapper_all_done = (Raised IndexError, wrapper_all_done).
Proof.
  assert (H : Forall (fun s => s = (-1)%Z) (state wrapper_all_done)).
  { repeat constructor. }
  split; [exact H|].
  exact (batched_step_raises_when_all_are_done scripted_draw [0; 0]%Z wrapper_all_done H).
Defined.

(** ** [_stepForSingleWorker] *)

Lemma nth_py_last {A} (l : list A) :
  length l <> 0%nat -> nth_py l (-1) = nth_py l (Z.of_nat (length l) - 1).
Proof.
  intros Hn. unfold nth_py, py_index.
  rewrite (bool_decide_eq_false_2 (0 ≤ -1 < _)%Z) by lia.
  rewrite (bool_decide_eq_true_2 (- _ ≤ -1 < 0)%Z) by lia.
  rewrite (bool_decide_eq_true_2 (0 ≤ _ - 1 < _)%Z) by lia.
  simpl. do 2 f_equal. lia.
Qed.

Section SingleWorker.
Context {G : Type}.
Variable multinomial_argmax : list Qc -> G -> nat * G.

Lemma draw_reseeds (p : list Qc) (w : MultiActionPOMDP G) :
  draw multinomial_argmax p w
  = (Returned (Z.of_nat (multinomial_argmax p (np_random (env w))).1),
     reseeded (multinomial_argmax p (np_random (env w))).2 w).
Proof. unfold draw. by destruct (multinomial_argmax p (np_random (env w))). Qed.

(** What a call of [_stepForSingleWorker] that returns has done. *)
Lemma stepForSingleWorker_returns (action index : Z)
    (w w' : MultiActionPOMDP G) (obs : Z) (reward : Qc) (done : bool) :
  stepForSingleWorker multinomial_argmax action index w
  = (Returned (obs, reward, done), w') ->
  exists i newState g,
    py_index (length (state w)) index = Some i /\
    w' = with_state (<[i := if done then (-1)%Z else newState]> (state w))
           (reseeded g w) /\
    (0 ≤ newState)%Z /\ (0 ≤ obs)%Z /\
    (done = true -> episodic (env w) = true).
Proof.
  unfold stepForSingleWorker. rewrite bind_get, bind_orRaise.
  destruct (nth_py (state w) index) as [currState|]; [|discriminate].
  rewrite bind_orRaise.
  destruct (T_at (env w) currState action) as [p|]; [|discriminate].
  rewrite bind_unfold, draw_reseeds.
  set (d1 := multinomial_argmax p (np_random (env w))).
  rewrite bind_orRaise.
  destruct (O_at (env w) currState action (Z.of_nat d1.1)) as [o|]; [|discriminate].
  rewrite bind_unfold, draw_reseeds.
  set (d2 := multinomial_argmax o _).
  rewrite bind_orRaise.
  destruct (R_at (env w) currState action (Z.of_nat d1.1) (Z.of_nat d2.1)) as [r|];
    [|discriminate].
  rewrite bind_unfold.
  assert (Hd : exists dn,
    (if episodic (env w)
     then orRaise IndexError (D_at (env w) currState action)
     else ret false) (reseeded d2.2 (reseeded d1.2 w))
    = (Returned dn, reseeded d2.2 (reseeded d1.2 w)) \/
    (if episodic (env w)
     then orRaise IndexError (D_at (env w) currState action)
     else ret false) (reseeded d2.2 (reseeded d1.2 w))
    = (Raised IndexError, reseeded d2.2 (reseeded d1.2 w))).
  { destruct (episodic (env w)); [|exists false; by left].
    destruct (D_at (env w) currState action) as [dn|];
      [exists dn; by left | exists false; by right]. }
  destruct Hd as (dn & [Hd|Hd]); rewrite Hd; [|discriminate].
  rewrite bind_orRaise.
  destruct (py_index (length (state w)) index) as [i|]; [|discriminate].
  rewrite bind_modify. intros H. injection H as <- <- <- <-.
  exists i, (Z.of_nat d1.1), d2.2. split; [reflexivity|].
  split; [by destruct w as [[] ? ? ?]|]. split; [lia|]. split; [lia|].
  intros ->. destruct (episodic (env w)); [reflexivity|].
  cbv beta delta [ret] in Hd. congruence.
Qed.

(** X10.  When [_stepForSingleWorker] returns, it has written exactly one
    entry of [state], the one of the worker ([index] counted from the end
    when negative): [-1] when it answers done, the state it drew otherwise.
    The other trajectories, [states] and the tables of the environment are
    as before; the observation it returns is a drawn one, never [-1]. *)
Theorem single_worker_step_writes_one_entry (action index : Z)
    (w w' : MultiActionPOMDP G) (obs : Z) (reward : Qc) (done : bool) :
  stepForSingleWorker multinomial_argmax action index w
  = (Returned (obs, reward, done), w') ->
  exists i newState g,
    py_index (length (state w)) index = Some i /\
    w' = with_state (<[i := if done then (-1)%Z else newState]> (state w))
           (reseeded g w) /\
    (0 ≤ newState)%Z /\ (0 ≤ obs)%Z.
Proof.
  intros H. apply stepForSingleWorker_returns in H
    as (i & newState & g & Hi & Hw & Hs & Ho & _).
  by exists i, newState, g.
Qed.

Lemma table_last {A} (t : list A) (n : nat) :
  length t = n -> n <> 0%nat -> nth_py t (-1) = nth_py t (Z.of_nat n - 1).
Proof. intros <- Hn. by apply nth_py_last. Qed.

(** X11.  The test [currState is None] never holds for an entry of the
    array [state], so a worker whose trajectory is marked done ([-1]) is
    not answered with [(-1, 0.0, True)]: the [-1] is used as an index and
    counts from the end.  On an environment whose tables have
    [state_space.n] rows, the call on a finished worker is the call on a
    worker in the last state, [state_space.n - 1]: same answer, same draws,
    same wrapper afterwards (when the call raises, the wrapper is left with
    the [state] it had). *)
Theorem finished_worker_is_stepped_from_the_last_state (action index : Z)
    (w : MultiActionPOMDP G) (i : nat) :
  state_space_n (env w) <> 0%nat ->
  length (env_T (env w)) = state_space_n (env w) ->
  length (env_O (env w)) = state_space_n (env w) ->
  length (env_R (env w)) = state_space_n (env w) ->
  (episodic (env w) = true -> length (env_D (env w)) = state_space_n (env w)) ->
  py_index (length (state w)) index = Some i ->
  state w !! i = Some (-1)%Z ->
  stepForSingleWorker multinomial_argmax action index w
  = match stepForSingleWorker multinomial_argmax action index
            (with_state (<[i := (Z.of_nat (state_space_n (env w)) - 1)%Z]> (state w)) w)
    with
    | (Returned r, w') => (Returned r, w')
    | (Raised e, w') => (Raised e, with_state (state w) w')
    end.
Proof.
  intros Hn HT HO HR HD Hi Hs.
  set (n := state_space_n (env w)) in *.
  set (w0 := with_state (<[i := (Z.of_nat n - 1)%Z]> (state w)) w).
  assert (Hlt : (i < length (state w))%nat) by (by eapply lookup_lt_Some).
  assert (Henv : env w0 = env w) by reflexivity.
  assert (Hlen : length (state w0) = length (state w)).
  { unfold w0. simpl. apply length_insert. }
  assert (Hcur : nth_py (state w) index = Some (-1)%Z).
  { unfold nth_py. rewrite Hi. exact Hs. }
  assert (Hcur0 : nth_py (state w0) index = Some (Z.of_nat n - 1)%Z).
  { unfold nth_py. rewrite Hlen, Hi. simpl. by apply list_lookup_insert_eq. }
  assert (Hback : forall g1, with_state (state w) (reseeded g1 w0) = reseeded g1 w).
  { intros g1. by destruct w as [[] ? ? ?]. }
  assert (Hback2 : forall g1 g2,
            with_state (state w) (reseeded g2 (reseeded g1 w0))
            = reseeded g2 (reseeded g1 w)).
  { intros g1 g2. by destruct w as [[] ? ? ?]. }
  unfold stepForSingleWorker. rewrite !bind_get, !bind_orRaise, Hcur, Hcur0, Henv.
  rewrite !bind_orRaise.
  assert (HTa : T_at (env w) (-1) action = T_at (env w) (Z.of_nat n - 1) action).
  { unfold T_at. by rewrite (table_last _ n HT Hn). }
  rewrite <- HTa.
  destruct (T_at (env w) (-1) action) as [p|].
  2:{ f_equal. by destruct w as [[] ? ? ?]. }
  rewrite !bind_unfold, !draw_reseeds.
  change (np_random (env w0)) with (np_random (env w)).
  set (d1 := multinomial_argmax p (np_random (env w))).
  rewrite !bind_orRaise.
  assert (HOa : O_at (env w) (-1) action (Z.of_nat d1.1)
                = O_at (env w) (Z.of_nat n - 1) action (Z.of_nat d1.1)).
  { unfold O_at. by rewrite (table_last _ n HO Hn). }
  rewrite <- HOa.
  destruct (O_at (env w) (-1) action (Z.of_nat d1.1)) as [o|].
  2:{ reflexivity. }
  rewrite !bind_unfold, !draw_reseeds.
  change (np_random (env (reseeded d1.2 w0))) with (np_random (env (reseeded d1.2 w))).
  set (d2 := multinomial_argmax o _).
  rewrite !bind_orRaise.
  assert (HRa : R_at (env w) (-1) action (Z.of_nat d1.1) (Z.of_nat d2.1)
                = R_at (env w) (Z.of_nat n - 1) action (Z.of_nat d1.1) (Z.of_nat d2.1)).
  { unfold R_at. by rewrite (table_last _ n HR Hn). }
  rewrite <- HRa.
  destruct (R_at (env w) (-1) action (Z.of_nat d1.1) (Z.of_nat d2.1)) as [r|].
  2:{ reflexivity. }
  rewrite !bind_unfold.
  assert (Hm : exists od : option bool, forall s : MultiActionPOMDP G,
    (if episodic (env w)
     then orRaise IndexError (D_at (env w) (-1) action) else ret false) s
    = match od with Some dn => (Returned dn, s) | None => (Raised IndexError, s) end /\
    (if episodic (env w)
     then orRaise IndexError (D_at (env w) (Z.of_nat n - 1) action) else ret false) s
    = match od with Some dn => (Returned dn, s) | None => (Raised IndexError, s) end).
  { destruct (episodic (env w)) eqn:Hep; [|by exists (Some false)].
    assert (HDa : D_at (env w) (-1) action = D_at (env w) (Z.of_nat n - 1) action).
    { unfold D_at. by rewrite (table_last _ n (HD eq_refl) Hn). }
    rewrite <- HDa. exists (D_at (env w) (-1) action). intros s.
    by destruct (D_at (env w) (-1) action). }
  destruct Hm as (od & Hm).
  rewrite (proj1 (Hm _)), (proj2 (Hm _)).
  destruct od as [dn|]; [|reflexivity].
  rewrite !bind_orRaise.
  change (length (state (reseeded d2.2 (reseeded d1.2 w0)))) with (length (state w0)).
  rewrite Hlen, Hi, !bind_modify.
  cbv beta iota delta [mret M_ret ret]. f_equal.
  unfold w0, reseeded, with_env, with_state. simpl.
  by rewrite list_insert_insert_eq.
Qed.
End SingleWorker.

Lemma closed_single_step_returns :
  exists obs reward done w',
    stepForSingleWorker scripted_draw 0 0 wrapper_two_workers
    = (Returned (obs, reward, done), w').
Proof. vm_compute. do 4 eexists. reflexivity. Qed.

Lemma single_worker_step_writes_one_entry_witness :
  exists obs reward (done : bool) w' i newState g,
    stepForSingleWorker scripted_draw 0 0 wrapper_two_workers
    = (Returned (obs, reward, done), w') /\
    py_index (length (state wrapper_two_workers)) 0 = Some i /\
    w' = with_state (<[i := if done then (-1)%Z else newState]>
                       (state wrapper_two_workers))
           (reseeded g wrapper_two_workers) /\
    (0 ≤ newState)%Z /\ (0 ≤ obs)%Z.
Proof.
  destruct closed_single_step_returns as (obs & reward & done & w' & H).
  destruct (single_worker_step_writes_one_entry scripted_draw _ _ _ _ _ _ _ H)
    as (i & newState & g & H1 & H2 & H3 & H4).
  exists obs, reward, done, w', i, newState, g. repeat split; assumption.
Defined.

Lemma finished_worker_is_stepped_from_the_last_state_witness :
  stepForSingleWorker scripted_draw 0 0 wrapper_all_done
  = match stepForSingleWorker scripted_draw 0 0
            (with_state (<[0%nat := (Z.of_nat (state_space_n (env wrapper_all_done)) - 1)%Z]>
                           (state wrapper_all_done)) wrapper_all_done)
    with
    | (Returned r, w') => (Returned r, w')
    | (Raised e, w') => (Raised e, with_state (state wrapper_all_done) w')
    end.
Proof.
  apply (finished_worker_is_stepped_from_the_last_state scripted_draw 0 0
           wrapper_all_done 0).
  - discriminate.
  - reflexivity.
  - reflexivity.
  - reflexivity.
  - intros _. reflexivity.
  - vm_compute. reflexivity.
  - reflexivity.
Defined.

(** ** The iterations of [runGDICEOnEnvironment], for every threshold *)

Lemma preserves_Returned {S X A} (f : S -> X) (m : M S A) (s s' : S) (a : A) :
  preserves f m -> m s = (Returned a, s') -> f s' = f s.
Proof. intros Hm H. specialize (Hm s). by rewrite H in Hm. Qed.

Lemma preserves_zoom {S T X A} (f : S -> X) (proj : S -> T) (inj : T -> S -> S)
    (m : M T A) :
  (forall t s, f (inj t s) = f s) -> preserves f (zoom proj inj m).
Proof. intros Hinj s. unfold zoom. destruct (m (proj s)). simpl. apply Hinj. Qed.

Ltac solve_preserves :=
  repeat first
    [ apply preserves_orRaise
    | apply preserves_ret
    | apply preserves_raise
    | apply preserves_get
    | apply preserves_zoom; intros; reflexivity
    | apply preserves_bind; [|intros ?]
    | match goal with
      | |- preserves _ (match ?x with _ => _ end) => destruct x
      end ].

Ltac keeps f E :=
  let K := fresh "K" in
  match type of E with
  | ?m ?s = (Returned ?a, ?s') =>
      assert (K : f s' = f s)
        by (apply (fun Hm => preserves_Returned f m s s' a Hm E); solve_preserves)
  end.

Lemma fval_ltb_NInf (x : fval) : fval_ltb x NInf = false.
Proof. by destruct x. Qed.

Section Schedule.
Context {G Gn : Type}.
Variable multinomial_argmax : list Qc -> G -> nat * G.
Variable randint : nat -> G -> nat * G.
Variables np_mean np_std : list Qc -> Qc.
Variable npr_choice : nat -> nat -> list Qc -> M Gn (list Z).
Variable argsort : list Qc -> list nat.

(** One iteration that returns: it has not taken the [break], it has left
    the marker alone, the best value is the larger of the old one and the
    top value of the iteration, and the checkpoint hook has been called
    when the iteration is a multiple of [saveFrequency]. *)
Lemma iterationBody_step (params : RunParams) (parallel : parallel_arg)
    (convergenceThreshold : Qc) (saveFrequency iteration : nat)
    (st st' : RunState) (w w' : World) (b : bool) :
  iterationBody multinomial_argmax randint np_mean np_std npr_choice argsort
    params parallel convergenceThreshold saveFrequency iteration st w
  = (Returned (b, st'), w') ->
  b = false /\
  estimatedConvergenceIteration st' = estimatedConvergenceIteration st /\
  (exists top,
     bestValue st'
     = if fval_ltb (bestValue st) (Fin top) then Fin top else bestValue st) /\
  saved w'
  = saved w ++
    (if bool_decide (saveFrequency ≠ 0%nat)
        && bool_decide (iteration `mod` saveFrequency = 0)%nat
     then [(iteration, st')] else []).
Proof.
  intros H. unfold iterationBody in H.
  repeat first [inv_bind H | open_pair H].
  keeps (@saved G Gn) E. keeps (@saved G Gn) E0. keeps (@saved G Gn) E1.
  assert (K2 : saved s2 = saved s1).
  { unfold evaluateVectorized, evaluatePerSample in E2.
    eapply preserves_Returned; [|exact E2]. solve_preserves. }
  keeps (@saved G Gn) E3. keeps (@saved G Gn) E4. keeps (@saved G Gn) E5.
  keeps (@saved G Gn) E6. keeps (@saved G Gn) E7.
  assert (K8 : saved s8 = saved s7).
  { eapply preserves_Returned; [|exact E8]. solve_preserves. }
  keeps (@saved G Gn) E9. keeps (@saved G Gn) E10.
  assert (K11 : saved s11 = saved s10).
  { eapply preserves_Returned; [|exact E11]. solve_preserves. }
  keeps (@saved G Gn) E12. keeps (@saved G Gn) E13. keeps (@saved G Gn) E14.
  keeps (@saved G Gn) E15. keeps (@saved G Gn) E16.
  assert (Hsaved : saved s16 = saved w) by congruence.
  assert (Hbest : exists top,
            f = if fval_ltb (bestValue st) (Fin top) then Fin top else bestValue st).
  { exists a6. destruct (fval_ltb (bestValue st) (Fin a6)).
    - repeat inv_bind E8. by injection E8 as _ <- _ _ _.
    - by injection E8 as _ <- _ _ _. }
  assert (Hfin : exists x, f = Fin x).
  { destruct Hbest as (top & ->).
    destruct (bestValue st) as [|x]; simpl; [eauto|].
    destruct (Qc_ltb x top); eauto. }
  destruct Hfin as (x & Hx).
  assert (Hcc : convergenceCheck convergenceThreshold b0 NInf f iteration
                  (estimatedConvergenceIteration st)
                = (false, estimatedConvergenceIteration st)).
  { rewrite Hx. reflexivity. }
  rewrite Hcc in H. rewrite bind_unfold in H.
  destruct (bool_decide (saveFrequency ≠ 0%nat)
            && bool_decide (iteration `mod` saveFrequency = 0)%nat).
  - injection H as <- <- <-. simpl. rewrite Hsaved. by repeat split.
  - injection H as <- <- <-. simpl. rewrite Hsaved, app_nil_r. by repeat split.
Qed.
End Schedule.

Lemma forBreak_all_iterations {S A B} (I : nat -> B -> S -> Prop) (xs : list A)
    (body : A -> B -> M S (bool * B)) :
  (forall i x b1 s1 r s2, xs !! i = Some x -> I i b1 s1 ->
     body x b1 s1 = (Returned r, s2) -> r.1 = false /\ I (Datatypes.S i) r.2 s2) ->
  forall b s b' s', I 0%nat b s -> forBreak xs body b s = (Returned b', s') ->
    I (length xs) b' s'.
Proof.
  revert I. induction xs as [|x xs IH]; intros I Hbody b s b' s' Hb H.
  - injection H as <- <-. exact Hb.
  - simpl in H. apply bind_Returned in H as (r & s1 & Hr & H).
    destruct (Hbody 0%nat x b s r s1 eq_refl Hb Hr) as [Hflag Hr'].
    rewrite Hflag in H.
    apply (IH (fun i => I (Datatypes.S i))) in H; [exact H | | exact Hr'].
    intros i y b1 s2 r' s3 Hy. apply (Hbody (Datatypes.S i)). exact Hy.
Qed.

Lemma Qc_ltb_lt (x y : Qc) : Qc_ltb x y = true <-> x < y.
Proof.
  unfold Qc_ltb. rewrite Qclt_alt. destruct (x ?= y); split; congruence.
Qed.

Lemma Qc_ltb_ge (x y : Qc) : Qc_ltb x y = false <-> y <= x.
Proof.
  rewrite <- not_true_iff_false, Qc_ltb_lt. split.
  - apply Qcnot_lt_le.
  - apply Qcle_not_lt.
Qed.

Lemma fval_geb_refl (a : fval) : fval_geb a a = true.
Proof.
  destruct a as [|x]; [reflexivity|]. unfold fval_geb. simpl.
  apply negb_true_iff, Qc_ltb_ge, Qcle_refl.
Qed.

Lemma fval_geb_trans (a b c : fval) :
  fval_geb c b = true -> fval_geb b a = true -> fval_geb c a = true.
Proof.
  unfold fval_geb. rewrite !negb_true_iff.
  destruct a as [|x], b as [|y], c as [|z]; simpl; try done.
  rewrite !Qc_ltb_ge. intros H1 H2. by apply Qcle_trans with y.
Qed.

Lemma fval_geb_max (b : fval) (top : Qc) :
  fval_geb (if fval_ltb b (Fin top) then Fin top else b) b = true.
Proof.
  destruct (fval_ltb b (Fin top)) eqn:Hlt; [|apply fval_geb_refl].
  unfold fval_geb. apply negb_true_iff.
  destruct b as [|x]; [reflexivity|]. simpl in *.
  apply Qc_ltb_ge, Qclt_le_weak. by apply Qc_ltb_lt.
Qed.

Section WholeRun.
Context {G Gn : Type}.
Variable multinomial_argmax : list Qc -> G -> nat * G.
Variable randint : nat -> G -> nat * G.
Variables np_mean np_std : list Qc -> Qc.
Variable npr_choice : nat -> nat -> list Qc -> M Gn (list Z).
Variable argsort : list Qc -> list nat.

Lemma run_enters_the_loop (params : RunParams) (parallel : parallel_arg)
    (convergenceThreshold : Qc) (saveFrequency : nat)
    (w w' : World) (st : RunState) :
  runGDICEOnEnvironment multinomial_argmax randint np_mean np_std npr_choice argsort
    params parallel convergenceThreshold saveFrequency w = (Returned st, w') ->
  exists c',
    reset (controller w) = (Returned tt, c') /\
    forBreak (seq 0 (numIterations (gdice params)))
      (iterationBody multinomial_argmax randint np_mean np_std npr_choice argsort
         params parallel convergenceThreshold saveFrequency)
      (initialRunState (gdice params)) (with_controller c' w) = (Returned st, w').
Proof.
  unfold runGDICEOnEnvironment. intros H.
  rewrite bind_get in H.
  destruct (decide _); [|discriminate H].
  destruct (decide _); [|discriminate H].
  rewrite bind_unfold in H. unfold zoom in H.
  destruct (reset (controller w)) as [[[]|err] c'] eqn:Hreset; [|discriminate H].
  exists c'. split; [reflexivity | exact H].
Qed.

(** X12.  Whatever the convergence threshold, the loop never takes its
    [break] and never records an iteration of convergence: the comparison
    of line 89 is made with [iterBestValue], which line 39 has just set to
    [np.NINF].  A run that returns (with at least one simulation per
    sample, so that the values are numbers) has gone through all
    [numIterations] iterations, each of which has assigned its entry of
    [bestValueAtEachIteration], and returns the marker 0. *)
Theorem run_never_stops_early (params : RunParams) (parallel : parallel_arg)
    (convergenceThreshold : Qc) (saveFrequency : nat)
    (w w' : World) (st : RunState) :
  numSimulationsPerSample params <> 0%nat ->
  runGDICEOnEnvironment multinomial_argmax randint np_mean np_std npr_choice argsort
    params parallel convergenceThreshold saveFrequency w = (Returned st, w') ->
  length (bestValueAtEachIteration st) = numIterations (gdice params) /\
  Forall is_Some (bestValueAtEachIteration st) /\
  estimatedConvergenceIteration st = 0%nat.
Proof.
  intros _ H. apply run_enters_the_loop in H as (c' & _ & H).
  set (n := numIterations (gdice params)) in *.
  pose (I := fun (i : nat) (st : RunState) (_ : @World G Gn) =>
    length (bestValueAtEachIteration st) = n /\
    (forall j, (j < i)%nat -> (j < n)%nat ->
       exists v, bestValueAtEachIteration st !! j = Some (Some v)) /\
    estimatedConvergenceIteration st = 0%nat).
  assert (Hfin : I (length (seq 0 n)) st w').
  { refine (forBreak_all_iterations I _ _ _ (initialRunState (gdice params))
              (with_controller c' w) st w' _ H).
    - intros i x b1 s1 [b st'] s2 Hx (Hlen & Hdone & Hmark) Hbody. simpl.
      apply lookup_seq in Hx as [-> Hi]. simpl in Hi.
      pose proof (iterationBody_returns _ _ _ _ _ _ _ _ _ _ _ _ _ _ _ _ Hbody)
        as (_ & _ & Hhist & _).
      apply iterationBody_step in Hbody as (Hflag & Hm & _ & _).
      split; [exact Hflag|]. repeat split.
      + by rewrite Hhist, length_insert.
      + intros j Hj Hjn. rewrite Hhist.
        destruct (decide (j = i)) as [->|Hne].
        * eexists. apply list_lookup_insert_eq. lia.
        * rewrite list_lookup_insert_ne by done. apply Hdone; lia.
      + by rewrite Hm.
    - repeat split; [apply length_replicate|]. intros j Hj. lia. }
  rewrite length_seq in Hfin. destruct Hfin as (Hlen & Hall & Hmark).
  repeat split; [exact Hlen | | exact Hmark].
  apply list.Forall_lookup. intros j e He.
  destruct (Hall j) as [v Hv].
  - apply lookup_lt_Some in He. lia.
  - apply lookup_lt_Some in He. lia.
  - rewrite Hv in He. injection He as <-. by eexists.
Qed.

(** X13.  The best value is a running maximum: in a run that returns, the
    history [bestValueAtEachIteration] never goes down from one iteration
    to a later one, the value returned is at least every entry of it, and
    it is the last entry. *)
Theorem best_value_never_goes_down (params : RunParams) (parallel : parallel_arg)
    (convergenceThreshold : Qc) (saveFrequency : nat)
    (w w' : World) (st : RunState) :
  runGDICEOnEnvironment multinomial_argmax randint np_mean np_std npr_choice argsort
    params parallel convergenceThreshold saveFrequency w = (Returned st, w') ->
  (forall i j vi vj, (i ≤ j)%nat ->
     bestValueAtEachIteration st !! i = Some (Some vi) ->
     bestValueAtEachIteration st !! j = Some (Some vj) ->
     fval_geb vj vi = true) /\
  (forall i v, bestValueAtEachIteration st !! i = Some (Some v) ->
     fval_geb (bestValue st) v = true) /\
  (numIterations (gdice params) <> 0%nat ->
   bestValueAtEachIteration st !! (numIterations (gdice params) - 1)%nat
   = Some (Some (bestValue st))).
Proof.
  intros H. apply run_enters_the_loop in H as (c' & _ & H).
  set (n := numIterations (gdice params)) in *.
  pose (I := fun (i : nat) (st : RunState) (_ : @World G Gn) =>
    length (bestValueAtEachIteration st) = n /\
    (forall j1 j2 v1 v2, (j1 ≤ j2)%nat -> (j2 < i)%nat ->
       bestValueAtEachIteration st !! j1 = Some (Some v1) ->
       bestValueAtEachIteration st !! j2 = Some (Some v2) ->
       fval_geb v2 v1 = true) /\
    (forall j v, (j < i)%nat ->
       bestValueAtEachIteration st !! j = Some (Some v) ->
       fval_geb (bestValue st) v = true) /\
    (i <> 0%nat ->
     bestValueAtEachIteration st !! (i - 1)%nat = Some (Some (bestValue st)))).
  assert (Hfin : I (length (seq 0 n)) st w').
  { refine (forBreak_all_iterations I _ _ _ (initialRunState (gdice params))
              (with_controller c' w) st w' _ H).
    - intros i x b1 s1 [b st'] s2 Hx (Hlen & Hsorted & Hbelow & _) Hbody. simpl.
      apply lookup_seq in Hx as [-> Hi]. simpl in Hi.
      pose proof (iterationBody_returns _ _ _ _ _ _ _ _ _ _ _ _ _ _ _ _ Hbody)
        as (_ & _ & Hhist & _).
      apply iterationBody_step in Hbody as (Hflag & _ & (top & Hbest) & _).
      assert (Hup : fval_geb (bestValue st') (bestValue b1) = true).
      { rewrite Hbest. apply fval_geb_max. }
      assert (Hnew : bestValueAtEachIteration st' !! i = Some (Some (bestValue st'))).
      { rewrite Hhist. apply list_lookup_insert_eq. lia. }
      assert (Hbelow' : forall j v, (j < Datatypes.S i)%nat ->
                bestValueAtEachIteration st' !! j = Some (Some v) ->
                fval_geb (bestValue st') v = true).
      { intros j v Hj Hv. destruct (decide (j = i)) as [->|Hne].
        - rewrite Hnew in Hv. injection Hv as <-. apply fval_geb_refl.
        - rewrite Hhist, list_lookup_insert_ne in Hv by done.
          apply fval_geb_trans with (bestValue b1); [exact Hup|].
          apply (Hbelow j); [lia | exact Hv]. }
      split; [exact Hflag|]. repeat split.
      + by rewrite Hhist, length_insert.
      + intros j1 j2 v1 v2 Hle Hj2 H1 H2.
        destruct (decide (j2 = i)) as [->|Hne].
        * rewrite Hnew in H2. injection H2 as <-.
          apply (Hbelow' j1); [lia | exact H1].
        * rewrite Hhist, list_lookup_insert_ne in H1 by lia.
          rewrite Hhist, list_lookup_insert_ne in H2 by lia.
          apply (Hsorted j1 j2); [lia | lia | exact H1 | exact H2].
      + exact Hbelow'.
      + intros _. replace (Datatypes.S i - 1)%nat with i by lia. exact Hnew.
    - repeat split; [apply length_replicate | | |]; intros; lia. }
  rewrite length_seq in Hfin. destruct Hfin as (Hlen & Hsorted & Hbelow & Hlast).
  repeat split.
  - intros i j vi vj Hle Hi Hj. apply (Hsorted i j); try done.
    apply lookup_lt_Some in Hj. lia.
  - intros i v Hi. apply (Hbelow i); [|done]. apply lookup_lt_Some in Hi. lia.
  - exact Hlast.
Qed.

(** X14.  The checkpoint hook is called in the iterations that are
    multiples of [saveFrequency], in order and starting with iteration 0,
    and in no other; with [saveFrequency = 0] it is never called. *)
Theorem checkpoints_follow_the_save_frequency (params : RunParams)
    (parallel : parallel_arg) (convergenceThreshold : Qc) (saveFrequency : nat)
    (w w' : World) (st : RunState) :
  runGDICEOnEnvironment multinomial_argmax randint np_mean np_std npr_choice argsort
    params parallel convergenceThreshold saveFrequency w = (Returned st, w') ->
  fst <$> saved w'
  = (fst <$> saved w) ++
    (if decide (saveFrequency = 0%nat) then []
     else filter (fun i => (i `mod` saveFrequency = 0)%nat)
            (seq 0 (numIterations (gdice params)))).
Proof.
  intros H. apply run_enters_the_loop in H as (c' & _ & H).
  set (n := numIterations (gdice params)) in *.
  pose (I := fun (i : nat) (_ : RunState) (s : @World G Gn) =>
    fst <$> saved s
    = (fst <$> saved w) ++
      (if decide (saveFrequency = 0%nat) then []
       else filter (fun i => (i `mod` saveFrequency = 0)%nat) (seq 0 i))).
  assert (Hfin : I (length (seq 0 n)) st w').
  { refine (forBreak_all_iterations I _ _ _ (initialRunState (gdice params))
              (with_controller c' w) st w' _ H).
    - intros i x b1 s1 [b st'] s2 Hx Hinv Hbody. simpl.
      apply lookup_seq in Hx as [-> Hi]. simpl in Hi.
      apply iterationBody_step in Hbody as (Hflag & _ & _ & Hsaved).
      split; [exact Hflag|]. unfold I in *.
      rewrite Hsaved, fmap_app, Hinv, <- app_assoc. f_equal.
      destruct (decide (saveFrequency = 0%nat)) as [Hz|Hz].
      + rewrite (bool_decide_eq_false_2 (saveFrequency ≠ 0%nat)) by tauto.
        reflexivity.
      + rewrite (bool_decide_eq_true_2 (saveFrequency ≠ 0%nat)) by done.
        rewrite seq_S, list.filter_app. f_equal. simpl.
        rewrite list.filter_cons, list.filter_nil.
        destruct (decide (i `mod` saveFrequency = 0)%nat) as [Hd|Hd].
        * by rewrite bool_decide_eq_true_2.
        * by rewrite bool_decide_eq_false_2.
    - unfold I. simpl. destruct (decide _); by rewrite app_nil_r. }
  rewrite length_seq in Hfin. exact Hfin.
Qed.

(** X15.  The run resets the controller before anything else, so that what
    the controller passed in has learnt is discarded: two controllers of
    the same three sizes (with an action and a node, and matching the
    environment) give the same run, whatever their tables and current
    node. *)
Theorem run_discards_the_tables_passed_in (params : RunParams)
    (parallel : parallel_arg) (convergenceThreshold : Qc) (saveFrequency : nat)
    (w : World) (c : FiniteStateController) :
  numNodes c = numNodes (controller w) ->
  numActions c = numActions (controller w) ->
  numObservations c = numObservations (controller w) ->
  numActions c <> 0%nat -> numNodes c <> 0%nat ->
  action_space_n (environment w) = numActions c ->
  observation_space_n (environment w) = numObservations c ->
  runGDICEOnEnvironment multinomial_argmax randint np_mean np_std npr_choice argsort
    params parallel convergenceThreshold saveFrequency (with_controller c w)
  = runGDICEOnEnvironment multinomial_argmax randint np_mean np_std npr_choice argsort
      params parallel convergenceThreshold saveFrequency w.
Proof.
  intros HN HA HO HA0 HN0 HEA HEO. unfold runGDICEOnEnvironment.
  rewrite !bind_get.
  change (environment (with_controller c w)) with (environment w).
  change (controller (with_controller c w)) with c.
  rewrite <- HA, <- HO, !decide_True by done.
  rewrite !bind_unfold. unfold zoom. rewrite !reset_run.
  change (controller (with_controller c w)) with c.
  rewrite <- HA, <- HN, !decide_False by done.
  f_equal.
  unfold with_controller, with_nodeTransitionProbabilities,
    with_actionProbabilities, with_currentNode. simpl.
  by rewrite <- HA, <- HN, <- HO.
Qed.
End WholeRun.

Lemma closed_run_with_threshold_returns :
  exists st w',
    runGDICEOnEnvironment scripted_draw scripted_randint mean std_of_one
      scripted_choice stable_argsort params_converging ParNone (q 1 10) 2
      (world script_converging) = (Returned st, w').
Proof. vm_compute. do 2 eexists. reflexivity. Qed.

Lemma run_never_stops_early_witness :
  numSimulationsPerSample params_converging <> 0%nat /\
  exists st w',
    runGDICEOnEnvironment scripted_draw scripted_randint mean std_of_one
      scripted_choice stable_argsort params_converging ParNone (q 1 10) 2
      (world script_converging) = (Returned st, w') /\
    length (bestValueAtEachIteration st) = 4%nat /\
    Forall is_Some (bestValueAtEachIteration st) /\
    estimatedConvergenceIteration st = 0%nat.
Proof.
  assert (Hsim : numSimulationsPerSample params_converging <> 0%nat) by discriminate.
  split; [exact Hsim|].
  destruct closed_run_with_threshold_returns as (st & w' & Hrun).
  exists st, w'. split; [exact Hrun|].
  apply (run_never_stops_early _ _ _ _ _ _ _ _ _ _ _ _ _ Hsim Hrun).
Defined.

Lemma best_value_never_goes_down_witness :
  exists st w',
    runGDICEOnEnvironment scripted_draw scripted_randint mean std_of_one
      scripted_choice stable_argsort params_converging ParNone (q 1 10) 2
      (world script_converging) = (Returned st, w') /\
    (forall i j vi vj, (i ≤ j)%nat ->
       bestValueAtEachIteration st !! i = Some (Some vi) ->
       bestValueAtEachIteration st !! j = Some (Some vj) ->
       fval_geb vj vi = true) /\
    (forall i v, bestValueAtEachIteration st !! i = Some (Some v) ->
       fval_geb (bestValue st) v = true) /\
    bestValueAtEachIteration st !! 3%nat = Some (Some (bestValue st)).
Proof.
  destruct closed_run_with_threshold_returns as (st & w' & Hrun).
  exists st, w'. split; [exact Hrun|].
  destruct (best_value_never_goes_down _ _ _ _ _ _ _ _ _ _ _ _ _ Hrun)
    as (H1 & H2 & H3).
  split; [exact H1|]. split; [exact H2|]. apply H3. discriminate.
Defined.

Lemma checkpoints_follow_the_save_frequency_witness :
  exists st w',
    runGDICEOnEnvironment scripted_draw scripted_randint mean std_of_one
      scripted_choice stable_argsort params_converging ParNone (q 1 10) 2
      (world script_converging) = (Returned st, w') /\
    fst <$> saved w' = [0; 2]%nat.
Proof.
  destruct closed_run_with_threshold_returns as (st & w' & Hrun).
  exists st, w'. split; [exact Hrun|].
  exact (checkpoints_follow_the_save_frequency _ _ _ _ _ _ _ _ _ _ _ _ _ Hrun).
Defined.

Lemma run_discards_the_tables_passed_in_witness :
  runGDICEOnEnvironment scripted_draw scripted_randint mean std_of_one
    scripted_choice stable_argsort params_floor ParNone 0 0
    (with_controller c_one_node (world script_floor))
  = runGDICEOnEnvironment scripted_draw scripted_randint mean std_of_one
      scripted_choice stable_argsort params_floor ParNone 0 0 (world script_floor).
Proof.
  apply run_discards_the_tables_passed_in; try reflexivity; discriminate.
Defined.

(** ** A finished trajectory and the batched [step] *)

Lemma orRaise_Some {S A} (e : exn) (o : option A) (s s' : S) (a : A) :
  orRaise e o s = (Returned a, s') -> o = Some a /\ s' = s.
Proof. destruct o; [|discriminate]. intros H. by injection H as <- <-. Qed.

Lemma forM_length {S A B} (xs : list A) (f : A -> M S B) (s s' : S) (l : list B) :
  forM xs f s = (Returned l, s') -> length l = length xs.
Proof.
  revert s l. induction xs as [|x xs IH]; intros s l H.
  - by injection H as <- _.
  - cbn [forM] in H.
    apply bind_Returned in H as (y & s1 & _ & H).
    apply bind_Returned in H as (ys & s2 & Hys & H).
    injection H as <- <-. simpl. f_equal. by eapply IH.
Qed.

Lemma length_nonzero_le {A} (p : A -> bool) (l : list A) :
  (length (nonzero p l) ≤ length l)%nat.
Proof.
  unfold nonzero. rewrite length_fmap.
  etrans; [apply length_filter|]. by rewrite length_imap.
Qed.

Lemma length_nonzero_lt {A} (p : A -> bool) (l : list A) (x : A) :
  x ∈ l -> p x = false -> (length (nonzero p l) < length l)%nat.
Proof.
  intros Hx Hp. unfold nonzero. rewrite length_fmap.
  apply list_elem_of_lookup_1 in Hx as [i Hi].
  rewrite <- (length_imap pair l).
  apply length_filter_lt with (i, x).
  - by apply elem_of_lookup_imap_2.
  - simpl. congruence.
Qed.

Lemma length_broadcast2 {A B} (I : list A) (J : list B) (ij : list (A * B)) :
  broadcast2 I J = Some ij ->
  (1 < length I)%nat -> length ij = length I.
Proof.
  unfold broadcast2. intros H HI.
  destruct (decide (length I = length J)) as [Hlen|Hlen].
  - injection H as <-. rewrite length_zip. lia.
  - destruct I as [|i [|i' I]]; simpl in HI; try lia.
    destruct J as [|j [|j' J]]; try discriminate H.
    injection H as <-. simpl. by rewrite length_fmap.
Qed.

Section FinishedTrajectory.
Context {G : Type}.
Variable multinomial_argmax : list Qc -> G -> nat * G.

Lemma stepActions_returns_live (actions : list Z) (w w' : MultiActionPOMDP G)
    (r : list Z * list Qc * list bool) :
  episodic (env w) = true ->
  stepActions multinomial_argmax actions w = (Returned r, w') ->
  Forall (fun s => s <> (-1)%Z) (state w).
Proof.
  intros Hep H. unfold stepActions in H.
  repeat first [inv_bind H | open_pair H].
  cbv beta delta [get] in E. injection E as <- <-.
  set (nd := nonzero (fun s : Z => bool_decide (s ≠ (-1)%Z)) (state w)) in *.
  apply orRaise_Some in E0 as [E0 _]. apply length_mapM in E0.
  apply orRaise_Some in E1 as [E1 _]. apply length_mapM in E1.
  apply orRaise_Some in E2 as [E2 _]. apply length_mapM in E2.
  apply forM_length in E3.
  destruct (decide (a3 = [])) as [|Hne]; [discriminate E4|].
  assert (Hk : (1 ≤ length nd)%nat).
  { destruct a3; [done|]. rewrite length_zip in E2. simpl in E3. lia. }
  rewrite Hep in E8. inv_bind E8. inv_bind E8.
  apply orRaise_Some in E as [E _]. apply orRaise_Some in E10 as [E10 _].
  apply length_mapM in E10.
  destruct (decide (Forall (fun s => s <> (-1)%Z) (state w))) as [|Hsome]; [done|].
  exfalso. apply not_Forall_Exists in Hsome; [|apply _].
  apply list.Exists_exists in Hsome as (x & Hx & Hdone).
  assert (Hlt : (length nd < length (state w))%nat).
  { apply length_nonzero_lt with x; [exact Hx|].
    apply bool_decide_eq_false_2. exact Hdone. }
  apply length_broadcast2 in E; [|lia].
  destruct (decide (length a10 = length nd)) as [Heq|Hneq]; [lia|].
  destruct a10 as [|d [|d' ds]]; try discriminate E8.
  simpl in E10. lia.
Qed.

(** X16.  In an episodic environment the batched [step] has no answer for
    a wrapper with a finished trajectory: as soon as one entry of [state]
    is [-1], the call raises, whatever the actions ([IndexError] when all
    trajectories are finished; when some are, at the latest in
    [done[notDoneIndices] = self.env.D[self.state, actions]], whose two
    sides differ in length), so the lines that answer [-1] and [0.0] for a
    finished trajectory never produce a result there. *)
Theorem batched_step_never_answers_for_a_finished_trajectory (actions : list Z)
    (w : MultiActionPOMDP G) :
  episodic (env w) = true ->
  (-1)%Z ∈ state w ->
  exists e w', stepActions multinomial_argmax actions w = (Raised e, w').
Proof.
  intros Hep Hin.
  destruct (stepActions multinomial_argmax actions w) as [[r|e] w'] eqn:H;
    [|by eauto].
  exfalso. apply stepActions_returns_live in H; [|exact Hep].
  rewrite list.Forall_forall in H. by apply (H _ Hin).
Qed.

(** X17.  Once [_stepForSingleWorker] has answered done for a worker, the
    batched [step] of the same wrapper raises: the single-worker step marks
    the trajectory with [-1] in [state], and the batched step cannot go on
    from there. *)
Theorem batched_step_raises_after_a_worker_has_finished (action index : Z)
    (actions : list Z) (w w1 : MultiActionPOMDP G) (obs : Z) (reward : Qc) :
  stepForSingleWorker multinomial_argmax action index w
  = (Returned (obs, reward, true), w1) ->
  exists e w2, stepActions multinomial_argmax actions w1 = (Raised e, w2).
Proof.
  intros H1.
  destruct (stepActions multinomial_argmax actions w1) as [[r|e] w2] eqn:H2;
    [|by eauto].
  exfalso.
  apply stepForSingleWorker_returns in H1
    as (i & newState & g & Hi & -> & _ & _ & Hep).
  specialize (Hep eq_refl).
  apply stepActions_returns_live in H2; [|exact Hep].
  simpl in H2. rewrite list.Forall_forall in H2.
  apply (H2 (-1)%Z); [|done].
  apply list_elem_of_lookup_2 with i. apply list_lookup_insert_eq.
  unfold py_index in Hi. repeat case_bool_decide; simplify_eq; lia.
Qed.
End FinishedTrajectory.

Lemma batched_step_never_answers_for_a_finished_trajectory_witness :
  episodic (env wrapper_one_done) = true /\
  (-1)%Z ∈ state wrapper_one_done /\
  exists e w',
    stepActions scripted_draw [0; 0]%Z wrapper_one_done = (Raised e, w').
Proof.
  assert (Hep : episodic (env wrapper_one_done) = true) by reflexivity.
  assert (Hin : (-1)%Z ∈ state wrapper_one_done) by constructor.
  split; [exact Hep|]. split; [exact Hin|].
  exact (batched_step_never_answers_for_a_finished_trajectory scripted_draw
           [0; 0]%Z wrapper_one_done Hep Hin).
Defined.

Lemma closed_single_step_ends_the_trajectory :
  exists obs reward w1,
    stepForSingleWorker scripted_draw 0 0 wrapper_two_workers
    = (Returned (obs, reward, true), w1).
Proof. vm_compute. do 3 eexists. reflexivity. Qed.

Lemma batched_step_raises_after_a_worker_has_finished_witness :
  exists obs reward w1,
    stepForSingleWorker scripted_draw 0 0 wrapper_two_workers
    = (Returned (obs, reward, true), w1) /\
    exists e w2, stepActions scripted_draw [0; 0]%Z w1 = (Raised e, w2).
Proof.
  destruct closed_single_step_ends_the_trajectory as (obs & reward & w1 & H).
  exists obs, reward, w1. split; [exact H|].
  exact (batched_step_raises_after_a_worker_has_finished scripted_draw 0 0
           [0; 0]%Z _ _ _ _ H).
Defined.

(** ** The other methods of the controller *)

Lemma qsum_insert (l : list Qc) (j : nat) (old x : Qc) :
  l !! j = Some old -> qsum (<[j := x]> l) = qsum l - old + x.
Proof.
  revert j. induction l as [|y l IH]; intros [|j] H; try discriminate H.
  - injection H as ->. change (x + qsum l = old + qsum l - old + x). ring.
  - change (y + qsum (<[j := x]> l) = y + qsum l - old + x).
    rewrite (IH j H). ring.
Qed.

Lemma py_index_Some (n : nat) (z : Z) :
  (- Z.of_nat n ≤ z < Z.of_nat n)%Z -> exists i, py_index n z = Some i /\ (i < n)%nat.
Proof.
  intros Hz. unfold py_index.
  destruct (bool_decide (0 ≤ z < Z.of_nat n)%Z) eqn:H1.
  - apply bool_decide_eq_true_1 in H1. eexists. split; [reflexivity | lia].
  - apply bool_decide_eq_false_1 in H1.
    rewrite bool_decide_eq_true_2 by lia. eexists. split; [reflexivity | lia].
Qed.

(** X18.  For a node and an action in range (negative indices count from
    the end), [updateActionProbability] returns and has replaced that one
    entry of the table and nothing else.  It does not renormalise: the row
    then sums to its old sum minus the old entry plus the new one, so a row
    that was a distribution is one no longer as soon as the entry has
    changed. *)
Theorem updateActionProbability_writes_one_entry (c : FiniteStateController)
    (nodeIndex actionIndex : Z) (p : Qc) :
  wf_controller c ->
  (- Z.of_nat (numNodes c) ≤ nodeIndex < Z.of_nat (numNodes c))%Z ->
  (- Z.of_nat (numActions c) ≤ actionIndex < Z.of_nat (numActions c))%Z ->
  exists i j row old,
    py_index (numNodes c) nodeIndex = Some i /\
    py_index (numActions c) actionIndex = Some j /\
    actionProbabilities c !! i = Some row /\ row !! j = Some old /\
    updateActionProbability nodeIndex actionIndex p c
    = (Returned tt,
       with_actionProbabilities (<[i := <[j := p]> row]> (actionProbabilities c)) c) /\
    qsum (<[j := p]> row) = qsum row - old + p /\
    (is_distribution row -> p <> old -> ~ is_distribution (<[j := p]> row)).
Proof.
  intros [HAr HAc _ _] Hn Ha.
  destruct (py_index_Some _ _ Hn) as (i & Hi & Hlt).
  destruct (py_index_Some _ _ Ha) as (j & Hj & Hjlt).
  destruct (lookup_lt_is_Some_2 (actionProbabilities c) i) as [row Hrow]; [lia|].
  assert (Hlen : length row = numActions c).
  { by apply (proj1 (list.Forall_lookup _ _) HAc i). }
  destruct (lookup_lt_is_Some_2 row j) as [old Hold]; [lia|].
  exists i, j, row, old. repeat split; try done.
  - unfold updateActionProbability.
    rewrite bind_get, bind_orRaise, HAr, Hi, bind_orRaise, Hrow, bind_orRaise,
      Hlen, Hj.
    unfold put, set2. do 3 f_equal.
    apply list_eq. intros k.
    destruct (decide (k = i)) as [->|Hne].
    + rewrite list_lookup_alter_eq, list_lookup_insert_eq by lia. by rewrite Hrow.
    + by rewrite list_lookup_alter_ne, list_lookup_insert_ne.
  - by apply qsum_insert.
  - intros [Hsum _] Hp [Hsum' _].
    rewrite (qsum_insert _ _ _ _ Hold), Hsum in Hsum'.
    apply Hp. 
    assert (H : p = (1 - old + p) - 1 + old) by ring.
    rewrite Hsum' in H. rewrite H. ring.
Qed.

(** X19.  An index out of range makes [updateActionProbability] raise
    [IndexError], and the controller is as it was. *)
Theorem updateActionProbability_out_of_range (c : FiniteStateController)
    (nodeIndex actionIndex : Z) (p : Qc) :
  wf_controller c ->
  ~ (- Z.of_nat (numNodes c) ≤ nodeIndex < Z.of_nat (numNodes c))%Z \/
  ~ (- Z.of_nat (numActions c) ≤ actionIndex < Z.of_nat (numActions c))%Z ->
  updateActionProbability nodeIndex actionIndex p c = (Raised IndexError, c).
Proof.
  intros [HAr HAc _ _] Hout. unfold updateActionProbability.
  rewrite bind_get, bind_orRaise, HAr.
  destruct (py_index (numNodes c) nodeIndex) as [i|] eqn:Hi; [|reflexivity].
  rewrite bind_orRaise.
  destruct (actionProbabilities c !! i) as [row|] eqn:Hrow; [|reflexivity].
  rewrite bind_orRaise.
  assert (Hlen : length row = numActions c).
  { by apply (proj1 (list.Forall_lookup _ _) HAc i). }
  rewrite Hlen.
  destruct Hout as [Hout|Hout].
  - by rewrite py_index_out_of_range in Hi.
  - by rewrite py_index_out_of_range.
Qed.

Section CurrentNodeSampling.
Context {Gn : Type}.
Variable npr_choice : nat -> nat -> list Qc -> M Gn (list Z).

Lemma nth_py_of_nat {A} (l : list A) (n : nat) : nth_py l (Z.of_nat n) = l !! n.
Proof.
  unfold nth_py. destruct (decide (n < length l)%nat) as [Hlt|Hge].
  - by rewrite py_index_of_nat.
  - rewrite py_index_out_of_range by lia. simpl.
    symmetry. apply lookup_ge_None. lia.
Qed.

(** X20.  A controller that is new or has just been [reset] has no current
    node, and [sampleAction] raises [ValueError] on it without drawing;
    this holds also when [reset] itself raised. *)
Theorem sampleAction_needs_a_current_node (c : FiniteStateController)
    (numNodes numActions numObservations numSamples : nat) (g : Gn) :
  sampleAction npr_choice (reset c).2 numSamples g = (Raised ValueError, g) /\
  sampleAction npr_choice
    (FiniteStateController_init numNodes numActions numObservations).2 numSamples g
  = (Raised ValueError, g).
Proof.
  split.
  - rewrite reset_run. unfold sampleAction.
    by repeat destruct (decide _).
  - unfold FiniteStateController_init, initActionNodeProbabilityTable,
      initObservationNodeTransitionProbabilityTable, sampleAction,
      mbind, M_bind, bind, get, put, orRaise, int_recip, ret, raise.
    simpl.
    destruct (decide (numActions = 0%nat)); [reflexivity|]. simpl.
    by destruct (decide (numNodes = 0%nat)).
Qed.

(** X21.  [sampleActionFromAllNodes] draws, node by node and in the order
    of the nodes, what [sampleAction] draws with that node as the current
    node. *)
Theorem sampleActionFromAllNodes_samples_each_node (c : FiniteStateController)
    (numSamples : nat) :
  sampleActionFromAllNodes npr_choice c numSamples
  = (rows ← forM (seq 0 (numNodes c)) (fun nodeIndex =>
       sampleAction npr_choice
         (setNode (Some (Z.of_nat nodeIndex)) c).2 numSamples);
     mret (mkArray2 numSamples rows)).
Proof.
  unfold sampleActionFromAllNodes. f_equal.
  generalize (seq 0 (numNodes c)). intros l.
  induction l as [|n l IH]; [reflexivity|].
  cbn [forM]. rewrite IH. f_equal.
  unfold sampleAction, setNode, modify. cbn.
  by rewrite nth_py_of_nat.
Qed.
End CurrentNodeSampling.

Lemma c_two_nodes_wf : wf_controller c_two_nodes.
Proof.
  split; simpl; repeat constructor.
Qed.

Lemma updateActionProbability_writes_one_entry_witness :
  wf_controller c_two_nodes /\
  (- Z.of_nat (numNodes c_two_nodes) ≤ -1 < Z.of_nat (numNodes c_two_nodes))%Z /\
  (- Z.of_nat (numActions c_two_nodes) ≤ 0 < Z.of_nat (numActions c_two_nodes))%Z /\
  exists i j row old,
    py_index (numNodes c_two_nodes) (-1) = Some i /\
    py_index (numActions c_two_nodes) 0 = Some j /\
    actionProbabilities c_two_nodes !! i = Some row /\ row !! j = Some old /\
    updateActionProbability (-1) 0 1 c_two_nodes
    = (Returned tt,
       with_actionProbabilities
         (<[i := <[j := 1]> row]> (actionProbabilities c_two_nodes)) c_two_nodes) /\
    qsum (<[j := 1]> row) = qsum row - old + 1 /\
    (is_distribution row -> 1 <> old -> ~ is_distribution (<[j := 1]> row)).
Proof.
  assert (Hn : (- Z.of_nat (numNodes c_two_nodes) ≤ -1
                < Z.of_nat (numNodes c_two_nodes))%Z) by (simpl; lia).
  assert (Ha : (- Z.of_nat (numActions c_two_nodes) ≤ 0
                < Z.of_nat (numActions c_two_nodes))%Z) by (simpl; lia).
  split; [exact c_two_nodes_wf|]. split; [exact Hn|]. split; [exact Ha|].
  exact (updateActionProbability_writes_one_entry c_two_nodes (-1) 0 1
           c_two_nodes_wf Hn Ha).
Defined.

Lemma updateActionProbability_out_of_range_witness :
  wf_controller c_two_nodes /\
  (~ (- Z.of_nat (numNodes c_two_nodes) ≤ 0 < Z.of_nat (numNodes c_two_nodes))%Z \/
   ~ (- Z.of_nat (numActions c_two_nodes) ≤ 2 < Z.of_nat (numActions c_two_nodes))%Z) /\
  updateActionProbability 0 2 1 c_two_nodes = (Raised IndexError, c_two_nodes).
Proof.
  assert (Hout : ~ (- Z.of_nat (numNodes c_two_nodes) ≤ 0
                    < Z.of_nat (numNodes c_two_nodes))%Z \/
                 ~ (- Z.of_nat (numActions c_two_nodes) ≤ 2
                    < Z.of_nat (numActions c_two_nodes))%Z) by (right; simpl; lia).
  split; [exact c_two_nodes_wf|]. split; [exact Hout|].
  exact (updateActionProbability_out_of_range c_two_nodes 0 2 1 c_two_nodes_wf Hout).
Defined.

(** ** [evaluateFSCOnEnvironment] *)

Section OlderLoopProperties.
Context {G Gn : Type}.
Variable multinomial_argmax : list Qc -> G -> nat * G.
Variable randint : nat -> G -> nat * G.
Variable npr_choice : nat -> nat -> list Qc -> M Gn (list Z).
Variable argsort : list Qc -> list nat.
Variable env_reset : M (POMDP G) unit.

Lemma rolloutLoop_needs_a_discount (remaining : nat)
    (sampledActions : IntArray2) (sampledNodes : IntArray3)
    (sampleIndices currentNodes : list Z) (currentTimestep : nat)
    (values : list Qc) (isDones : list bool)
    (w w' : MultiActionPOMDP G) (r : list Qc) :
  remaining <> 0%nat -> forallb id isDones = false ->
  rolloutLoop multinomial_argmax remaining None sampledActions sampledNodes
    sampleIndices currentNodes currentTimestep values isDones w
  <> (Returned r, w').
Proof.
  intros Hrem Hdone H. destruct remaining as [|remaining]; [done|].
  cbn [rolloutLoop] in H. rewrite Hdone in H.
  repeat first [inv_bind H | open_pair H].
  discriminate E2.
Qed.

Lemma evaluateFSCIteration_needs_a_discount (params : GDICEParams)
    (timeHorizon : nat) (parallel : parallel_arg) (iteration : nat)
    (st st' : FSCState) (w w' : World) :
  numSamples params <> 0%nat -> timeHorizon <> 0%nat ->
  evaluateFSCIteration multinomial_argmax randint npr_choice argsort env_reset
    params timeHorizon parallel None iteration st w
  <> (Returned st', w').
Proof.
  intros Hsamples Hhorizon H. unfold evaluateFSCIteration in H.
  inv_bind H. inv_bind H. inv_bind H. inv_bind H.
  clear H. destruct (chooseStrategy parallel).
  - inv_bind E2. discriminate E2.
  - unfold onMultiEnv in E2.
    match type of E2 with
    | context [(?m ≫= ?k) ?x] => destruct ((m ≫= k) x) as [[r|e] multiEnv] eqn:Hm
    end; [|discriminate E2].
    inv_bind Hm.
    revert Hm. apply rolloutLoop_needs_a_discount; [exact Hhorizon|].
    destruct (numSamples params); [done | reflexivity].
Qed.

(** X22.  The older loop reads [gamma = env.discount] without the default
    that [Algorithms.py] gives it: on an environment that has no discount
    it cannot evaluate a sample, and with at least one iteration, one sample
    and one time step it never returns. *)
Theorem evaluateFSCOnEnvironment_needs_a_discount (params : GDICEParams)
    (timeHorizon : nat) (parallel : parallel_arg) (w : World) :
  discount (environment w) = None ->
  numIterations params <> 0%nat -> numSamples params <> 0%nat ->
  timeHorizon <> 0%nat ->
  exists e w',
    evaluateFSCOnEnvironment multinomial_argmax randint npr_choice argsort env_reset
      params timeHorizon parallel w = (Raised e, w').
Proof.
  intros Hgamma Hiter Hsamples Hhorizon.
  destruct (evaluateFSCOnEnvironment _ _ _ _ _ _ _ _ w) as [[r|e] w'] eqn:H;
    [|by eauto].
  exfalso. unfold evaluateFSCOnEnvironment in H. rewrite bind_get in H.
  destruct (decide _); [|discriminate H].
  destruct (decide _); [|discriminate H].
  inv_bind H. rewrite Hgamma in H. inv_bind H. inv_bind H.
  destruct (numIterations params) as [|n]; [done|].
  cbn [seq foldM] in E1. inv_bind E1.
  by apply evaluateFSCIteration_needs_a_discount in E2.
Qed.
End OlderLoopProperties.

Lemma evaluateFSCOnEnvironment_needs_a_discount_witness :
  discount (environment (world script_floor)) = None /\
  numIterations (gdice params_floor) <> 0%nat /\
  numSamples (gdice params_floor) <> 0%nat /\
  1%nat <> 0%nat /\
  exists e w',
    evaluateFSCOnEnvironment scripted_draw scripted_randint scripted_choice
      stable_argsort (ret tt) (gdice params_floor) 1 ParNone (world script_floor)
    = (Raised e, w').
Proof.
  assert (H1 : discount (environment (world script_floor)) = None) by reflexivity.
  assert (H2 : numIterations (gdice params_floor) <> 0%nat) by discriminate.
  assert (H3 : numSamples (gdice params_floor) <> 0%nat) by discriminate.
  assert (H4 : 1%nat <> 0%nat) by discriminate.
  split; [exact H1|]. split; [exact H2|]. split; [exact H3|]. split; [exact H4|].
  exact (evaluateFSCOnEnvironment_needs_a_discount scripted_draw scripted_randint
           scripted_choice stable_argsort (ret tt) (gdice params_floor) 1 ParNone
           (world script_floor) H1 H2 H3 H4).
Defined.
